(** * Google Workspace integration scripts: a shallow embedding

    The two scripts under [chittyos-integrations/google] are straight-line
    orchestration of library calls wrapped in [try]/[except].  Every call
    that leaves the script (file system, OAuth library, Admin SDK, shell) is
    modelled as an event answered by an environment; a run of a function is
    the list of events it issues together with its result, which is either a
    value or the Python exception that escaped. *)

From Stdlib Require Import Ascii String.
From stdpp Require Import gmap strings list pretty.

(** ** Python values the scripts manipulate *)

Module Py.

(** Exceptions that reach an [except Exception] clause.  [KeyError] and
    [AttributeError] are raised by the scripts' own dictionary and method
    accesses; [LibraryError] stands for whatever a library call raises. *)
Inductive exn :=
| KeyError (key : string)
| AttributeError (msg : string)
| LibraryError (msg : string).

(** [str(e)], as the f-strings of the [except] clauses render it. *)
Definition exn_str (e : exn) : string :=
  match e with
  | KeyError k => "'" +:+ k +:+ "'"
  | AttributeError m => m
  | LibraryError m => m
  end.

(** A value that is a string or [None], formatted by an f-string. *)
Definition fmt (v : option string) : string :=
  match v with Some s => s | None => "None" end.

(** Truthiness of a string-or-[None] attribute. *)
Definition truthy (v : option string) : bool :=
  match v with
  | Some s => negb (String.eqb s "")
  | None => false
  end.

(** [s.split(sep)] for a one-character separator: never empty, one more
    piece than there are separators. *)
Fixpoint split (sep : ascii) (s : string) : list string :=
  match s with
  | EmptyString => [EmptyString]
  | String c s' =>
      if Ascii.eqb c sep then EmptyString :: split sep s'
      else match split sep s' with
           | piece :: pieces => String c piece :: pieces
           | [] => [String c EmptyString]
           end
  end.

(** [str.isspace] of a character of one byte: TAB..CR, FS..US and the
    blank. *)
Definition isspace (c : ascii) : bool :=
  let n := nat_of_ascii c in
  ((9 <=? n)%nat && (n <=? 13)%nat) || ((28 <=? n)%nat && (n <=? 32)%nat).

(** The white space of [str.isspace] beyond one byte, in the UTF-8
    encoding the strings are held in: U+0085 and U+00A0 take two bytes
    (C2 85, C2 A0). *)
Definition isspace2 (c1 c2 : ascii) : bool :=
  (nat_of_ascii c1 =? 194)%nat
  && ((nat_of_ascii c2 =? 133)%nat || (nat_of_ascii c2 =? 160)%nat).

(** U+1680 (E1 9A 80), U+2000..U+200A (E2 80 80..8A), U+2028, U+2029 and
    U+202F (E2 80 A8, A9, AF), U+205F (E2 81 9F) and U+3000 (E3 80 80)
    take three bytes. *)
Definition isspace3 (c1 c2 c3 : ascii) : bool :=
  let n1 := nat_of_ascii c1 in
  let n2 := nat_of_ascii c2 in
  let n3 := nat_of_ascii c3 in
  ((n1 =? 225)%nat && (n2 =? 154)%nat && (n3 =? 128)%nat)
  || ((n1 =? 226)%nat && (n2 =? 128)%nat
      && (((128 <=? n3)%nat && (n3 <=? 138)%nat)
          || (n3 =? 168)%nat || (n3 =? 169)%nat || (n3 =? 175)%nat))
  || ((n1 =? 226)%nat && (n2 =? 129)%nat && (n3 =? 159)%nat)
  || ((n1 =? 227)%nat && (n2 =? 128)%nat && (n3 =? 128)%nat).

(** The bytes that remain once the white-space characters at the head
    have been dropped; [two] and [three] recognise the characters of two
    and of three bytes. *)
Fixpoint skip_spaces (two : ascii -> ascii -> bool)
    (three : ascii -> ascii -> ascii -> bool) (s : list ascii) : list ascii :=
  match s with
  | [] => []
  | c1 :: s1 =>
      if isspace c1 then skip_spaces two three s1
      else
        match s1 with
        | [] => s
        | c2 :: s2 =>
            if two c1 c2 then skip_spaces two three s2
            else
              match s2 with
              | [] => s
              | c3 :: s3 =>
                  if three c1 c2 c3 then skip_spaces two three s3 else s
              end
        end
  end.

(** [s.lstrip()] *)
Definition lstrip (s : string) : string :=
  string_of_list_ascii (skip_spaces isspace2 isspace3 (list_ascii_of_string s)).

(** [s.rstrip()]: the same from the end, on the bytes in reverse, where
    the bytes of a character come last byte first. *)
Definition rstrip (s : string) : string :=
  string_of_list_ascii
    (rev (skip_spaces (fun c1 c2 => isspace2 c2 c1)
            (fun c1 c2 c3 => isspace3 c3 c2 c1)
            (rev (list_ascii_of_string s)))).

(** [s.strip()] *)
Definition strip (s : string) : string := lstrip (rstrip s).

(** [s.rstrip('/')] *)
Fixpoint rstrip_slash (s : string) : string :=
  match s with
  | EmptyString => EmptyString
  | String c s' =>
      match rstrip_slash s' with
      | EmptyString =>
          if Ascii.eqb c "/" then EmptyString else String c EmptyString
      | r => String c r
      end
  end.

(** [s] cut at its first ['/']: the part before it, and the rest from the
    slash on (empty when there is none). *)
Fixpoint break_slash (s : string) : string * string :=
  match s with
  | EmptyString => (EmptyString, EmptyString)
  | String c s' =>
      if Ascii.eqb c "/" then (EmptyString, s)
      else let '(name, rest) := break_slash s' in (String c name, rest)
  end.

(** [posixpath.expanduser]: [home] gives the home directory of a user
    name, the empty name standing for the current user ([$HOME] or the
    password database); a path whose user is unknown is left unchanged. *)
Definition expanduser (home : string -> option string) (path : string) : string :=
  match path with
  | String "~" after =>
      let '(name, rest) := break_slash after in
      match home name with
      | None => path
      | Some dir =>
          match rstrip_slash dir +:+ rest with
          | EmptyString => "/"
          | expanded => expanded
          end
      end
  | _ => path
  end.

(** The line feed of ["\n"]. *)
Definition nl : string := String (ascii_of_nat 10) EmptyString.

(** A JSON scalar inside an API response, and its [str()]. *)
Inductive scalar :=
| SNull
| SBool (b : bool)
| SNum (n : Z)
| SStr (s : string).

Definition scalar_str (v : scalar) : string :=
  match v with
  | SNull => "None"
  | SBool true => "True"
  | SBool false => "False"
  | SNum n => pretty n
  | SStr s => s
  end.

End Py.

Import Py.

(** ** Data exchanged with the libraries *)

(** A credential object, as far as the scripts observe it:
    [google.auth.credentials.Credentials] exposes [token], [refresh_token]
    and the clock-dependent property [expired]; [valid] is the library's
    derived property [token is not None and not expired]. *)
Record credentials := Credentials {
  token : option string;
  refresh_token : option string;
  expired : bool;
}.

Definition valid (creds : credentials) : bool :=
  match token creds with
  | Some _ => negb (expired creds)
  | None => false
  end.

(** The client handle returned by [build(serviceName, version, credentials=...)]. *)
Record service := Service {
  serviceName : string;
  version : string;
  svc_credentials : credentials;
}.

(** A row yielded by [csv.DictReader]: a dictionary from column names to a
    field, which is [None] when the line is shorter than the header. *)
Abbreviation row := (gmap string (option string)).

Record group_body := GroupBody {
  gb_email : option string;
  gb_name : option string;
  gb_description : option string;
}.

Record member_body := MemberBody {
  mb_email : string;
  mb_role : string;
}.

(** The dictionary an Admin SDK [list(...).execute()] returns: resource
    collections by name, each entry a dictionary of scalars. *)
Abbreviation entry := (gmap string scalar).
Abbreviation response := (gmap string (list entry)).

(** ** Calls, events and the environment *)

Inductive call :=
| PathExists (path : string)
| FromAuthorizedUserFile (path : string) (scopes : list string)
| Refresh (creds : credentials)
| FromClientSecretsFile (path : string) (scopes : list string)
| RunLocalServer (port : Z)
| WriteFile (path content : string)
| OpenCsv (path : string)
| GroupsInsert (svc : service) (body : group_body)
| MembersInsert (svc : service) (groupKey : option string) (body : member_body)
| AuthDefault (scopes : option (list string))
| FromServiceAccountFile (path : string) (scopes : list string)
| Build (name ver : string) (creds : credentials)
| DomainsList (svc : service) (customer : string)
| UsersList (svc : service) (customer : string) (maxResults : Z)
| GroupsList (svc : service) (customer : string) (maxResults : Z)
| System (cmd : string).

Inductive value :=
| VNone
| VBool (b : bool)
| VInt (n : Z)
| VCreds (c : credentials)
| VRows (rows : list row)
| VResponse (r : response).

Inductive event :=
| Called (c : call) (result : exn + value)
| Printed (line : string).

(** The outside world.  Each field answers one kind of call, given the
    events issued so far; [inl e] means the call raised [e]. *)
Record env := Env {
  os_path_exists : list event -> string -> bool;
  from_authorized_user_file : list event -> string -> list string -> exn + credentials;
  creds_refresh : list event -> credentials -> exn + credentials;
  from_client_secrets_file : list event -> string -> list string -> exn + unit;
  run_local_server : list event -> Z -> exn + credentials;
  write_file : list event -> string -> string -> exn + unit;
  open_csv : list event -> string -> exn + (list row * option exn);
  groups_insert : list event -> service -> group_body -> exn + unit;
  members_insert : list event -> service -> option string -> member_body -> exn + unit;
  auth_default : list event -> option (list string) -> exn + credentials;
  from_service_account_file : list event -> string -> list string -> exn + credentials;
  build : list event -> string -> string -> credentials -> exn + unit;
  domains_list : list event -> service -> string -> exn + response;
  users_list : list event -> service -> string -> Z -> exn + response;
  groups_list : list event -> service -> string -> Z -> exn + response;
  os_system : list event -> string -> Z;
  creds_to_json : credentials -> string;
  userhome : string -> option string;
}.

(** ** The monad of a run: history in, result and issued events out *)

Definition M (A : Type) : Type := list event -> (exn + A) * list event.

Definition ret {A} (a : A) : M A := fun _ => (inr a, []).

Definition raise {A} (e : exn) : M A := fun _ => (inl e, []).

Definition bind {A B} (m : M A) (k : A -> M B) : M B :=
  fun h =>
    match m h with
    | (inl e, t) => (inl e, t)
    | (inr a, t) => let '(r, t') := k a (h ++ t) in (r, t ++ t')
    end.

(** [try: m except Exception as e: handler e] *)
Definition try_except {A} (m : M A) (handler : exn -> M A) : M A :=
  fun h =>
    match m h with
    | (inl e, t) => let '(r, t') := handler e (h ++ t) in (r, t ++ t')
    | (inr a, t) => (inr a, t)
    end.

Notation "'let!' x ':=' m 'in' k" := (bind m (fun x => k))
  (at level 10, x name, m at level 100, k at level 200).

(** A call answered by the environment. *)
Definition perform {A} (c : call) (inj : A -> value)
    (answer : list event -> exn + A) : M A :=
  fun h => let r := answer h in (r, [Called c (sum_map id inj r)]).

Definition print (line : string) : M unit :=
  fun _ => (inr tt, [Printed line]).

(** [d[key]] on a dictionary with string keys *)
Definition getitem {V} (d : gmap string V) (key : string) : M V :=
  match d !! key with
  | Some v => ret v
  | None => raise (KeyError key)
  end.

(** [for x in l: body x] without [break] *)
Fixpoint for_each {A} (l : list A) (body : A -> M unit) : M unit :=
  match l with
  | [] => ret tt
  | x :: l' => let! _ := body x in for_each l' body
  end.

(** The result and the events of a run started after history [h]. *)
Definition result_of {A} (m : M A) (h : list event) : exn + A := fst (m h).
Definition trace_of {A} (m : M A) (h : list event) : list event := snd (m h).

(** ** [google_workspace_config/setup_workspace.py] *)

Module SetupWorkspace.
Section Script.
Context (E : env).

Definition SCOPES : list string := [
  "https://www.googleapis.com/auth/admin.directory.user";
  "https://www.googleapis.com/auth/admin.directory.group";
  "https://www.googleapis.com/auth/apps.groups.settings"
].

(** [not creds or not creds.valid] *)
Definition needs_login (creds : option credentials) : bool :=
  match creds with
  | None => true
  | Some c => negb (valid c)
  end.

(** [creds and creds.expired and creds.refresh_token] *)
Definition can_refresh (creds : option credentials) : bool :=
  match creds with
  | None => false
  | Some c => expired c && truthy (refresh_token c)
  end.

Definition authenticate : M (option credentials) :=
  let! has_token :=
    perform (PathExists "token.json") VBool
      (fun h => inr (os_path_exists E h "token.json")) in
  let! creds :=
    (if has_token : bool then
       let! c := perform (FromAuthorizedUserFile "token.json" SCOPES) VCreds
                   (fun h => from_authorized_user_file E h "token.json" SCOPES) in
       ret (Some c)
     else ret None) in
  if needs_login creds then
    let! creds :=
      (if can_refresh creds then
         match creds with
         | Some c => perform (Refresh c) VCreds (fun h => creds_refresh E h c)
         | None => raise (AttributeError "'NoneType' object has no attribute 'refresh'")
         end
       else
         let! _ := perform (FromClientSecretsFile "credentials.json" SCOPES)
                     (fun _ => VNone)
                     (fun h => from_client_secrets_file E h "credentials.json" SCOPES) in
         perform (RunLocalServer 0) VCreds (fun h => run_local_server E h 0)) in
    let! _ := perform (WriteFile "token.json" (creds_to_json E creds))
                (fun _ => VNone)
                (fun h => write_file E h "token.json" (creds_to_json E creds)) in
    ret (Some creds)
  else ret creds.

(** [row['Owners'].split(';')]: the method lookup fails on [None]. *)
Definition split_owners (owners : option string) : M (list string) :=
  match owners with
  | Some s => ret (split ";" s)
  | None => raise (AttributeError "'NoneType' object has no attribute 'split'")
  end.

(** The body of the inner loop: one owner of one row. *)
Definition add_owner (svc : service) (r : row) (owner : string) : M unit :=
  let member_body := MemberBody (strip owner) "OWNER" in
  let! key := getitem r "Group Email" in
  perform (MembersInsert svc key member_body) (fun _ => VNone)
    (fun h => members_insert E h svc key member_body).

(** The body of the outer loop: one row of the CSV file. *)
Definition create_group (svc : service) (r : row) : M unit :=
  let! email := getitem r "Group Email" in
  let! name := getitem r "Group Name" in
  let! description := getitem r "Description" in
  let body := GroupBody email name description in
  try_except
    (let! _ := perform (GroupsInsert svc body) (fun _ => VNone)
                 (fun h => groups_insert E h svc body) in
     let! created := getitem r "Group Email" in
     let! _ := print ("✓ Created group: " +:+ fmt created) in
     let! listed := getitem r "Owners" in
     let! owners := split_owners listed in
     for_each owners (add_owner svc r))
    (fun e =>
       let! failed := getitem r "Group Email" in
       print ("✗ Error creating " +:+ fmt failed +:+ ": " +:+ exn_str e)).

(** [csv.DictReader] reads the file while the loop runs: the answer to the
    [open] holds the rows the reader yields and, when the read after them
    raises instead of ending the iteration, the exception of that read. *)
Definition create_groups (svc : service) : M unit :=
  let! reads := perform (OpenCsv "groups/entity_groups.csv")
                  (fun reads => VRows (fst reads))
                  (fun h => open_csv E h "groups/entity_groups.csv") in
  let! _ := for_each (fst reads) (create_group svc) in
  match snd reads with
  | Some e => raise e
  | None => ret tt
  end.

End Script.
End SetupWorkspace.

(** ** [quick_auth_setup.py] *)

Module QuickAuth.
Section Script.
Context (E : env).

Definition SCOPES : list string := [
  "https://www.googleapis.com/auth/admin.directory.user";
  "https://www.googleapis.com/auth/admin.directory.group";
  "https://www.googleapis.com/auth/admin.directory.domain"
].

Definition gcloud_login : string :=
  "gcloud auth application-default login --scopes=https://www.googleapis.com/auth/admin.directory.user,https://www.googleapis.com/auth/admin.directory.group,https://www.googleapis.com/auth/admin.directory.domain".

Definition service_account_paths : list string := [
  "service-account.json";
  "credentials.json";
  expanduser (userhome E) "~/.config/gcloud/service-account.json"
].

(** [build('admin', 'directory_v1', credentials=creds)] *)
Definition build_admin (creds : credentials) : M service :=
  let! _ := perform (Build "admin" "directory_v1" creds) (fun _ => VNone)
              (fun h => build E h "admin" "directory_v1" creds) in
  ret (Service "admin" "directory_v1" creds).

(** [service.domains().list(customer='my_customer').execute()] *)
Definition probe (svc : service) : M response :=
  perform (DomainsList svc "my_customer") VResponse
    (fun h => domains_list E h svc "my_customer").

(** Method 1.  [Some] is the [return] inside the [try]; [None] falls
    through to the code after the [except]. *)
Definition try_adc : M (option (credentials * service)) :=
  try_except
    (let! _ := print (nl +:+ "1️⃣ Trying Application Default Credentials...") in
     let! creds := perform (AuthDefault (Some SCOPES)) VCreds
                     (fun h => auth_default E h (Some SCOPES)) in
     let! svc := build_admin creds in
     let! _ := probe svc in
     let! _ := print "✅ Application Default Credentials working!" in
     ret (Some (creds, svc)))
    (fun e =>
       let! _ := print ("❌ ADC failed: " +:+ exn_str e) in
       ret None).

(** Method 2, the [try] of one existing key file. *)
Definition try_service_account (path : string) : M (option (credentials * service)) :=
  try_except
    (let! _ := print (nl +:+ "2️⃣ Trying service account: " +:+ path) in
     let! creds := perform (FromServiceAccountFile path SCOPES) VCreds
                     (fun h => from_service_account_file E h path SCOPES) in
     let! svc := build_admin creds in
     let! _ := probe svc in
     let! _ := print ("✅ Service account working: " +:+ path) in
     ret (Some (creds, svc)))
    (fun e =>
       let! _ := print ("❌ Service account failed: " +:+ exn_str e) in
       ret None).

(** Method 2, the loop over the candidate paths. *)
Fixpoint try_service_accounts (paths : list string) : M (option (credentials * service)) :=
  match paths with
  | [] => ret None
  | path :: rest =>
      let! found := perform (PathExists path) VBool
                      (fun h => inr (os_path_exists E h path)) in
      if found : bool then
        let! r := try_service_account path in
        match r with
        | Some working => ret (Some working)
        | None => try_service_accounts rest
        end
      else try_service_accounts rest
  end.

(** Method 3. *)
Definition try_gcloud : M (option (credentials * service)) :=
  try_except
    (let! _ := print (nl +:+ "3️⃣ Trying gcloud application-default login...") in
     let! _ := perform (System gcloud_login) VInt
                 (fun h => inr (os_system E h gcloud_login)) in
     let! creds := perform (AuthDefault None) VCreds
                     (fun h => auth_default E h None) in
     let! svc := build_admin creds in
     let! _ := probe svc in
     let! _ := print "✅ gcloud auth working!" in
     ret (Some (creds, svc)))
    (fun e =>
       let! _ := print ("❌ gcloud auth failed: " +:+ exn_str e) in
       ret None).

(** The pair a [return credentials, service] builds. *)
Definition returned (r : credentials * service) : option credentials * option service :=
  (Some (fst r), Some (snd r)).

Definition try_authentication : M (option credentials * option service) :=
  let! _ := print "🔐 Attempting Google Workspace authentication..." in
  let! adc := try_adc in
  match adc with
  | Some working => ret (returned working)
  | None =>
      let! sa := try_service_accounts service_account_paths in
      match sa with
      | Some working => ret (returned working)
      | None =>
          let! gcloud := try_gcloud in
          match gcloud with
          | Some working => ret (returned working)
          | None => ret (None, None)
          end
      end
  end.

(** [resp.get(key, [])] *)
Definition get_list (resp : response) (key : string) : list entry :=
  default [] (resp !! key).

(** The body of the loop printing one domain. *)
Definition print_domain (domain : entry) : M unit :=
  let! name := getitem domain "domainName" in
  let! verified := getitem domain "verified" in
  print ("   • " +:+ scalar_str name +:+ " (" +:+ scalar_str verified +:+ ")").

Definition test_workspace_access (svc : service) : M bool :=
  let! _ := print (nl +:+ "🧪 Testing Google Workspace access...") in
  try_except
    (let! domains := probe svc in
     let! _ := print ("✅ Found " +:+ pretty (length (get_list domains "domains"))
                      +:+ " domains:") in
     let! _ := for_each (get_list domains "domains") print_domain in
     let! users := perform (UsersList svc "my_customer" 10) VResponse
                     (fun h => users_list E h svc "my_customer" 10) in
     let! _ := print ("✅ Found " +:+ pretty (length (get_list users "users"))
                      +:+ " users (showing first 10)") in
     let! groups := perform (GroupsList svc "my_customer" 10) VResponse
                      (fun h => groups_list E h svc "my_customer" 10) in
     let! _ := print ("✅ Found " +:+ pretty (length (get_list groups "groups"))
                      +:+ " groups (showing first 10)") in
     ret true)
    (fun e =>
       let! _ := print ("❌ Workspace access test failed: " +:+ exn_str e) in
       ret false).

End Script.
End QuickAuth.

(** ** Reading a run *)

Definition raised (ev : event) : bool :=
  match ev with
  | Called _ (inl _) => true
  | _ => false
  end.

Definition group_insert_of (ev : event) : option group_body :=
  match ev with
  | Called (GroupsInsert _ body) _ => Some body
  | _ => None
  end.

Definition member_insert_of (ev : event) : option (option string * member_body) :=
  match ev with
  | Called (MembersInsert _ key body) _ => Some (key, body)
  | _ => None
  end.

Definition write_of (ev : event) : option string :=
  match ev with
  | Called (WriteFile path _) _ => Some path
  | _ => None
  end.

(** The consent flow of [InstalledAppFlow]: loading the client secret and
    running the local server that waits for the browser. *)
Definition interactive (ev : event) : bool :=
  match ev with
  | Called (FromClientSecretsFile _ _) _ => true
  | Called (RunLocalServer _) _ => true
  | _ => false
  end.

(** A list call of the Directory API, or console output: nothing that
    changes state outside the process. *)
Definition read_only (ev : event) : bool :=
  match ev with
  | Called (DomainsList _ _) _ => true
  | Called (UsersList _ _ _) _ => true
  | Called (GroupsList _ _ _) _ => true
  | Printed _ => true
  | _ => false
  end.

(** A domains-list probe that returned. *)
Definition probe_passed (ev : event) : option service :=
  match ev with
  | Called (DomainsList svc _) (inr _) => Some svc
  | _ => None
  end.

Definition group_inserts (t : list event) : list group_body := omap group_insert_of t.
Definition member_inserts (t : list event) : list (option string * member_body) :=
  omap member_insert_of t.
Definition writes (t : list event) : list string := omap write_of t.
Definition probes_passed (t : list event) : list service := omap probe_passed t.

(** The authentication methods of [try_authentication], and the event with
    which each one starts: the scoped [default()] call, the look-up of a
    key file, the shell command. *)
Inductive method :=
| ADC
| ServiceAccountKey (path : string)
| GcloudLogin.

Definition method_started (ev : event) : option method :=
  match ev with
  | Called (AuthDefault (Some _)) _ => Some ADC
  | Called (PathExists path) _ => Some (ServiceAccountKey path)
  | Called (System _) _ => Some GcloudLogin
  | _ => None
  end.

Definition attempts (t : list event) : list method := omap method_started t.

Definition documented_order (E : env) : list method :=
  ADC :: map ServiceAccountKey (QuickAuth.service_account_paths E) ++ [GcloudLogin].

(** ** Rows *)

Definition required_columns : list string :=
  ["Group Email"; "Group Name"; "Description"; "Owners"].

(** Every required column is present and holds text. *)
Definition well_formed (r : row) : Prop :=
  Forall (fun column => exists text, r !! column = Some (Some text)) required_columns.

(** The three columns read before the [try] are in the header. *)
Definition body_columns (r : row) : Prop :=
  Forall (fun column => is_Some (r !! column)) ["Group Email"; "Group Name"; "Description"].

(** The request body line 47 builds from a row. *)
Definition group_body_of (r : row) : group_body :=
  GroupBody (mjoin (r !! "Group Email")) (mjoin (r !! "Group Name"))
            (mjoin (r !! "Description")).

(** The owners a row lists, and the member insert of each. *)
Definition listed_owners (r : row) : list string :=
  match r !! "Owners" with
  | Some (Some text) => split ";" text
  | _ => []
  end.

Definition owner_calls (r : row) : list (option string * member_body) :=
  map (fun owner => (mjoin (r !! "Group Email"), MemberBody (strip owner) "OWNER"))
      (listed_owners r).

Definition error_line (r : row) (e : exn) : string :=
  "✗ Error creating " +:+ fmt (mjoin (r !! "Group Email")) +:+ ": " +:+ exn_str e.

(** ** The shape of a row of [create_groups] *)

Definition created_line (r : row) : string :=
  "✓ Created group: " +:+ fmt (mjoin (r !! "Group Email")).

Definition member_event (svc : service) (r : row) (owner : string)
    (result : exn + value) : event :=
  Called (MembersInsert svc (mjoin (r !! "Group Email")) (MemberBody (strip owner) "OWNER"))
         result.

Definition group_event (svc : service) (r : row) (result : exn + value) : event :=
  Called (GroupsInsert svc (group_body_of r)) result.

(** The inner loop: inserts that return, then either the end of the list
    or one insert that raises. *)
Inductive owners_run (svc : service) (r : row) :
    list string -> list event -> exn + unit -> Prop :=
| owners_done :
    owners_run svc r [] [] (inr tt)
| owners_next owner rest t res :
    owners_run svc r rest t res ->
    owners_run svc r (owner :: rest) (member_event svc r owner (inr VNone) :: t) res
| owners_stop owner rest e :
    owners_run svc r (owner :: rest) [member_event svc r owner (inl e)] (inl e).

(** One iteration of the outer loop that got past line 51. *)
Inductive row_run (svc : service) (r : row) : list event -> Prop :=
| row_group_failed e :
    row_run svc r [group_event svc r (inl e); Printed (error_line r e)]
| row_no_owners_column :
    r !! "Owners" = None ->
    row_run svc r [group_event svc r (inr VNone); Printed (created_line r);
                   Printed (error_line r (KeyError "Owners"))]
| row_no_owners_field :
    r !! "Owners" = Some None ->
    row_run svc r [group_event svc r (inr VNone); Printed (created_line r);
                   Printed (error_line r
                              (AttributeError "'NoneType' object has no attribute 'split'"))]
| row_owners_added text t :
    r !! "Owners" = Some (Some text) ->
    owners_run svc r (split ";" text) t (inr tt) ->
    row_run svc r (group_event svc r (inr VNone) :: Printed (created_line r) :: t)
| row_owner_failed text t e :
    r !! "Owners" = Some (Some text) ->
    owners_run svc r (split ";" text) t (inl e) ->
    row_run svc r (group_event svc r (inr VNone) :: Printed (created_line r) :: t
                     ++ [Printed (error_line r e)]).

(** No event of the list is a call that raised. *)
Definition quiet (t : list event) : Prop := Forall (fun ev => raised ev = false) t.

(** What a run of one row may contain: the insert of its group; inserts for
    a prefix of its listed owners, for all of them when no call raised, for
    none when the group insert raised; and after a call that raised nothing
    but the error line, so that the inserts stop with the first one that
    raises. *)
Definition row_served (r : row) (seg : list event) : Prop :=
  group_inserts seg = [group_body_of r] /\
  member_inserts seg `prefix_of` owner_calls r /\
  (quiet seg -> member_inserts seg = owner_calls r) /\
  (forall svc body e,
     Called (GroupsInsert svc body) (inl e) ∈ seg -> member_inserts seg = []) /\
  (forall pre c e post,
     seg = pre ++ Called c (inl e) :: post ->
     quiet pre /\ post = [Printed (error_line r e)]).

Definition csv_path : string := "groups/entity_groups.csv".

(** ** The outcome of an authentication attempt *)

(** What an attempt, or a sequence of attempts, hands back: nothing, and
    then no probe of its run passed; or a credential with the client built
    from it, and then the run ends with the first probe that passed,
    issued with that client, and the line announcing it. *)
Inductive found (t : list event) : option (credentials * service) -> Prop :=
| found_nothing :
    probes_passed t = [] ->
    found t None
| found_working c pre listing line :
    t = pre ++ [Called (DomainsList (Service "admin" "directory_v1" c) "my_customer")
                  (inr (VResponse listing));
                Printed line] ->
    probes_passed pre = [] ->
    found t (Some (c, Service "admin" "directory_v1" c)).

(** ** The shape of a run of [test_workspace_access] *)

Definition domains_line (listing : response) : string :=
  "✅ Found " +:+ pretty (length (QuickAuth.get_list listing "domains")) +:+ " domains:".

Definition users_line (listing : response) : string :=
  "✅ Found " +:+ pretty (length (QuickAuth.get_list listing "users"))
    +:+ " users (showing first 10)".

Definition groups_line (listing : response) : string :=
  "✅ Found " +:+ pretty (length (QuickAuth.get_list listing "groups"))
    +:+ " groups (showing first 10)".

Definition access_failed_line (e : exn) : string :=
  "❌ Workspace access test failed: " +:+ exn_str e.

Definition access_greeting : event :=
  Printed (nl +:+ "🧪 Testing Google Workspace access...").

(** Console output only. *)
Definition printed_only (t : list event) : Prop :=
  Forall (fun ev => exists line, ev = Printed line) t.

(** The five ways the diagnostic can go: each list call may raise, a domain
    entry may lack a key while it is printed, or everything goes through. *)
Inductive access_run (svc : service) : bool -> list event -> Prop :=
| access_domains_failed e :
    access_run svc false
      [access_greeting;
       Called (DomainsList svc "my_customer") (inl e);
       Printed (access_failed_line e)]
| access_domain_malformed domains shown key :
    printed_only shown ->
    access_run svc false
      (access_greeting
         :: Called (DomainsList svc "my_customer") (inr (VResponse domains))
         :: Printed (domains_line domains)
         :: shown ++ [Printed (access_failed_line (KeyError key))])
| access_users_failed domains shown e :
    printed_only shown ->
    access_run svc false
      (access_greeting
         :: Called (DomainsList svc "my_customer") (inr (VResponse domains))
         :: Printed (domains_line domains)
         :: shown ++ [Called (UsersList svc "my_customer" 10) (inl e);
                      Printed (access_failed_line e)])
| access_groups_failed domains shown users e :
    printed_only shown ->
    access_run svc false
      (access_greeting
         :: Called (DomainsList svc "my_customer") (inr (VResponse domains))
         :: Printed (domains_line domains)
         :: shown ++ [Called (UsersList svc "my_customer" 10) (inr (VResponse users));
                      Printed (users_line users);
                      Called (GroupsList svc "my_customer" 10) (inl e);
                      Printed (access_failed_line e)])
| access_granted domains shown users groups :
    printed_only shown ->
    access_run svc true
      (access_greeting
         :: Called (DomainsList svc "my_customer") (inr (VResponse domains))
         :: Printed (domains_line domains)
         :: shown ++ [Called (UsersList svc "my_customer" 10) (inr (VResponse users));
                      Printed (users_line users);
                      Called (GroupsList svc "my_customer" 10) (inr (VResponse groups));
                      Printed (groups_line groups)]).

(** ** Concrete environments, for running the scripts on examples *)

Module Mock.

Definition cached : credentials := Credentials (Some "ya29.cached") (Some "1//refresh") false.
Definition stale : credentials := Credentials (Some "ya29.cached") (Some "1//refresh") true.
Definition fresh : credentials := Credentials (Some "ya29.fresh") (Some "1//refresh") false.

Definition admin : service := Service "admin" "directory_v1" fresh.

Definition unavailable : exn := LibraryError "HttpError 503".

Definition answer {A} (down : call -> bool) (c : call) (a : A) : exn + A :=
  if down c then inl unavailable else inr a.

(** An environment in which the files [files] exist, the token file holds
    [tok], the CSV file holds [rows], every list call returns [listing]
    and exactly the calls selected by [down] raise. *)
Definition world (files : list string) (tok : credentials) (rows : list row)
    (listing : response) (down : call -> bool) : env := {|
  os_path_exists := fun _ path => bool_decide (path ∈ files);
  from_authorized_user_file := fun _ path scopes =>
    answer down (FromAuthorizedUserFile path scopes) tok;
  creds_refresh := fun _ c => answer down (Refresh c) fresh;
  from_client_secrets_file := fun _ path scopes =>
    answer down (FromClientSecretsFile path scopes) tt;
  run_local_server := fun _ port => answer down (RunLocalServer port) fresh;
  write_file := fun _ path content => answer down (WriteFile path content) tt;
  open_csv := fun _ path => answer down (OpenCsv path) (rows, None);
  groups_insert := fun _ svc body => answer down (GroupsInsert svc body) tt;
  members_insert := fun _ svc key body => answer down (MembersInsert svc key body) tt;
  auth_default := fun _ scopes => answer down (AuthDefault scopes) fresh;
  from_service_account_file := fun _ path scopes =>
    answer down (FromServiceAccountFile path scopes) fresh;
  build := fun _ name ver c => answer down (Build name ver c) tt;
  domains_list := fun _ svc customer => answer down (DomainsList svc customer) listing;
  users_list := fun _ svc customer n => answer down (UsersList svc customer n) listing;
  groups_list := fun _ svc customer n => answer down (GroupsList svc customer n) listing;
  os_system := fun _ _ => 0%Z;
  creds_to_json := fun c => "{" +:+ fmt (token c) +:+ "}";
  userhome := fun _ => Some "/home/admin";
|}.

Definition all_up (c : call) : bool := false.

Definition groups_down (c : call) : bool :=
  match c with GroupsInsert _ _ => true | _ => false end.

Definition members_down (c : call) : bool :=
  match c with MembersInsert _ _ _ => true | _ => false end.

Definition users_down (c : call) : bool :=
  match c with UsersList _ _ _ => true | _ => false end.

Definition probes_down (c : call) : bool :=
  match c with DomainsList _ _ => true | _ => false end.

Definition legal : row :=
  {[ "Group Email" := Some "legal@aribia.llc";
     "Group Name" := Some "Legal";
     "Description" := Some "Legal team";
     "Owners" := Some "ann@aribia.llc; bob@aribia.llc" ]}.

Definition finance : row :=
  {[ "Group Email" := Some "finance@aribia.llc";
     "Group Name" := Some "Finance";
     "Description" := Some "Finance team";
     "Owners" := Some "cy@aribia.llc" ]}.

(** A row of a file whose header has no [Group Name] column. *)
Definition nameless : row := delete "Group Name" legal.

(** A row of a file whose header has no [Owners] column. *)
Definition ownerless : row := delete "Owners" legal.

Definition domain (name : string) : entry :=
  {[ "domainName" := SStr name; "verified" := SBool true ]}.

Definition directory : response :=
  {[ "domains" := [domain "aribia.llc"];
     "users" := [domain "u1"; domain "u2"];
     "groups" := [] ]}.

(** A listing whose only domain entry carries no [verified] key. *)
Definition sparse : response :=
  {[ "domains" := [{[ "domainName" := SStr "aribia.llc" ]}] ]}.

(** A token file that holds a refresh token but no access token. *)
Definition tokenless : credentials := Credentials None (Some "1//refresh") false.

End Mock.

(** ** The entry points of the two scripts *)

(** [s * n] on a string *)
Fixpoint str_times (s : string) (n : nat) : string :=
  match n with
  | O => EmptyString
  | S n' => s +:+ str_times s n'
  end.

(** The double quote that [json.dump] puts around keys and strings. *)
Definition dquote : string := String (ascii_of_nat 34) EmptyString.

Module SetupWorkspaceMain.
Section Script.
Context (E : env).

(** [setup_collaborative_inbox]: its body is [pass]. *)
Definition setup_collaborative_inbox (group_email : string) : M unit := ret tt.

(** [build('admin', 'directory_v1', credentials=creds)] on what
    [authenticate] returned; handed [None], [build] resolves the
    Application Default Credentials itself. *)
Definition build_service (creds : option credentials) : M service :=
  match creds with
  | Some c => QuickAuth.build_admin E c
  | None =>
      let! c := perform (AuthDefault None) VCreds (fun h => auth_default E h None) in
      QuickAuth.build_admin E c
  end.

Definition main : M unit :=
  let! _ := print "Google Workspace Setup for ARIBIA LLC" in
  let! _ := print (str_times "=" 40) in
  let! creds := SetupWorkspace.authenticate E in
  let! svc := build_service creds in
  let! _ := print (nl +:+ "Creating groups...") in
  let! _ := SetupWorkspace.create_groups E svc in
  let! _ := print (nl +:+ "✓ Setup complete!") in
  let! _ := print (nl +:+ "Next steps:") in
  let! _ := print "1. Configure domain DNS records" in
  let! _ := print "2. Set up email migration" in
  let! _ := print "3. Configure SSO if needed" in
  print "4. Set up automation scripts".

End Script.
End SetupWorkspaceMain.

Module QuickAuthMain.
Section Script.
Context (E : env).

(** What [json.dump({'status': 'authenticated'}, f)] writes. *)
Definition marker : string :=
  "{" +:+ dquote +:+ "status" +:+ dquote +:+ ": "
      +:+ dquote +:+ "authenticated" +:+ dquote +:+ "}".

(** The lines printed when no method yields a credential. *)
Definition manual_steps : M unit :=
  let! _ := print (nl +:+ "❌ Could not authenticate") in
  let! _ := print (nl +:+ "Manual steps needed:") in
  let! _ := print "1. Go to: https://console.cloud.google.com" in
  let! _ := print "2. Enable Admin SDK API" in
  let! _ := print "3. Create OAuth credentials" in
  print "4. Download as credentials.json".

Definition main : M unit :=
  let! _ := print "🚀 Google Workspace Quick Authentication Test" in
  let! _ := print (str_times "=" 50) in
  let! pair := QuickAuth.try_authentication E in
  match pair with
  | (Some credentials, Some svc) =>
      let! passed := QuickAuth.test_workspace_access E svc in
      if passed : bool then
        let! _ := print (nl +:+ "✨ Authentication successful!") in
        let! _ := print "You can now run: python3 automated_google_setup.py" in
        perform (WriteFile "auth_working.json" marker) (fun _ => VNone)
          (fun h => write_file E h "auth_working.json" marker)
      else
        print (nl +:+ "❌ Authentication failed - insufficient permissions")
  | _ => manual_steps
  end.

End Script.
End QuickAuthMain.

(** ** Reading a run, continued *)

(** The cached credential being refreshed. *)
Definition refresh_of (ev : event) : option credentials :=
  match ev with
  | Called (Refresh c) _ => Some c
  | _ => None
  end.

Definition refreshes (t : list event) : list credentials := omap refresh_of t.

(** The number of occurrences of a character in a string. *)
Fixpoint count_char (c : ascii) (s : string) : nat :=
  match s with
  | EmptyString => 0
  | String x s' => (if Ascii.eqb x c then 1 else 0) + count_char c s'
  end.

(** A white-space character at the head of the bytes. *)
Definition head_space (two : ascii -> ascii -> bool)
    (three : ascii -> ascii -> ascii -> bool) (s : list ascii) : bool :=
  match s with
  | [] => false
  | c1 :: s1 =>
      isspace c1
      || match s1 with
         | [] => false
         | c2 :: s2 =>
             two c1 c2
             || match s2 with
                | [] => false
                | c3 :: _ => three c1 c2 c3
                end
         end
  end.

(** The string begins, or ends, with a white-space character. *)
Definition starts_with_space (s : string) : bool :=
  head_space isspace2 isspace3 (list_ascii_of_string s).

Definition ends_with_space (s : string) : bool :=
  head_space (fun c1 c2 => isspace2 c2 c1) (fun c1 c2 c3 => isspace3 c3 c2 c1)
    (rev (list_ascii_of_string s)).

(** What [create_groups] may issue while it works through [rows] with the
    client [svc]: the opening of the CSV file, the insert of the group of a
    row, the insert of a listed owner of a row as [OWNER], console output. *)
Definition create_groups_event (svc : service) (rows : list row) (ev : event) : Prop :=
  match ev with
  | Printed _ => True
  | Called (OpenCsv path) _ => path = csv_path
  | Called (GroupsInsert s body) _ =>
      s = svc /\ exists r, r ∈ rows /\ body = group_body_of r
  | Called (MembersInsert s key body) _ =>
      s = svc /\
      exists r owner,
        r ∈ rows /\ owner ∈ listed_owners r /\
        key = mjoin (r !! "Group Email") /\ body = MemberBody (strip owner) "OWNER"
  | Called _ _ => False
  end.

Module Sample.

(** A file whose second line lacks the [Group Name] column. *)
Definition broken_file : list row := [Mock.legal; Mock.nameless; Mock.finance].

(** A row whose [Owners] field is empty. *)
Definition unowned : row := <[ "Owners" := Some EmptyString ]> Mock.legal.

(** The world of [Mock.world] without files, over a CSV file of which the
    read that follows [rows] raises [failure]. *)
Definition torn (rows : list row) (failure : exn) (down : call -> bool) : env := {|
  os_path_exists := fun _ _ => false;
  from_authorized_user_file := fun _ path scopes =>
    Mock.answer down (FromAuthorizedUserFile path scopes) Mock.cached;
  creds_refresh := fun _ c => Mock.answer down (Refresh c) Mock.fresh;
  from_client_secrets_file := fun _ path scopes =>
    Mock.answer down (FromClientSecretsFile path scopes) tt;
  run_local_server := fun _ port => Mock.answer down (RunLocalServer port) Mock.fresh;
  write_file := fun _ path content => Mock.answer down (WriteFile path content) tt;
  open_csv := fun _ path => Mock.answer down (OpenCsv path) (rows, Some failure);
  groups_insert := fun _ svc body => Mock.answer down (GroupsInsert svc body) tt;
  members_insert := fun _ svc key body => Mock.answer down (MembersInsert svc key body) tt;
  auth_default := fun _ scopes => Mock.answer down (AuthDefault scopes) Mock.fresh;
  from_service_account_file := fun _ path scopes =>
    Mock.answer down (FromServiceAccountFile path scopes) Mock.fresh;
  build := fun _ name ver c => Mock.answer down (Build name ver c) tt;
  domains_list := fun _ svc customer =>
    Mock.answer down (DomainsList svc customer) Mock.directory;
  users_list := fun _ svc customer n =>
    Mock.answer down (UsersList svc customer n) Mock.directory;
  groups_list := fun _ svc customer n =>
    Mock.answer down (GroupsList svc customer n) Mock.directory;
  os_system := fun _ _ => 0%Z;
  creds_to_json := fun c => "{" +:+ fmt (token c) +:+ "}";
  userhome := fun _ => Some "/home/admin";
|}.

(** The token endpoint is down. *)
Definition refresh_down (c : call) : bool :=
  match c with Refresh _ => true | _ => false end.

(** No insert goes through. *)
Definition inserts_down (c : call) : bool :=
  match c with
  | GroupsInsert _ _ => true
  | MembersInsert _ _ _ => true
  | _ => false
  end.

(** A domain entry with neither [domainName] nor [verified]. *)
Definition unnamed : entry := {[ "creationTime" := SNum 0 ]}.

(** A listing whose second domain entry is [unnamed]. *)
Definition patchy : response :=
  {[ "domains" := [Mock.domain "aribia.llc"; unnamed; Mock.domain "chitty.cc"] ]}.

(** No Application Default Credentials are configured. *)
Definition adc_down (c : call) : bool :=
  match c with AuthDefault _ => true | _ => false end.

(** The token file cannot be parsed. *)
Definition load_down (c : call) : bool :=
  match c with FromAuthorizedUserFile _ _ => true | _ => false end.

(** The CSV file of the groups is missing. *)
Definition csv_down (c : call) : bool :=
  match c with OpenCsv _ => true | _ => false end.

(** The marker file cannot be written. *)
Definition marker_down (c : call) : bool :=
  match c with WriteFile "auth_working.json" _ => true | _ => false end.

End Sample.

(** What [authenticate] may issue: the look-up and the load of
    [token.json], a refresh, the consent flow on [credentials.json] with a
    local server on a free port, and the write of [token.json]. *)
Definition authenticate_event (ev : event) : Prop :=
  match ev with
  | Called (PathExists path) _ => path = "token.json"
  | Called (FromAuthorizedUserFile path scopes) _ =>
      path = "token.json" /\ scopes = SetupWorkspace.SCOPES
  | Called (Refresh _) _ => True
  | Called (FromClientSecretsFile path scopes) _ =>
      path = "credentials.json" /\ scopes = SetupWorkspace.SCOPES
  | Called (RunLocalServer port) _ => port = 0%Z
  | Called (WriteFile path _) _ => path = "token.json"
  | _ => False
  end.

(** What [try_authentication] may issue, [paths] being the key files it
    looks for: console output, [default()] with the scopes or without
    arguments, the look-up and the load of a listed key file, the build of
    the Directory client, the domains list on [my_customer] through such
    a client, and the [gcloud] login command. *)
Definition try_authentication_event (paths : list string) (ev : event) : Prop :=
  match ev with
  | Printed _ => True
  | Called (AuthDefault scopes) _ => scopes = Some QuickAuth.SCOPES \/ scopes = None
  | Called (PathExists path) _ => path ∈ paths
  | Called (FromServiceAccountFile path scopes) _ =>
      path ∈ paths /\ scopes = QuickAuth.SCOPES
  | Called (Build name ver _) _ => name = "admin" /\ ver = "directory_v1"
  | Called (DomainsList svc customer) _ =>
      customer = "my_customer" /\
      serviceName svc = "admin" /\ version svc = "directory_v1"
  | Called (System cmd) _ => cmd = QuickAuth.gcloud_login
  | Called _ _ => False
  end.

(** ** The shape of a run of the entry points *)

Definition setup_banner : list event :=
  [Printed "Google Workspace Setup for ARIBIA LLC"; Printed (str_times "=" 40)].

Definition creating_line : event := Printed (nl +:+ "Creating groups...").

Definition complete_line : event := Printed (nl +:+ "✓ Setup complete!").

Definition next_steps : list event :=
  [Printed (nl +:+ "Next steps:");
   Printed "1. Configure domain DNS records";
   Printed "2. Set up email migration";
   Printed "3. Configure SSO if needed";
   Printed "4. Set up automation scripts"].

Definition build_event (c : credentials) (result : exn + value) : event :=
  Called (Build "admin" "directory_v1" c) result.

Definition quick_banner : list event :=
  [Printed "🚀 Google Workspace Quick Authentication Test"; Printed (str_times "=" 50)].

Definition manual_lines : list event :=
  [Printed (nl +:+ "❌ Could not authenticate");
   Printed (nl +:+ "Manual steps needed:");
   Printed "1. Go to: https://console.cloud.google.com";
   Printed "2. Enable Admin SDK API";
   Printed "3. Create OAuth credentials";
   Printed "4. Download as credentials.json"].

Definition success_lines : list event :=
  [Printed (nl +:+ "✨ Authentication successful!");
   Printed "You can now run: python3 automated_google_setup.py"].

Definition insufficient_line : event :=
  Printed (nl +:+ "❌ Authentication failed - insufficient permissions").

Definition marker_write (result : exn + value) : event :=
  Called (WriteFile "auth_working.json" QuickAuthMain.marker) result.

(** An insert into the directory, of a group or of a member. *)
Definition is_insert (ev : event) : bool :=
  match ev with
  | Called (GroupsInsert _ _) _ => true
  | Called (MembersInsert _ _ _) _ => true
  | _ => false
  end.

(** The client an insert goes through. *)
Definition insert_client (ev : event) : option service :=
  match ev with
  | Called (GroupsInsert svc _) _ => Some svc
  | Called (MembersInsert svc _ _) _ => Some svc
  | _ => None
  end.

(** The opening of a CSV file. *)
Definition is_open (ev : event) : bool :=
  match ev with
  | Called (OpenCsv _) _ => true
  | _ => false
  end.

(** ** The domains printed by [test_workspace_access] *)

(** The line printed for a domain entry. *)
Definition domain_line (d : entry) : string :=
  "   • " +:+ scalar_str (default SNull (d !! "domainName"))
    +:+ " (" +:+ scalar_str (default SNull (d !! "verified")) +:+ ")".

(** The entry has the two keys the loop reads. *)
Definition domain_complete (d : entry) : Prop :=
  is_Some (d !! "domainName") /\ is_Some (d !! "verified").

(** The first key the loop misses in an entry that is not complete. *)
Definition missing_key (d : entry) : string :=
  match d !! "domainName" with
  | None => "domainName"
  | Some _ => "verified"
  end.

(** The collection a list call of the Directory API asks for. *)
Definition listing_of (ev : event) : option string :=
  match ev with
  | Called (DomainsList _ _) _ => Some "domains"
  | Called (UsersList _ _ _) _ => Some "users"
  | Called (GroupsList _ _ _) _ => Some "groups"
  | _ => None
  end.

Definition listings (t : list event) : list string := omap listing_of t.

(** ** Reading a run of [try_authentication] *)

(** A shell command. *)
Definition is_system (ev : event) : bool :=
  match ev with
  | Called (System _) _ => true
  | _ => false
  end.

(** The key file being loaded. *)
Definition key_load_of (ev : event) : option string :=
  match ev with
  | Called (FromServiceAccountFile path _) _ => Some path
  | _ => None
  end.

(** The line announcing the attempt on a key file. *)
Definition key_line (path : string) : event :=
  Printed (nl +:+ "2️⃣ Trying service account: " +:+ path).

(** Every load of a key file asks for the scopes of the script and comes
    right after the look-up that found the file and the line announcing
    the attempt. *)
Definition key_load_guarded (t : list event) : Prop :=
  forall pre path scopes result post,
    t = pre ++ Called (FromServiceAccountFile path scopes) result :: post ->
    scopes = QuickAuth.SCOPES /\
    exists pre',
      pre = pre' ++ [Called (PathExists path) (inr (VBool true)); key_line path].

(** ** The answers recorded in a run *)

(** What the environment answers to a call issued after the events [h]. *)
Definition answer_of (E : env) (h : list event) (c : call) : exn + value :=
  match c with
  | PathExists path => inr (VBool (os_path_exists E h path))
  | FromAuthorizedUserFile path scopes =>
      sum_map id VCreds (from_authorized_user_file E h path scopes)
  | Refresh creds => sum_map id VCreds (creds_refresh E h creds)
  | FromClientSecretsFile path scopes =>
      sum_map id (fun _ => VNone) (from_client_secrets_file E h path scopes)
  | RunLocalServer port => sum_map id VCreds (run_local_server E h port)
  | WriteFile path content => sum_map id (fun _ => VNone) (write_file E h path content)
  | OpenCsv path => sum_map id (fun reads => VRows (fst reads)) (open_csv E h path)
  | GroupsInsert svc body => sum_map id (fun _ => VNone) (groups_insert E h svc body)
  | MembersInsert svc key body =>
      sum_map id (fun _ => VNone) (members_insert E h svc key body)
  | AuthDefault scopes => sum_map id VCreds (auth_default E h scopes)
  | FromServiceAccountFile path scopes =>
      sum_map id VCreds (from_service_account_file E h path scopes)
  | Build name ver creds => sum_map id (fun _ => VNone) (build E h name ver creds)
  | DomainsList svc customer => sum_map id VResponse (domains_list E h svc customer)
  | UsersList svc customer n => sum_map id VResponse (users_list E h svc customer n)
  | GroupsList svc customer n => sum_map id VResponse (groups_list E h svc customer n)
  | System cmd => inr (VInt (os_system E h cmd))
  end.

(** Every call of [t], a run started after [h], carries the answer the
    environment gives at the point where it is issued. *)
Definition answered (E : env) (h t : list event) : Prop :=
  forall pre c result post,
    t = pre ++ Called c result :: post -> result = answer_of E (h ++ pre) c.

(** Every run of [m] records the answers of the environment. *)
Definition Answered {A} (E : env) (m : M A) : Prop :=
  forall h, answered E h (trace_of m h).

(** ** The shape of a run of [try_authentication] *)

Definition greeting_line : event :=
  Printed "🔐 Attempting Google Workspace authentication...".

Definition adc_line : event :=
  Printed (nl +:+ "1️⃣ Trying Application Default Credentials...").

Definition gcloud_line : event :=
  Printed (nl +:+ "3️⃣ Trying gcloud application-default login...").

Definition probe_event (c : credentials) (result : exn + value) : event :=
  Called (DomainsList (Service "admin" "directory_v1" c) "my_customer") result.

(** One authentication method, from the acquisition of the credential on:
    the acquisition, the build of the client from the credential and the
    probe through the client, each issued only when the one before it
    returned.  The method works when all three returned, and it hands back
    the credential and the client; it fails at the first of them that
    raises, and the failure is printed. *)
Inductive method_run (acquire : call) (worked failed : string) :
    option (credentials * service) -> list event -> Prop :=
| method_no_credential e :
    method_run acquire worked failed None
      [Called acquire (inl e); Printed (failed +:+ exn_str e)]
| method_no_client c e :
    method_run acquire worked failed None
      [Called acquire (inr (VCreds c)); build_event c (inl e);
       Printed (failed +:+ exn_str e)]
| method_rejected c e :
    method_run acquire worked failed None
      [Called acquire (inr (VCreds c)); build_event c (inr VNone);
       probe_event c (inl e); Printed (failed +:+ exn_str e)]
| method_worked c listing :
    method_run acquire worked failed
      (Some (c, Service "admin" "directory_v1" c))
      [Called acquire (inr (VCreds c)); build_event c (inr VNone);
       probe_event c (inr (VResponse listing)); Printed worked].

(** Application Default Credentials, with the scopes of the script. *)
Definition adc_run : option (credentials * service) -> list event -> Prop :=
  method_run (AuthDefault (Some QuickAuth.SCOPES))
    "✅ Application Default Credentials working!" "❌ ADC failed: ".

(** The key file [path], once it has been found. *)
Definition key_run (path : string) : option (credentials * service) -> list event -> Prop :=
  method_run (FromServiceAccountFile path QuickAuth.SCOPES)
    ("✅ Service account working: " +:+ path) "❌ Service account failed: ".

(** The default credentials again, after the [gcloud] login. *)
Definition gcloud_run : option (credentials * service) -> list event -> Prop :=
  method_run (AuthDefault None) "✅ gcloud auth working!" "❌ gcloud auth failed: ".

(** The loop over the key paths: each is looked for in turn; a file that
    exists is tried, and the loop ends with the first one that works. *)
Inductive keys_run : list string -> option (credentials * service) -> list event -> Prop :=
| keys_exhausted :
    keys_run [] None []
| keys_absent path rest r t :
    keys_run rest r t ->
    keys_run (path :: rest) r (Called (PathExists path) (inr (VBool false)) :: t)
| keys_failed path rest r t1 t :
    key_run path None t1 ->
    keys_run rest r t ->
    keys_run (path :: rest) r
      (Called (PathExists path) (inr (VBool true)) :: key_line path :: t1 ++ t)
| keys_worked path rest working t1 :
    key_run path (Some working) t1 ->
    keys_run (path :: rest) (Some working)
      (Called (PathExists path) (inr (VBool true)) :: key_line path :: t1).

(** The whole fallback: a method is started only when every method before
    it has failed, and nothing follows the first one that works. *)
Inductive fallback_run (paths : list string) :
    option (credentials * service) -> list event -> Prop :=
| fallback_adc working t1 :
    adc_run (Some working) t1 ->
    fallback_run paths (Some working) (greeting_line :: adc_line :: t1)
| fallback_key working t1 t2 :
    adc_run None t1 ->
    keys_run paths (Some working) t2 ->
    fallback_run paths (Some working) (greeting_line :: adc_line :: t1 ++ t2)
| fallback_gcloud r t1 t2 status t3 :
    adc_run None t1 ->
    keys_run paths None t2 ->
    gcloud_run r t3 ->
    fallback_run paths r
      (greeting_line :: adc_line :: t1 ++ t2
         ++ gcloud_line :: Called (System QuickAuth.gcloud_login) (inr (VInt status)) :: t3).

(** The pair [try_authentication] returns for an outcome. *)
Definition returned_pair (r : option (credentials * service)) :
    option credentials * option service :=
  match r with
  | Some working => QuickAuth.returned working
  | None => (None, None)
  end.

(** ** What [test_workspace_access] reports *)

(** The events up to the last domain printed, for a domains listing that
    returned [domains] with entries that are all complete. *)
Definition domains_report (svc : service) (domains : response) : list event :=
  access_greeting
    :: Called (DomainsList svc "my_customer") (inr (VResponse domains))
    :: Printed (domains_line domains)
    :: map (fun d => Printed (domain_line d)) (QuickAuth.get_list domains "domains").

Definition users_report (svc : service) (users : response) : list event :=
  [Called (UsersList svc "my_customer" 10) (inr (VResponse users));
   Printed (users_line users)].

Definition groups_report (svc : service) (groups : response) : list event :=
  [Called (GroupsList svc "my_customer" 10) (inr (VResponse groups));
   Printed (groups_line groups)].

(** ** Laws of the run monad *)

Section RunLaws.
Context {A B : Type}.

Lemma bind_raised (m : M A) (k : A -> M B) h e t :
  m h = (inl e, t) -> bind m k h = (inl e, t).
Proof. intros Hm. unfold bind. by rewrite Hm. Qed.

Lemma bind_returned (m : M A) (k : A -> M B) h a t :
  m h = (inr a, t) ->
  bind m k h = (fst (k a (h ++ t)), t ++ snd (k a (h ++ t))).
Proof. intros Hm. unfold bind. rewrite Hm. by destruct (k a (h ++ t)). Qed.

Lemma bind_ret (a : A) (k : A -> M B) h :
  bind (ret a) k h = k a (h ++ []).
Proof. unfold bind, ret. by destruct (k a (h ++ [])). Qed.

Lemma bind_raise (e : exn) (k : A -> M B) h :
  bind (raise e) k h = (inl e, []).
Proof. reflexivity. Qed.

Lemma try_returned (m : M A) (handler : exn -> M A) h a t :
  m h = (inr a, t) -> try_except m handler h = (inr a, t).
Proof. intros Hm. unfold try_except. by rewrite Hm. Qed.

Lemma try_raised (m : M A) (handler : exn -> M A) h e t :
  m h = (inl e, t) ->
  try_except m handler h =
    (fst (handler e (h ++ t)), t ++ snd (handler e (h ++ t))).
Proof. intros Hm. unfold try_except. rewrite Hm. by destruct (handler e (h ++ t)). Qed.
End RunLaws.

Lemma run_eta {A} (m : M A) h : m h = (result_of m h, trace_of m h).
Proof. unfold result_of, trace_of. by destruct (m h). Qed.

(** One iteration that completes hands the loop over to the next one. *)
Lemma for_each_next {A} (body : A -> M unit) x l h :
  result_of (body x) h = inr tt ->
  for_each (x :: l) body h =
    (result_of (for_each l body) (h ++ trace_of (body x) h),
     trace_of (body x) h ++ trace_of (for_each l body) (h ++ trace_of (body x) h)).
Proof.
  intros Hx. cbn [for_each].
  rewrite (bind_returned _ _ h tt (trace_of (body x) h)); [done|].
  by rewrite (run_eta (body x) h), Hx.
Qed.

(** One iteration that raises ends the loop. *)
Lemma for_each_raised {A} (body : A -> M unit) x l h e :
  result_of (body x) h = inl e ->
  for_each (x :: l) body h = (inl e, trace_of (body x) h).
Proof.
  intros Hx. cbn [for_each]. apply bind_raised.
  by rewrite (run_eta (body x) h), Hx.
Qed.

(** ** Runs record the answers of the environment *)

Section AnsweredLaws.
Context (E : env).

Lemma answered_nil h : answered E h [].
Proof. intros [|? ?] c result post Heq; discriminate Heq. Qed.

Lemma answered_app h t1 t2 :
  answered E h t1 -> answered E (h ++ t1) t2 -> answered E h (t1 ++ t2).
Proof.
  intros H1 H2 pre c result post Heq.
  apply app_eq_inv in Heq as [(k & -> & Hk)|(k & -> & Hk)].
  - destruct k as [|x k].
    + cbn in Hk. symmetry in Hk.
      pose proof (H2 [] c result post Hk) as Hr. by rewrite !app_nil_r in Hr.
    + cbn in Hk. injection Hk as <- ->. by apply (H1 pre c result k).
  - rewrite app_assoc. by apply (H2 k c result post).
Qed.

Lemma Answered_ret {A} (a : A) : Answered E (ret a).
Proof. intros h. apply answered_nil. Qed.

Lemma Answered_raise {A} (e : exn) : Answered E (@raise A e).
Proof. intros h. apply answered_nil. Qed.

Lemma Answered_print (line : string) : Answered E (print line).
Proof.
  intros h [|? pre] c result post Heq; [discriminate Heq|].
  injection Heq as _ Heq. by destruct pre.
Qed.

Lemma Answered_perform {A} (c : call) (inj : A -> value)
    (answer : list event -> exn + A) :
  (forall h, sum_map id inj (answer h) = answer_of E h c) ->
  Answered E (perform c inj answer).
Proof.
  intros Hanswer h [|? pre] c' result post Heq.
  - injection Heq as <- <-. by rewrite app_nil_r.
  - injection Heq as _ Heq. by destruct pre.
Qed.

Lemma Answered_bind {A B} (m : M A) (k : A -> M B) :
  Answered E m -> (forall a, Answered E (k a)) -> Answered E (bind m k).
Proof.
  intros Hm Hk h. specialize (Hm h). unfold trace_of, bind in *.
  destruct (m h) as [[e|a] t]; [done|].
  specialize (Hk a (h ++ t)). unfold trace_of in Hk.
  destruct (k a (h ++ t)) as [r t']. by apply answered_app.
Qed.

Lemma Answered_try {A} (m : M A) (handler : exn -> M A) :
  Answered E m -> (forall e, Answered E (handler e)) -> Answered E (try_except m handler).
Proof.
  intros Hm Hh h. specialize (Hm h). unfold trace_of, try_except in *.
  destruct (m h) as [[e|a] t]; [|done].
  specialize (Hh e (h ++ t)). unfold trace_of in Hh.
  destruct (handler e (h ++ t)) as [r t']. by apply answered_app.
Qed.

Lemma Answered_getitem {V} (d : gmap string V) (key : string) :
  Answered E (getitem d key).
Proof.
  unfold getitem. destruct (d !! key); [apply Answered_ret|apply Answered_raise].
Qed.

Lemma Answered_for_each {A} (l : list A) (body : A -> M unit) :
  (forall x, Answered E (body x)) -> Answered E (for_each l body).
Proof.
  intros Hbody. induction l as [|x l IH]; [apply Answered_ret|].
  cbn [for_each]. apply Answered_bind; [apply Hbody|]. by intros _.
Qed.
End AnsweredLaws.

(** The steps of a proof that a function records the answers. *)
Ltac answers :=
  repeat first
    [ apply Answered_ret
    | apply Answered_raise
    | apply Answered_print
    | apply Answered_getitem
    | apply Answered_perform; intros ?; reflexivity
    | apply Answered_bind; [|intros ?]
    | apply Answered_try; [|intros ?]
    | apply Answered_for_each; intros ?
    | match goal with
      | |- Answered _ (if ?b then _ else _) => destruct b
      | |- Answered _ (match ?x with _ => _ end) => destruct x
      end ].

Section AnsweredScripts.
Context (E : env).

Lemma authenticate_answered : Answered E (SetupWorkspace.authenticate E).
Proof. unfold SetupWorkspace.authenticate. answers. Qed.

Lemma create_group_answered svc r : Answered E (SetupWorkspace.create_group E svc r).
Proof.
  unfold SetupWorkspace.create_group, SetupWorkspace.add_owner,
    SetupWorkspace.split_owners. answers.
Qed.

Lemma create_groups_answered svc : Answered E (SetupWorkspace.create_groups E svc).
Proof.
  unfold SetupWorkspace.create_groups, SetupWorkspace.create_group,
    SetupWorkspace.add_owner, SetupWorkspace.split_owners. answers.
Qed.

Lemma try_adc_answered : Answered E (QuickAuth.try_adc E).
Proof. unfold QuickAuth.try_adc, QuickAuth.build_admin, QuickAuth.probe. answers. Qed.

Lemma try_service_account_answered path :
  Answered E (QuickAuth.try_service_account E path).
Proof.
  unfold QuickAuth.try_service_account, QuickAuth.build_admin, QuickAuth.probe.
  answers.
Qed.

Lemma try_gcloud_answered : Answered E (QuickAuth.try_gcloud E).
Proof. unfold QuickAuth.try_gcloud, QuickAuth.build_admin, QuickAuth.probe. answers. Qed.

Lemma try_service_accounts_answered paths :
  Answered E (QuickAuth.try_service_accounts E paths).
Proof.
  induction paths as [|path rest IH]; [apply Answered_ret|].
  cbn [QuickAuth.try_service_accounts].
  apply Answered_bind; [answers|]. intros [|]; [|done].
  apply Answered_bind; [apply try_service_account_answered|].
  intros [working|]; [apply Answered_ret|done].
Qed.

Lemma try_authentication_answered : Answered E (QuickAuth.try_authentication E).
Proof.
  unfold QuickAuth.try_authentication.
  apply Answered_bind; [answers|]. intros _.
  apply Answered_bind; [apply try_adc_answered|]. intros [working|]; [answers|].
  apply Answered_bind; [apply try_service_accounts_answered|].
  intros [working|]; [answers|].
  apply Answered_bind; [apply try_gcloud_answered|]. intros [working|]; answers.
Qed.

Lemma test_workspace_access_answered svc :
  Answered E (QuickAuth.test_workspace_access E svc).
Proof.
  unfold QuickAuth.test_workspace_access, QuickAuth.probe, QuickAuth.print_domain.
  answers.
Qed.
End AnsweredScripts.

(** ** Running the rows of [create_groups] *)

Section Rows.
Context (E : env) (svc : service).

Lemma add_owners_run r owners h :
  is_Some (r !! "Group Email") ->
  owners_run svc r owners
    (trace_of (for_each owners (SetupWorkspace.add_owner E svc r)) h)
    (result_of (for_each owners (SetupWorkspace.add_owner E svc r)) h).
Proof.
  intros [key Hkey]. revert h.
  induction owners as [|owner rest IH]; intros h.
  - constructor.
  - assert (Hstep : SetupWorkspace.add_owner E svc r owner h =
              (members_insert E (h ++ []) svc key (MemberBody (strip owner) "OWNER"),
               [member_event svc r owner
                  (sum_map id (fun _ => VNone)
                     (members_insert E (h ++ []) svc key (MemberBody (strip owner) "OWNER")))])).
    { unfold SetupWorkspace.add_owner, getitem, member_event. rewrite Hkey, bind_ret.
      reflexivity. }
    destruct (members_insert E (h ++ []) svc key _) as [e|[]] eqn:Hanswer.
    + unfold result_of at 1, trace_of at 1.
      rewrite (for_each_raised _ _ _ _ e) by (unfold result_of; by rewrite Hstep).
      unfold trace_of. rewrite Hstep. cbn. constructor.
    + unfold result_of at 1, trace_of at 1.
      rewrite for_each_next by (unfold result_of; by rewrite Hstep).
      cbn [fst snd]. unfold trace_of at 1 3 4. rewrite Hstep. cbn [snd app].
      constructor. apply IH.
Qed.

Lemma create_group_run r h :
  body_columns r ->
  result_of (SetupWorkspace.create_group E svc r) h = inr tt /\
  row_run svc r (trace_of (SetupWorkspace.create_group E svc r) h).
Proof.
  intros Hcols. unfold body_columns in Hcols.
  rewrite !Forall_cons in Hcols.
  destruct Hcols as ([email Hemail] & [name Hname] & [descr Hdescr] & _).
  unfold result_of, trace_of, SetupWorkspace.create_group, getitem.
  rewrite Hemail, Hname, Hdescr, !bind_ret.
  assert (Hbody : GroupBody email name descr = group_body_of r).
  { unfold group_body_of. by rewrite Hemail, Hname, Hdescr. }
  rewrite Hbody. set (h0 := ((h ++ []) ++ []) ++ []).
  assert (Hemail' : mjoin (r !! "Group Email") = email) by (by rewrite Hemail).
  destruct (groups_insert E h0 svc (group_body_of r)) as [e|[]] eqn:Hanswer.
  - erewrite try_raised.
    2:{ apply bind_raised. unfold perform. by rewrite Hanswer. }
    rewrite bind_ret. unfold print. cbn.
    split; [done|]. rewrite <- Hemail'. apply row_group_failed.
  - unfold try_except, bind, perform, print, ret, raise, SetupWorkspace.split_owners.
    rewrite Hanswer. cbn. rewrite <- Hemail'.
    destruct (r !! "Owners") as [[text|]|] eqn:Howners; cbn.
    + match goal with
      | |- context [for_each ?l ?body ?hist] =>
          pose proof (add_owners_run r l hist (ex_intro _ email Hemail)) as Hloop;
          rewrite (run_eta (for_each l body) hist)
      end.
      destruct (result_of _ _) as [e|[]]; cbn; (split; [done|]).
      * by apply (row_owner_failed svc r text _ e).
      * by apply (row_owners_added svc r text).
    + split; [done|]. by apply row_no_owners_field.
    + split; [done|]. by apply row_no_owners_column.
Qed.
End Rows.

(** ** Facts read off the shapes *)

(** When a single call of a run raised, a raised call found in the run is
    that one. *)
Lemma sole_raised_unique pre ev post pre' ev' post' :
  quiet pre' -> quiet post' -> raised ev = true ->
  pre ++ ev :: post = pre' ++ ev' :: post' ->
  pre = pre' /\ ev = ev' /\ post = post'.
Proof.
  unfold quiet. revert pre.
  induction pre' as [|x' pre' IH]; intros [|x pre] Hq' Hpost Hev Heq; cbn in Heq.
  - by inversion Heq.
  - inversion Heq; subst. rewrite Forall_app, Forall_cons in Hpost.
    destruct Hpost as (_ & Hbad & _). congruence.
  - inversion Heq; subst. inversion Hq'; subst. congruence.
  - inversion Heq; subst. inversion Hq'; subst.
    destruct (IH pre) as (-> & -> & ->); auto.
Qed.

Lemma quiet_no_raised t pre ev post :
  quiet t -> t = pre ++ ev :: post -> raised ev = false.
Proof.
  unfold quiet. intros Hq ->. rewrite Forall_app, Forall_cons in Hq. tauto.
Qed.

Section RowFacts.
Context (E : env) (svc : service).

Lemma owners_run_members r owners t res :
  owners_run svc r owners t res ->
  Forall (fun ev => exists owner result,
            ev = Called (MembersInsert svc (mjoin (r !! "Group Email"))
                           (MemberBody (strip owner) "OWNER")) result) t.
Proof.
  induction 1; constructor; eauto.
Qed.

Lemma owners_run_prefix r owners t res :
  owners_run svc r owners t res ->
  member_inserts t `prefix_of`
    map (fun owner => (mjoin (r !! "Group Email"), MemberBody (strip owner) "OWNER")) owners.
Proof.
  induction 1; cbn.
  - done.
  - by apply prefix_cons.
  - apply prefix_cons, prefix_nil.
Qed.

Lemma owners_run_complete r owners t :
  owners_run svc r owners t (inr tt) ->
  quiet t /\
  member_inserts t =
    map (fun owner => (mjoin (r !! "Group Email"), MemberBody (strip owner) "OWNER")) owners.
Proof.
  remember (inr tt) as res eqn:Hres. unfold quiet.
  induction 1; cbn; try discriminate.
  - done.
  - destruct IHowners_run as [Hq Hm]; [done|]. split; [by constructor|].
    unfold member_inserts in Hm. by rewrite Hm.
Qed.

Lemma owners_run_failed r owners t e :
  owners_run svc r owners t (inl e) ->
  exists pre owner,
    t = pre ++ [Called (MembersInsert svc (mjoin (r !! "Group Email"))
                      (MemberBody (strip owner) "OWNER")) (inl e)] /\
    quiet pre.
Proof.
  remember (inl e) as res eqn:Hres. unfold quiet.
  induction 1; try discriminate.
  - destruct IHowners_run as (pre & o & -> & Hq); [done|].
    exists (Called (MembersInsert svc (mjoin (r !! "Group Email"))
                      (MemberBody (strip owner) "OWNER")) (inr VNone) :: pre), o.
    split; [done|]. by constructor.
  - inversion Hres; subst. by exists [], owner.
Qed.

Lemma members_no_group_insert (t : list event) :
  Forall (fun ev => exists s key body result,
            ev = Called (MembersInsert s key body) result) t ->
  group_inserts t = [].
Proof.
  induction 1 as [|ev t (s & key & body & result & ->) _ IH]; [done|].
  apply IH.
Qed.

Lemma owners_run_no_group_insert r owners t res :
  owners_run svc r owners t res -> group_inserts t = [].
Proof.
  intros H. apply members_no_group_insert.
  eapply Forall_impl; [by eapply owners_run_members|].
  intros ev (o & result & ->). eauto.
Qed.

(** Every row that gets past line 51 issues exactly one group insert. *)
Lemma row_run_group_inserts r seg :
  row_run svc r seg -> group_inserts seg = [group_body_of r].
Proof.
  destruct 1 as [e| | |text t Ho Hrun|text t e Ho Hrun]; try done.
  - cbn. f_equal. by eapply owners_run_no_group_insert.
  - cbn. f_equal. unfold group_inserts. rewrite omap_app. cbn.
    rewrite app_nil_r. by eapply owners_run_no_group_insert.
Qed.

(** Its member inserts are a prefix of the calls for the owners listed. *)
Lemma row_run_member_prefix r seg :
  row_run svc r seg -> member_inserts seg `prefix_of` owner_calls r.
Proof.
  destruct 1 as [e| | |text t Ho Hrun|text t e Ho Hrun];
    try (cbn; apply prefix_nil).
  - cbn. unfold owner_calls, listed_owners. rewrite Ho.
    by eapply owners_run_prefix.
  - cbn. unfold member_inserts. rewrite omap_app. cbn. rewrite app_nil_r.
    unfold owner_calls, listed_owners. rewrite Ho.
    by eapply owners_run_prefix.
Qed.

(** A row either runs without a raising call, or its first raising call is
    an insert followed by the error line and nothing else. *)
Lemma row_run_raised r seg :
  row_run svc r seg ->
  quiet seg \/
  exists pre c e,
    seg = pre ++ [Called c (inl e); Printed (error_line r e)] /\
    quiet pre /\
    (c = GroupsInsert svc (group_body_of r) /\ pre = [] \/
     exists owner rest,
       c = MembersInsert svc (mjoin (r !! "Group Email"))
             (MemberBody (strip owner) "OWNER") /\
       pre = Called (GroupsInsert svc (group_body_of r)) (inr VNone) :: rest).
Proof.
  destruct 1 as [e| | |text t Ho Hrun|text t e Ho Hrun].
  - right. exists [], (GroupsInsert svc (group_body_of r)), e.
    split; [done|]. split; [constructor|]. by left.
  - left. by repeat constructor.
  - left. by repeat constructor.
  - left. apply owners_run_complete in Hrun as [Hq _].
    unfold quiet in *. by repeat constructor.
  - right. apply owners_run_failed in Hrun as (pre & owner & -> & Hq).
    eexists (_ :: _ :: pre), _, e. split.
    { cbn. by rewrite <- app_assoc. }
    split; [unfold quiet in *; by repeat constructor|]. right. eauto.
Qed.

(** When no call raised, every listed owner got its insert. *)
Lemma row_run_quiet_members r seg :
  row_run svc r seg -> quiet seg -> member_inserts seg = owner_calls r.
Proof.
  unfold quiet. destruct 1 as [e| | |text t Ho Hrun|text t e Ho Hrun]; intros Hq.
  - inversion Hq; subst. discriminate.
  - unfold owner_calls, listed_owners. by rewrite H.
  - unfold owner_calls, listed_owners. by rewrite H.
  - unfold owner_calls, listed_owners. rewrite Ho.
    by apply owners_run_complete in Hrun as [_ <-].
  - apply owners_run_failed in Hrun as (pre & owner & -> & _).
    rewrite !Forall_cons, !Forall_app, !Forall_cons in Hq.
    destruct Hq as (_ & _ & (_ & Hbad & _) & _). discriminate.
Qed.
End RowFacts.

(** A call of a row that raised is an insert, it is the only one, and the
    error line is all that follows it. *)
Lemma row_run_raising_call svc r seg pre c e post :
  row_run svc r seg ->
  seg = pre ++ Called c (inl e) :: post ->
  exists pre',
    seg = pre' ++ [Called c (inl e); Printed (error_line r e)] /\
    pre = pre' /\ post = [Printed (error_line r e)] /\ quiet pre /\
    (c = GroupsInsert svc (group_body_of r) /\ pre = [] \/
     exists owner before,
       c = MembersInsert svc (mjoin (r !! "Group Email"))
             (MemberBody (strip owner) "OWNER") /\
       pre = Called (GroupsInsert svc (group_body_of r)) (inr VNone) :: before).
Proof.
  intros Hrun Hseg.
  destruct (row_run_raised svc r seg Hrun)
    as [Hq|(pre' & c' & e' & Hseg' & Hq & Hkind)].
  - pose proof (quiet_no_raised _ _ _ _ Hq Hseg). discriminate.
  - rewrite Hseg in Hseg'.
    destruct (sole_raised_unique pre (Called c (inl e)) post
                pre' (Called c' (inl e')) [Printed (error_line r e')])
      as (-> & Hev & ->); try done.
    { by repeat constructor. }
    inversion Hev; subst. exists pre'. done.
Qed.

(** ** The loop of [create_groups] *)

Section CreateGroups.
Context (E : env) (svc : service).

(** Line 47 either finds its three columns or raises [KeyError] before
    anything has been called or printed. *)
Lemma create_group_cases r :
  body_columns r \/
  exists column,
    column ∈ ["Group Email"; "Group Name"; "Description"] /\
    r !! column = None /\
    forall h, SetupWorkspace.create_group E svc r h = (inl (KeyError column), []).
Proof.
  unfold body_columns.
  destruct (r !! "Group Email") as [email|] eqn:Hemail.
  2:{ right. exists "Group Email". split; [set_solver|]. split; [done|].
      intros h. unfold SetupWorkspace.create_group, getitem. by rewrite Hemail. }
  destruct (r !! "Group Name") as [name|] eqn:Hname.
  2:{ right. exists "Group Name". split; [set_solver|]. split; [done|].
      intros h. unfold SetupWorkspace.create_group, getitem.
      by rewrite Hemail, Hname, bind_ret. }
  destruct (r !! "Description") as [descr|] eqn:Hdescr.
  2:{ right. exists "Description". split; [set_solver|]. split; [done|].
      intros h. unfold SetupWorkspace.create_group, getitem.
      by rewrite Hemail, Hname, Hdescr, !bind_ret. }
  left. rewrite !Forall_cons, Hemail, Hname, Hdescr. eauto 10.
Qed.

Lemma well_formed_body_columns r : well_formed r -> body_columns r.
Proof.
  unfold well_formed, body_columns, required_columns.
  rewrite !Forall_cons. intros ([? ->] & [? ->] & [? ->] & _). eauto 10.
Qed.

(** A row that got past line 51 never stops the loop. *)
Lemma create_groups_next r rest h :
  body_columns r ->
  for_each (r :: rest) (SetupWorkspace.create_group E svc) h =
    (result_of (for_each rest (SetupWorkspace.create_group E svc))
       (h ++ trace_of (SetupWorkspace.create_group E svc r) h),
     trace_of (SetupWorkspace.create_group E svc r) h
       ++ trace_of (for_each rest (SetupWorkspace.create_group E svc))
            (h ++ trace_of (SetupWorkspace.create_group E svc r) h)).
Proof.
  intros Hcols. apply for_each_next. by apply create_group_run.
Qed.

(** The run of the loop is the concatenation of the runs of its rows. *)
Lemma create_groups_segments rows h :
  Forall body_columns rows ->
  exists segs,
    for_each rows (SetupWorkspace.create_group E svc) h = (inr tt, concat segs) /\
    Forall2 (row_run svc) rows segs.
Proof.
  intros Hrows. revert h.
  induction Hrows as [|r rest Hr _ IH]; intros h.
  - by exists [].
  - rewrite create_groups_next by done.
    set (seg := trace_of (SetupWorkspace.create_group E svc r) h).
    destruct (IH (h ++ seg)) as (segs & Hrun & Hsegs).
    exists (seg :: segs).
    rewrite (run_eta (for_each rest _) (h ++ seg)) in Hrun.
    inversion Hrun as [[Hres Htrace]]. rewrite Hres, Htrace.
    split; [done|]. constructor; [|done].
    by apply create_group_run.
Qed.

Lemma row_run_served r seg : row_run svc r seg -> row_served r seg.
Proof.
  intros Hrun.
  assert (Hraised : forall pre c e post,
            seg = pre ++ Called c (inl e) :: post ->
            quiet pre /\ post = [Printed (error_line r e)]).
  { intros pre c e post Hseg.
    destruct (row_run_raising_call svc r seg pre c e post Hrun Hseg)
      as (_ & _ & _ & Hpost & Hq & _). done. }
  split; [by eapply row_run_group_inserts|].
  split; [by eapply row_run_member_prefix|].
  split; [by eapply row_run_quiet_members|].
  split; [|exact Hraised].
  intros s body e Hin.
  destruct Hrun as [e'| | |text t Ho Hrun|text t e' Ho Hrun]; try done.
  - apply owners_run_members in Hrun.
    rewrite !elem_of_cons in Hin. destruct Hin as [Hin|[Hin|Hin]]; try done.
    rewrite Forall_forall in Hrun.
    destruct (Hrun _ Hin) as (? & ? & ?). done.
  - apply owners_run_members in Hrun.
    rewrite !elem_of_cons, elem_of_app, list_elem_of_singleton in Hin.
    destruct Hin as [Hin|[Hin|[Hin|Hin]]]; try done.
    rewrite Forall_forall in Hrun.
    destruct (Hrun _ Hin) as (? & ? & ?). done.
Qed.

Lemma served_group_inserts rows segs :
  Forall2 row_served rows segs ->
  group_inserts (concat segs) = map group_body_of rows.
Proof.
  induction 1 as [|r seg rows segs (Hg & _) _ IH]; [done|].
  cbn. unfold group_inserts in *. by rewrite omap_app, Hg, IH.
Qed.

Lemma served_quiet_members rows segs :
  Forall2 row_served rows segs -> quiet (concat segs) ->
  member_inserts (concat segs) = flat_map owner_calls rows.
Proof.
  unfold quiet.
  induction 1 as [|r seg rows segs (_ & _ & Hm & _) _ IH]; [done|].
  cbn. rewrite Forall_app. intros [Hq Hqs].
  unfold member_inserts in *. by rewrite omap_app, (Hm Hq), (IH Hqs).
Qed.
End CreateGroups.

(** ** [create_groups]: what is attempted for a file of well-formed rows *)

(** C1, as the specification states it, does not hold: with one well-formed
    row listing two owners and a group insert that raises, the group insert
    is attempted but no member insert is, so the number of member inserts is
    not the number of listed owners. *)
Lemma one_member_insert_per_owner_fails :
  ~ (forall (E : env) (svc : service) (h : list event) (rows : list row),
       open_csv E h csv_path = inr (rows, None) ->
       Forall well_formed rows ->
       let t := trace_of (SetupWorkspace.create_groups E svc) h in
       length (group_inserts t) = length rows /\
       length (member_inserts t) = length (flat_map listed_owners rows)).
Proof.
  intros Hclaim.
  specialize (Hclaim
    (Mock.world [] Mock.cached [Mock.legal] Mock.directory Mock.groups_down)
    Mock.admin [] [Mock.legal] eq_refl).
  destruct Hclaim as [_ Hmembers].
  - repeat constructor; eexists; vm_compute; reflexivity.
  - vm_compute in Hmembers. discriminate.
Qed.

(** C1, amended: for a file whose rows, [rows], are well-formed,
    [create_groups] attempts exactly one group insert per row, in order,
    whatever the remote calls answer, and it completes when the file was
    read to its end ([failure] is [None]; the exception of a read that
    fails after [rows] is raised once they are served).  The run is the
    opening of the file followed by the runs of the rows, each of the shape
    [row_run]: the group insert; when it returned, the line reporting it and
    the member inserts of the listed owners in order, up to and including
    the first one that raises; and the error line when a call raised.  So
    the member inserts of a row are attempted for a prefix of its listed
    owners: for none when its group insert raised, up to and including the
    first member insert that raises, for every listed owner, once each, when
    none of its calls raised.  Every call of the run carries the answer the
    environment gave. *)
Theorem create_groups_attempts (E : env) (svc : service) (h : list event)
    (rows : list row) (failure : option exn) :
  open_csv E h csv_path = inr (rows, failure) ->
  Forall well_formed rows ->
  result_of (SetupWorkspace.create_groups E svc) h
    = match failure with Some e => inl e | None => inr tt end /\
  group_inserts (trace_of (SetupWorkspace.create_groups E svc) h)
    = map group_body_of rows /\
  length (group_inserts (trace_of (SetupWorkspace.create_groups E svc) h))
    = length rows /\
  (exists segs,
     trace_of (SetupWorkspace.create_groups E svc) h
       = Called (OpenCsv csv_path) (inr (VRows rows)) :: concat segs /\
     Forall2 (row_run svc) rows segs /\
     Forall2 row_served rows segs) /\
  (quiet (trace_of (SetupWorkspace.create_groups E svc) h) ->
   member_inserts (trace_of (SetupWorkspace.create_groups E svc) h)
     = flat_map owner_calls rows) /\
  answered E h (trace_of (SetupWorkspace.create_groups E svc) h).
Proof.
  intros Hopen Hrows.
  assert (Hcols : Forall body_columns rows).
  { eapply Forall_impl; [exact Hrows|]. apply well_formed_body_columns. }
  destruct (create_groups_segments E svc rows
              (h ++ [Called (OpenCsv csv_path) (inr (VRows rows))]) Hcols)
    as (segs & Hloop & Hsegs).
  assert (Hserved : Forall2 row_served rows segs).
  { eapply Forall2_impl; [exact Hsegs|]. apply row_run_served. }
  assert (Hrun : SetupWorkspace.create_groups E svc h =
                 (match failure with Some e => inl e | None => inr tt end,
                  Called (OpenCsv csv_path) (inr (VRows rows)) :: concat segs)).
  { unfold SetupWorkspace.create_groups, bind, perform.
    fold csv_path. rewrite Hopen. cbn [sum_map id fst snd]. rewrite Hloop.
    destruct failure; cbn; by rewrite app_nil_r. }
  unfold result_of, trace_of. rewrite Hrun. cbn [fst snd].
  assert (Hgroups : group_inserts (Called (OpenCsv csv_path) (inr (VRows rows)) :: concat segs)
                    = map group_body_of rows).
  { change (group_inserts (concat segs) = map group_body_of rows).
    by apply served_group_inserts. }
  split; [done|]. split; [done|].
  split; [by rewrite Hgroups, length_map|].
  split; [eauto|].
  split.
  - intros Hq. unfold quiet in Hq. inversion Hq; subst.
    change (member_inserts (concat segs) = flat_map owner_calls rows).
    by apply served_quiet_members.
  - pose proof (create_groups_answered E svc h) as Hanswered.
    unfold trace_of in Hanswered. by rewrite Hrun in Hanswered.
Qed.

Lemma create_groups_attempts_witness :
  result_of (SetupWorkspace.create_groups
               (Mock.world [] Mock.cached [Mock.legal; Mock.finance] Mock.directory
                  Mock.members_down) Mock.admin) [] = inr tt /\
  length (group_inserts
            (trace_of (SetupWorkspace.create_groups
                         (Mock.world [] Mock.cached [Mock.legal; Mock.finance]
                            Mock.directory Mock.members_down) Mock.admin) []))
    = 2.
Proof.
  pose proof (create_groups_attempts
                (Mock.world [] Mock.cached [Mock.legal; Mock.finance] Mock.directory
                   Mock.members_down) Mock.admin [] [Mock.legal; Mock.finance] None
                eq_refl) as H.
  destruct H as (Hres & _ & Hlen & _).
  - repeat constructor; eexists; vm_compute; reflexivity.
  - split; [exact Hres | exact Hlen].
Defined.

(** ** [create_groups]: rows that lack a column *)

(** C2, as the specification states it, does not hold: when the first row
    comes from a file without a [Group Name] column, [create_groups] raises
    [KeyError] and the well-formed row after it is never processed. *)
Lemma missing_column_stops_the_loop :
  ~ (forall (E : env) (svc : service) (h : list event) (r : row) (rest : list row),
       open_csv E h csv_path = inr (r :: rest, None) ->
       (exists column, column ∈ required_columns /\ r !! column = None) ->
       Forall well_formed rest ->
       result_of (SetupWorkspace.create_groups E svc) h = inr tt /\
       map group_body_of rest
         `suffix_of` group_inserts (trace_of (SetupWorkspace.create_groups E svc) h)).
Proof.
  intros Hclaim.
  specialize (Hclaim
    (Mock.world [] Mock.cached [Mock.nameless; Mock.finance] Mock.directory Mock.all_up)
    Mock.admin [] Mock.nameless [Mock.finance] eq_refl).
  destruct Hclaim as [Hres _].
  - exists "Group Name". split; [unfold required_columns; set_solver|].
    vm_compute. reflexivity.
  - repeat constructor; eexists; vm_compute; reflexivity.
  - vm_compute in Hres. discriminate.
Qed.

(** C2, amended: a row in which [Owners] is missing (no such column, or no
    field on a short line) while the three other columns are present has its
    group insert attempted, raises inside the [try], has the error caught
    and printed, gets no member insert, and the loop goes on with the rows
    after it.  A row without the [Group Email], [Group Name] or
    [Description] column raises [KeyError] before the [try]: nothing is
    called or printed for it and the loop ends there with that exception. *)
Theorem row_missing_column (E : env) (svc : service) (h : list event)
    (r : row) (rest : list row) :
  (body_columns r ->
   r !! "Owners" = None \/ r !! "Owners" = Some None ->
   result_of (SetupWorkspace.create_group E svc r) h = inr tt /\
   (exists e,
      last (trace_of (SetupWorkspace.create_group E svc r) h)
        = Some (Printed (error_line r e))) /\
   group_inserts (trace_of (SetupWorkspace.create_group E svc r) h) = [group_body_of r] /\
   member_inserts (trace_of (SetupWorkspace.create_group E svc r) h) = [] /\
   for_each (r :: rest) (SetupWorkspace.create_group E svc) h =
     (result_of (for_each rest (SetupWorkspace.create_group E svc))
        (h ++ trace_of (SetupWorkspace.create_group E svc r) h),
      trace_of (SetupWorkspace.create_group E svc r) h
        ++ trace_of (for_each rest (SetupWorkspace.create_group E svc))
             (h ++ trace_of (SetupWorkspace.create_group E svc r) h)))
  /\
  (~ body_columns r ->
   exists column,
     column ∈ ["Group Email"; "Group Name"; "Description"] /\
     r !! column = None /\
     SetupWorkspace.create_group E svc r h = (inl (KeyError column), []) /\
     for_each (r :: rest) (SetupWorkspace.create_group E svc) h
       = (inl (KeyError column), [])).
Proof.
  split.
  - intros Hcols Howners.
    destruct (create_group_run E svc r h Hcols) as [Hres Hrun].
    split; [done|].
    split.
    { destruct Hrun as [e| | |text t Ho Hrun|text t e Ho Hrun]; eauto.
      - destruct Howners; congruence.
      - destruct Howners; congruence. }
    split; [by eapply row_run_group_inserts|].
    split; [|by apply create_groups_next].
    destruct Hrun as [e| | |text t Ho Hrun|text t e Ho Hrun]; try done;
      destruct Howners; congruence.
  - intros Hnot.
    destruct (create_group_cases E svc r) as [Hcols|(column & Hin & Hnone & Hrun)];
      [done|].
    exists column. repeat split; try done.
    rewrite (for_each_raised _ _ _ _ (KeyError column)).
    + unfold trace_of. by rewrite Hrun.
    + unfold result_of. by rewrite Hrun.
Qed.

Lemma row_missing_column_witness :
  result_of (SetupWorkspace.create_group
               (Mock.world [] Mock.cached [] Mock.directory Mock.all_up)
               Mock.admin Mock.ownerless) [] = inr tt /\
  member_inserts
    (trace_of (SetupWorkspace.create_group
                 (Mock.world [] Mock.cached [] Mock.directory Mock.all_up)
                 Mock.admin Mock.ownerless) []) = [] /\
  exists column,
    SetupWorkspace.create_group
      (Mock.world [] Mock.cached [] Mock.directory Mock.all_up)
      Mock.admin Mock.nameless [] = (inl (KeyError column), []).
Proof.
  pose proof (row_missing_column
                (Mock.world [] Mock.cached [] Mock.directory Mock.all_up)
                Mock.admin [] Mock.ownerless [Mock.finance]) as [Hcaught _].
  pose proof (row_missing_column
                (Mock.world [] Mock.cached [] Mock.directory Mock.all_up)
                Mock.admin [] Mock.nameless [Mock.finance]) as [_ Habort].
  destruct Hcaught as (Hres & _ & _ & Hmembers & _).
  - repeat constructor; eexists; vm_compute; reflexivity.
  - left. vm_compute. reflexivity.
  - destruct Habort as (column & _ & _ & Hrun & _).
    + unfold body_columns. rewrite !Forall_cons.
      intros (_ & [name Hname] & _). vm_compute in Hname. discriminate.
    + split; [exact Hres|]. split; [exact Hmembers|]. by exists column.
Defined.

(** ** [create_groups]: failures of the remote calls *)

(** C6: whenever an insert issued for a row raises, [create_group] still
    returns normally (the exception is caught); the raising call is followed
    by the error line naming the row and the exception and by nothing else,
    so no call of the row is issued again; every call before it returned;
    and the loop goes on with the next row. *)
Theorem insert_failure_isolated (E : env) (svc : service) (h : list event)
    (r : row) (rest : list row) (pre post : list event) (c : call) (e : exn) :
  trace_of (SetupWorkspace.create_group E svc r) h = pre ++ Called c (inl e) :: post ->
  result_of (SetupWorkspace.create_group E svc r) h = inr tt /\
  post = [Printed (error_line r e)] /\
  quiet pre /\
  ((exists body, c = GroupsInsert svc body) \/
   (exists key body, c = MembersInsert svc key body)) /\
  for_each (r :: rest) (SetupWorkspace.create_group E svc) h =
    (result_of (for_each rest (SetupWorkspace.create_group E svc))
       (h ++ trace_of (SetupWorkspace.create_group E svc r) h),
     trace_of (SetupWorkspace.create_group E svc r) h
       ++ trace_of (for_each rest (SetupWorkspace.create_group E svc))
            (h ++ trace_of (SetupWorkspace.create_group E svc r) h)).
Proof.
  intros Hseg.
  destruct (create_group_cases E svc r) as [Hcols|(column & _ & _ & Hrun)].
  2:{ unfold trace_of in Hseg. rewrite Hrun in Hseg. by destruct pre. }
  destruct (create_group_run E svc r h Hcols) as [Hres Hrun].
  destruct (row_run_raising_call svc r _ pre c e post Hrun Hseg)
    as (pre' & _ & _ & Hpost & Hq & Hkind).
  split; [done|]. split; [done|]. split; [done|].
  split; [|by apply create_groups_next].
  destruct Hkind as [[-> _]|(owner & before & -> & _)]; eauto.
Qed.

Lemma insert_failure_isolated_witness :
  result_of (SetupWorkspace.create_group
               (Mock.world [] Mock.cached [] Mock.directory Mock.members_down)
               Mock.admin Mock.finance) [] = inr tt.
Proof.
  eapply (insert_failure_isolated
            (Mock.world [] Mock.cached [] Mock.directory Mock.members_down)
            Mock.admin [] Mock.finance []
            [Called (GroupsInsert Mock.admin (group_body_of Mock.finance)) (inr VNone);
             Printed (created_line Mock.finance)]
            [Printed (error_line Mock.finance Mock.unavailable)]
            (MembersInsert Mock.admin (Some "finance@aribia.llc")
               (MemberBody "cy@aribia.llc" "OWNER"))
            Mock.unavailable).
  vm_compute. reflexivity.
Defined.

(** C9: in the run of a row, a member insert is issued only after the
    row's group insert has returned; when the group insert raises the row
    has no member insert at all; and after a member insert that raises no
    further member insert follows. *)
Theorem members_follow_group (E : env) (svc : service) (h : list event) (r : row) :
  (forall pre s key body result post,
     trace_of (SetupWorkspace.create_group E svc r) h
       = pre ++ Called (MembersInsert s key body) result :: post ->
     Called (GroupsInsert svc (group_body_of r)) (inr VNone) ∈ pre) /\
  (forall s body e,
     Called (GroupsInsert s body) (inl e) ∈ trace_of (SetupWorkspace.create_group E svc r) h ->
     member_inserts (trace_of (SetupWorkspace.create_group E svc r) h) = []) /\
  (forall pre s key body e post,
     trace_of (SetupWorkspace.create_group E svc r) h
       = pre ++ Called (MembersInsert s key body) (inl e) :: post ->
     member_inserts post = []).
Proof.
  destruct (create_group_cases E svc r) as [Hcols|(column & _ & _ & Hrun)].
  2:{ unfold trace_of. rewrite Hrun. cbn. repeat split.
      - intros [|? ?] *; discriminate.
      - intros [|? ?] *; discriminate. }
  destruct (create_group_run E svc r h Hcols) as [_ Hrun].
  set (seg := trace_of (SetupWorkspace.create_group E svc r) h) in *.
  repeat split.
  - intros pre s key body result post Hseg.
    destruct Hrun as [e'| | |text t Ho Hrun|text t e' Ho Hrun];
      destruct pre as [|x1 [|x2 pre]]; cbn in Hseg; try discriminate;
      inversion Hseg; subst; try discriminate;
      try (destruct pre; discriminate);
      unfold group_event; set_solver.
  - intros s body e Hin.
    apply (row_run_served svc) in Hrun as (_ & _ & _ & Hnone & _). eauto.
  - intros pre s key body e post Hseg.
    destruct (row_run_raising_call svc r _ pre _ e post Hrun Hseg)
      as (_ & _ & _ & -> & _). done.
Qed.

(** ** [authenticate] *)

Ltac run_authenticate :=
  unfold SetupWorkspace.authenticate, bind, perform, ret, raise; cbn.

(** With a valid cached credential the run is the two reads. *)
Lemma authenticate_cached_run (E : env) (h : list event) (c : credentials) :
  os_path_exists E h "token.json" = true ->
  from_authorized_user_file E
    (h ++ [Called (PathExists "token.json") (inr (VBool true))])
    "token.json" SetupWorkspace.SCOPES = inr c ->
  valid c = true ->
  SetupWorkspace.authenticate E h =
    (inr (Some c),
     [Called (PathExists "token.json") (inr (VBool true));
      Called (FromAuthorizedUserFile "token.json" SetupWorkspace.SCOPES) (inr (VCreds c))]).
Proof.
  intros Hexists Hload Hvalid.
  run_authenticate. rewrite Hexists. cbn. rewrite Hload. cbn.
  unfold SetupWorkspace.needs_login. rewrite Hvalid. reflexivity.
Qed.

(** C5: when the token file exists and the credential loaded from it is
    valid, [authenticate] returns that credential after the two reads; the
    consent flow is not started, nothing is refreshed and nothing written. *)
Theorem valid_token_no_prompt (E : env) (h : list event) (c : credentials) :
  os_path_exists E h "token.json" = true ->
  from_authorized_user_file E
    (h ++ [Called (PathExists "token.json") (inr (VBool true))])
    "token.json" SetupWorkspace.SCOPES = inr c ->
  valid c = true ->
  SetupWorkspace.authenticate E h =
    (inr (Some c),
     [Called (PathExists "token.json") (inr (VBool true));
      Called (FromAuthorizedUserFile "token.json" SetupWorkspace.SCOPES) (inr (VCreds c))]) /\
  Forall (fun ev => interactive ev = false)
    (trace_of (SetupWorkspace.authenticate E) h).
Proof.
  intros Hexists Hload Hvalid.
  pose proof (authenticate_cached_run E h c Hexists Hload Hvalid) as Hrun.
  split; [exact Hrun|].
  unfold trace_of. rewrite Hrun. by repeat constructor.
Qed.

(** C4: when the token file exists and the credential loaded from it is
    expired and carries a refresh token, the first thing [authenticate] does
    with it is the refresh call, and the run starts no consent flow, neither
    before the refresh nor after it. *)
Theorem refresh_before_login (E : env) (h : list event) (c : credentials) :
  os_path_exists E h "token.json" = true ->
  from_authorized_user_file E
    (h ++ [Called (PathExists "token.json") (inr (VBool true))])
    "token.json" SetupWorkspace.SCOPES = inr c ->
  expired c = true ->
  truthy (refresh_token c) = true ->
  (exists result post,
     trace_of (SetupWorkspace.authenticate E) h =
       [Called (PathExists "token.json") (inr (VBool true));
        Called (FromAuthorizedUserFile "token.json" SetupWorkspace.SCOPES) (inr (VCreds c));
        Called (Refresh c) result] ++ post) /\
  Forall (fun ev => interactive ev = false)
    (trace_of (SetupWorkspace.authenticate E) h).
Proof.
  intros Hexists Hload Hexpired Hrefresh.
  assert (Hinvalid : valid c = false).
  { unfold valid. rewrite Hexpired. by destruct (token c). }
  unfold trace_of. run_authenticate. rewrite Hexists. cbn. rewrite Hload. cbn.
  unfold SetupWorkspace.needs_login, SetupWorkspace.can_refresh.
  rewrite Hinvalid, Hexpired, Hrefresh. cbn.
  destruct (creds_refresh E _ c) as [e|c'] eqn:Hanswer; cbn.
  - split; [by eexists _, []|]. by repeat constructor.
  - destruct (write_file E _ "token.json" _) as [e|[]]; cbn;
      (split; [by eexists _, [_]|]); by repeat constructor.
Qed.

Lemma refresh_before_login_witness :
  Forall (fun ev => interactive ev = false)
    (trace_of (SetupWorkspace.authenticate
                 (Mock.world ["token.json"] Mock.stale [] Mock.directory Mock.all_up)) []).
Proof.
  eapply (refresh_before_login
            (Mock.world ["token.json"] Mock.stale [] Mock.directory Mock.all_up)
            [] Mock.stale); reflexivity.
Defined.

Lemma valid_token_no_prompt_witness :
  Forall (fun ev => interactive ev = false)
    (trace_of (SetupWorkspace.authenticate
                 (Mock.world ["token.json"] Mock.cached [] Mock.directory Mock.all_up)) []).
Proof.
  eapply (valid_token_no_prompt
            (Mock.world ["token.json"] Mock.cached [] Mock.directory Mock.all_up)
            [] Mock.cached); reflexivity.
Defined.

(** Case analysis on the next answer the run depends on. *)
Ltac branch :=
  match goal with
  | |- context [match ?x with _ => _ end] =>
      lazymatch x with
      | context [match _ with _ => _ end] => fail
      | _ => destruct x eqn:?
      end
  end.

(** Every file [authenticate] writes is the token file. *)
Lemma authenticate_writes (E : env) (h : list event) (path : string) :
  path ∈ writes (trace_of (SetupWorkspace.authenticate E) h) -> path = "token.json".
Proof.
  unfold trace_of. run_authenticate.
  unfold SetupWorkspace.needs_login, SetupWorkspace.can_refresh.
  repeat (branch; cbn);
    first [by intros ?%elem_of_nil | by intros ->%list_elem_of_singleton].
Qed.

(** A consent flow that returns a credential is followed by the write of
    that credential to the token file, and by nothing else. *)
Lemma authenticate_login_written (E : env) (h : list event) pre c post :
  trace_of (SetupWorkspace.authenticate E) h
    = pre ++ Called (RunLocalServer 0) (inr (VCreds c)) :: post ->
  exists result,
    post = [Called (WriteFile "token.json" (creds_to_json E c)) result] /\
    (result = inr VNone ->
     result_of (SetupWorkspace.authenticate E) h = inr (Some c)).
Proof.
  unfold trace_of, result_of. run_authenticate.
  unfold SetupWorkspace.needs_login, SetupWorkspace.can_refresh.
  repeat (branch; cbn);
    intros Hseg;
    repeat (destruct pre as [|? pre]; simplify_eq/=);
    eexists; (split; [reflexivity|]); intros; by simplify_eq/=.
Qed.

(** ** [try_authentication] *)

Ltac run_attempt :=
  unfold try_except, bind, perform, print, ret, raise,
    QuickAuth.build_admin, QuickAuth.probe; cbn;
  repeat (branch; cbn; simplify_eq/=).

Section Attempts.
Context (E : env).

Lemma try_adc_run h :
  exists r t,
    QuickAuth.try_adc E h = (inr r, t) /\
    attempts t = [ADC] /\ writes t = [] /\ found t r.
Proof.
  unfold QuickAuth.try_adc. run_attempt;
    eexists _, _; (split; [reflexivity|]); (split; [reflexivity|]);
    (split; [reflexivity|]);
    first [ by apply found_nothing
          | by eapply (found_working _ _ [_; _; _]) ].
Qed.

Lemma try_service_account_run path h :
  exists r t,
    QuickAuth.try_service_account E path h = (inr r, t) /\
    attempts t = [] /\ writes t = [] /\ found t r.
Proof.
  unfold QuickAuth.try_service_account. run_attempt;
    eexists _, _; (split; [reflexivity|]); (split; [reflexivity|]);
    (split; [reflexivity|]);
    first [ by apply found_nothing
          | by eapply (found_working _ _ [_; _; _]) ].
Qed.

Lemma try_gcloud_run h :
  exists r t,
    QuickAuth.try_gcloud E h = (inr r, t) /\
    attempts t = [GcloudLogin] /\ writes t = [] /\ found t r.
Proof.
  unfold QuickAuth.try_gcloud. run_attempt;
    eexists _, _; (split; [reflexivity|]); (split; [reflexivity|]);
    (split; [reflexivity|]);
    first [ by apply found_nothing
          | by eapply (found_working _ _ [_; _; _; _]) ].
Qed.
End Attempts.

Lemma bind_run {A B} (m : M A) (k : A -> M B) h a t1 r t2 :
  m h = (inr a, t1) -> k a (h ++ t1) = (r, t2) -> bind m k h = (r, t1 ++ t2).
Proof. intros Hm Hk. unfold bind. by rewrite Hm, Hk. Qed.

(** Events in which no probe passed may precede an outcome. *)
Lemma found_after t0 t r :
  probes_passed t0 = [] -> found t r -> found (t0 ++ t) r.
Proof.
  intros Hnone [Ht|c pre listing line -> Hpre].
  - apply found_nothing. unfold probes_passed in *. by rewrite omap_app, Hnone, Ht.
  - rewrite app_assoc. eapply found_working; [reflexivity|].
    unfold probes_passed in *. by rewrite omap_app, Hnone, Hpre.
Qed.

Lemma found_nothing_inv t : found t None -> probes_passed t = [].
Proof. by inversion 1. Qed.

Section Fallback.
Context (E : env).

(** The loop over the key files looks for each path in turn, until one
    yields a working client. *)
Lemma try_service_accounts_run paths h :
  exists r t,
    QuickAuth.try_service_accounts E paths h = (inr r, t) /\
    writes t = [] /\ found t r /\
    attempts t `prefix_of` map ServiceAccountKey paths /\
    (r = None -> attempts t = map ServiceAccountKey paths).
Proof.
  revert h. induction paths as [|path rest IH]; intros h.
  - exists None, []. repeat split; try done. by apply found_nothing.
  - set (ev := Called (PathExists path) (inr (VBool (os_path_exists E h path)))).
    assert (Hlook : perform (PathExists path) VBool
                      (fun h => inr (os_path_exists E h path)) h
                    = (inr (os_path_exists E h path), [ev])) by reflexivity.
    cbn [QuickAuth.try_service_accounts].
    destruct (os_path_exists E h path) eqn:Hexists.
    + destruct (try_service_account_run E path (h ++ [ev]))
        as (r1 & t1 & Hrun1 & Hattempts1 & Hwrites1 & Hfound1).
      destruct r1 as [working|].
      * exists (Some working), ([ev] ++ t1 ++ []).
        split.
        { eapply bind_run; [exact Hlook|]. eapply bind_run; [exact Hrun1|]. done. }
        rewrite app_nil_r.
        split; [unfold writes in *; by rewrite omap_app, Hwrites1|].
        split; [by apply found_after|].
        split; [|done].
        unfold attempts in *. rewrite omap_app, Hattempts1. cbn.
        apply prefix_cons, prefix_nil.
      * destruct (IH ((h ++ [ev]) ++ t1))
          as (r2 & t2 & Hrun2 & Hwrites2 & Hfound2 & Hprefix2 & Hall2).
        exists r2, ([ev] ++ t1 ++ t2).
        split.
        { eapply bind_run; [exact Hlook|]. eapply bind_run; [exact Hrun1|]. done. }
        split; [unfold writes in *; by rewrite !omap_app, Hwrites1, Hwrites2|].
        split.
        { apply found_after; [done|]. apply found_after; [|done].
          by apply found_nothing_inv. }
        unfold attempts in *. rewrite !omap_app, Hattempts1. cbn.
        split; [by apply prefix_cons|]. intros Hr. by rewrite Hall2.
    + destruct (IH (h ++ [ev]))
        as (r2 & t2 & Hrun2 & Hwrites2 & Hfound2 & Hprefix2 & Hall2).
      exists r2, ([ev] ++ t2).
      split; [eapply bind_run; [exact Hlook|done]|].
      split; [unfold writes in *; by rewrite omap_app, Hwrites2|].
      split; [by apply found_after|].
      unfold attempts in *. rewrite omap_app. cbn.
      split; [by apply prefix_cons|]. intros Hr. by rewrite Hall2.
Qed.

(** The whole chain. *)
Lemma try_authentication_run h :
  exists r t,
    QuickAuth.try_authentication E h
      = (inr (match r with
              | Some working => QuickAuth.returned working
              | None => (None, None)
              end), t) /\
    writes t = [] /\ found t r /\
    attempts t `prefix_of` documented_order E /\
    (r = None -> attempts t = documented_order E).
Proof.
  set (greeting := Printed "🔐 Attempting Google Workspace authentication...").
  destruct (try_adc_run E (h ++ [greeting]))
    as (r1 & t1 & Hrun1 & Hattempts1 & Hwrites1 & Hfound1).
  unfold QuickAuth.try_authentication, documented_order.
  generalize (QuickAuth.service_account_paths E). intros paths.
  destruct r1 as [working|].
  { exists (Some working), ([greeting] ++ t1 ++ []).
    split.
    { eapply bind_run; [reflexivity|]. eapply bind_run; [exact Hrun1|]. done. }
    rewrite app_nil_r.
    split; [unfold writes in *; by rewrite omap_app, Hwrites1|].
    split; [by apply found_after|].
    split; [|done].
    unfold attempts in *. rewrite omap_app, Hattempts1. cbn.
    apply prefix_cons, prefix_nil. }
  destruct (try_service_accounts_run paths ((h ++ [greeting]) ++ t1))
    as (r2 & t2 & Hrun2 & Hwrites2 & Hfound2 & Hprefix2 & Hall2).
  destruct r2 as [working|].
  { exists (Some working), ([greeting] ++ t1 ++ t2 ++ []).
    split.
    { eapply bind_run; [reflexivity|]. eapply bind_run; [exact Hrun1|].
      eapply bind_run; [exact Hrun2|]. done. }
    rewrite app_nil_r.
    split; [unfold writes in *; by rewrite !omap_app, Hwrites1, Hwrites2|].
    split.
    { apply found_after; [done|]. apply found_after; [|done].
      by apply found_nothing_inv. }
    split; [|done].
    unfold attempts in *. rewrite !omap_app, Hattempts1. cbn.
    apply prefix_cons. by apply prefix_app_r. }
  destruct (try_gcloud_run E (((h ++ [greeting]) ++ t1) ++ t2))
    as (r3 & t3 & Hrun3 & Hattempts3 & Hwrites3 & Hfound3).
  exists r3, ([greeting] ++ t1 ++ t2 ++ t3 ++ []).
  split.
  { eapply bind_run; [reflexivity|]. eapply bind_run; [exact Hrun1|].
    eapply bind_run; [exact Hrun2|]. eapply bind_run; [exact Hrun3|].
    by destruct r3. }
  rewrite app_nil_r.
  split; [unfold writes in *; by rewrite !omap_app, Hwrites1, Hwrites2, Hwrites3|].
  split.
  { apply found_after; [done|]. apply found_after; [by apply found_nothing_inv|].
    apply found_after; [by apply found_nothing_inv|done]. }
  unfold attempts in *. rewrite !omap_app, Hattempts1, Hattempts3, Hall2 by done.
  done.
Qed.
End Fallback.

(** ** The documented order has no repetition *)

Lemma length_append (a b : string) :
  String.length (a +:+ b) = String.length a + String.length b.
Proof.
  induction a as [|ch a IH]; [done|].
  change (S (String.length (a +:+ b)) = S (String.length a + String.length b)).
  by rewrite IH.
Qed.

(** Whatever the home directory, the expanded key path is longer than the
    two relative names it shares the list with. *)
Lemma expanded_key_path_length (home : string -> option string) :
  36 <= String.length (expanduser home "~/.config/gcloud/service-account.json").
Proof.
  unfold expanduser. cbn.
  destruct (home "") as [dir|]; [|cbn; lia].
  pose proof (length_append (rstrip_slash dir) "/.config/gcloud/service-account.json")
    as Hlen.
  destruct (rstrip_slash dir +:+ "/.config/gcloud/service-account.json");
    cbn in *; lia.
Qed.

Lemma documented_order_NoDup (E : env) : NoDup (documented_order E).
Proof.
  unfold documented_order, QuickAuth.service_account_paths.
  pose proof (expanded_key_path_length (userhome E)) as Hlen.
  set (expanded := expanduser (userhome E) "~/.config/gcloud/service-account.json") in *.
  assert (expanded <> "service-account.json") by (intros Heq; rewrite Heq in Hlen; cbn in Hlen; lia).
  assert (expanded <> "credentials.json") by (intros Heq; rewrite Heq in Hlen; cbn in Hlen; lia).
  clearbody expanded. cbn.
  repeat (apply NoDup_cons; split); try apply NoDup_nil_2;
    intros Hin;
    repeat (apply elem_of_cons in Hin as [Hin|Hin]; [congruence|]);
    by apply elem_of_nil in Hin.
Qed.

Lemma prefix_NoDup {A} (l k : list A) : l `prefix_of` k -> NoDup k -> NoDup l.
Proof. intros [rest ->] Hk. by apply NoDup_app in Hk as [? _]. Qed.

(** ** The shape of the fallback *)

Section FallbackShape.
Context (E : env).

Lemma try_adc_shape h :
  exists r t,
    QuickAuth.try_adc E h = (inr r, adc_line :: t) /\ adc_run r t.
Proof.
  unfold QuickAuth.try_adc, adc_run, adc_line, probe_event, build_event.
  run_attempt; eexists _, _; (split; [reflexivity|]); econstructor.
Qed.

Lemma try_service_account_shape path h :
  exists r t,
    QuickAuth.try_service_account E path h = (inr r, key_line path :: t) /\
    key_run path r t.
Proof.
  unfold QuickAuth.try_service_account, key_run, key_line, probe_event, build_event.
  run_attempt; eexists _, _; (split; [reflexivity|]); econstructor.
Qed.

Lemma try_gcloud_attempt h :
  exists r status t,
    QuickAuth.try_gcloud E h =
      (inr r, gcloud_line :: Called (System QuickAuth.gcloud_login) (inr (VInt status)) :: t) /\
    gcloud_run r t.
Proof.
  unfold QuickAuth.try_gcloud, gcloud_run, gcloud_line, probe_event, build_event.
  run_attempt; eexists _, _, _; (split; [reflexivity|]); econstructor.
Qed.

Lemma try_service_accounts_shape paths h :
  exists r t,
    QuickAuth.try_service_accounts E paths h = (inr r, t) /\ keys_run paths r t.
Proof.
  revert h. induction paths as [|path rest IH]; intros h.
  - exists None, []. split; [done|constructor].
  - set (ev := Called (PathExists path) (inr (VBool (os_path_exists E h path)))).
    assert (Hlook : perform (PathExists path) VBool
                      (fun h => inr (os_path_exists E h path)) h
                    = (inr (os_path_exists E h path), [ev])) by reflexivity.
    cbn [QuickAuth.try_service_accounts]. subst ev.
    destruct (os_path_exists E h path) eqn:Hexists.
    + destruct (try_service_account_shape path
                  (h ++ [Called (PathExists path) (inr (VBool true))]))
        as (r1 & t1 & Hrun1 & Hshape1).
      destruct r1 as [working|].
      * eexists (Some working), _. split.
        { eapply bind_run; [exact Hlook|]. eapply bind_run; [exact Hrun1|]. done. }
        cbn. rewrite app_nil_r. by apply keys_worked.
      * destruct (IH ((h ++ [Called (PathExists path) (inr (VBool true))])
                        ++ key_line path :: t1))
          as (r2 & t2 & Hrun2 & Hshape2).
        eexists r2, _. split.
        { eapply bind_run; [exact Hlook|]. eapply bind_run; [exact Hrun1|]. exact Hrun2. }
        cbn. by apply keys_failed.
    + destruct (IH (h ++ [Called (PathExists path) (inr (VBool false))]))
        as (r2 & t2 & Hrun2 & Hshape2).
      eexists r2, _. split; [eapply bind_run; [exact Hlook|exact Hrun2]|].
      cbn. by apply keys_absent.
Qed.

Lemma try_authentication_shape h :
  exists r t,
    QuickAuth.try_authentication E h = (inr (returned_pair r), t) /\
    fallback_run (QuickAuth.service_account_paths E) r t.
Proof.
  unfold QuickAuth.try_authentication.
  generalize (QuickAuth.service_account_paths E). intros paths.
  destruct (try_adc_shape (h ++ [greeting_line])) as (r1 & t1 & Hrun1 & Hshape1).
  destruct r1 as [working|].
  { eexists (Some working), _. split.
    { eapply bind_run; [reflexivity|]. eapply bind_run; [exact Hrun1|]. done. }
    cbn. rewrite app_nil_r. by apply fallback_adc. }
  destruct (try_service_accounts_shape paths ((h ++ [greeting_line]) ++ adc_line :: t1))
    as (r2 & t2 & Hrun2 & Hshape2).
  destruct r2 as [working|].
  { eexists (Some working), _. split.
    { eapply bind_run; [reflexivity|]. eapply bind_run; [exact Hrun1|].
      eapply bind_run; [exact Hrun2|]. done. }
    cbn. rewrite app_nil_r. by apply fallback_key. }
  destruct (try_gcloud_attempt (((h ++ [greeting_line]) ++ adc_line :: t1) ++ t2))
    as (r3 & status & t3 & Hrun3 & Hshape3).
  eexists r3, _. split.
  { eapply bind_run; [reflexivity|]. eapply bind_run; [exact Hrun1|].
    eapply bind_run; [exact Hrun2|]. eapply bind_run; [exact Hrun3|].
    by destruct r3. }
  cbn. rewrite app_nil_r. by apply fallback_gcloud.
Qed.
End FallbackShape.

(** C3: [try_authentication] always returns a pair, and its run has the
    shape [fallback_run]: Application Default Credentials first; then, only
    when that method failed, each listed key path in turn, looked for and,
    when the file exists, tried; then, only when no key worked, the [gcloud]
    login followed by the default credentials.  A method works when its
    acquisition, the build of the client and the probe all returned; the
    run then ends with the line announcing it and the credential and client
    of that method are returned, nothing being attempted after it.  A
    method fails at the first of its calls that raises.  When every method
    failed the pair is [(None, None)].  Every call of the run carries the
    answer the environment gave.  So the methods started are an initial
    part of the documented order, none of them twice. *)
Theorem fallback_order (E : env) (h : list event) :
  exists r,
    result_of (QuickAuth.try_authentication E) h = inr (returned_pair r) /\
    fallback_run (QuickAuth.service_account_paths E) r
      (trace_of (QuickAuth.try_authentication E) h) /\
    answered E h (trace_of (QuickAuth.try_authentication E) h) /\
    attempts (trace_of (QuickAuth.try_authentication E) h) `prefix_of` documented_order E /\
    NoDup (attempts (trace_of (QuickAuth.try_authentication E) h)) /\
    match r with
    | Some (c, svc) =>
        exists pre listing line,
          trace_of (QuickAuth.try_authentication E) h
            = pre ++ [Called (DomainsList svc "my_customer") (inr (VResponse listing));
                      Printed line] /\
          probes_passed pre = []
    | None =>
        attempts (trace_of (QuickAuth.try_authentication E) h) = documented_order E /\
        probes_passed (trace_of (QuickAuth.try_authentication E) h) = []
    end.
Proof.
  destruct (try_authentication_run E h) as (r & t & Hrun & _ & Hfound & Hprefix & Hall).
  destruct (try_authentication_shape E h) as (r' & t' & Hrun' & Hshape).
  pose proof (try_authentication_answered E h) as Hanswered.
  unfold result_of, trace_of in *. rewrite Hrun in Hrun', Hanswered |- *.
  cbn [fst snd].
  assert (r' = r /\ t' = t) as [-> ->].
  { injection Hrun' as Hpair Ht. split; [|done].
    destruct r as [[c s]|], r' as [[c' s']|]; cbn in Hpair; by simplify_eq. }
  exists r. split; [done|]. split; [done|]. split; [done|]. split; [done|].
  split; [eapply prefix_NoDup; [exact Hprefix|apply documented_order_NoDup]|].
  inversion Hfound as [Hnone Hr|c pre listing line Ht Hpre Hr]; subst.
  - split; [by apply Hall|done].
  - by exists pre, listing, line.
Qed.

(** C10: when [try_authentication] returns a pair that is not
    [(None, None)], both components are set, the client is the one built
    from the returned credential, and the run contains a domains-list probe
    issued with that client which returned. *)
Theorem returned_pair_probed (E : env) (h : list event)
    (oc : option credentials) (os : option service) :
  result_of (QuickAuth.try_authentication E) h = inr (oc, os) ->
  is_Some oc \/ is_Some os ->
  exists c listing,
    oc = Some c /\
    os = Some (Service "admin" "directory_v1" c) /\
    Called (DomainsList (Service "admin" "directory_v1" c) "my_customer")
      (inr (VResponse listing))
      ∈ trace_of (QuickAuth.try_authentication E) h.
Proof.
  destruct (try_authentication_run E h) as (r & t & Hrun & _ & Hfound & _).
  unfold result_of, trace_of. rewrite Hrun. cbn [fst snd].
  inversion Hfound as [Hnone Hr|c pre listing line Ht Hpre Hr]; subst; cbn.
  - intros [= <- <-] [[? ?]|[? ?]]; discriminate.
  - intros [= <- <-] _. exists c, listing. repeat split.
    rewrite elem_of_app, elem_of_cons. auto.
Qed.

Lemma returned_pair_probed_witness :
  exists c listing,
    Called (DomainsList (Service "admin" "directory_v1" c) "my_customer")
      (inr (VResponse listing))
      ∈ trace_of (QuickAuth.try_authentication
                    (Mock.world [] Mock.cached [] Mock.directory Mock.all_up)) [].
Proof.
  destruct (returned_pair_probed
              (Mock.world [] Mock.cached [] Mock.directory Mock.all_up) []
              (Some Mock.fresh) (Some Mock.admin) eq_refl)
    as (c & listing & _ & _ & Hin).
  - left. by eexists.
  - by exists c, listing.
Defined.

(** C8: in [authenticate], a consent flow that returns a credential is
    followed by the write of that credential to [token.json] (and when the
    write succeeds the credential is returned); every file [authenticate]
    writes is [token.json], and [try_authentication] writes none; and when
    the cached credential is valid nothing is written. *)
Theorem token_file_only_write (E : env) (h : list event) :
  (forall pre c post,
     trace_of (SetupWorkspace.authenticate E) h
       = pre ++ Called (RunLocalServer 0) (inr (VCreds c)) :: post ->
     exists result,
       post = [Called (WriteFile "token.json" (creds_to_json E c)) result] /\
       (result = inr VNone ->
        result_of (SetupWorkspace.authenticate E) h = inr (Some c))) /\
  (forall path,
     path ∈ writes (trace_of (SetupWorkspace.authenticate E) h) -> path = "token.json") /\
  writes (trace_of (QuickAuth.try_authentication E) h) = [] /\
  (forall c,
     os_path_exists E h "token.json" = true ->
     from_authorized_user_file E
       (h ++ [Called (PathExists "token.json") (inr (VBool true))])
       "token.json" SetupWorkspace.SCOPES = inr c ->
     valid c = true ->
     writes (trace_of (SetupWorkspace.authenticate E) h) = []).
Proof.
  split; [intros pre c post; apply authenticate_login_written|].
  split; [intros path; apply authenticate_writes|].
  split.
  - destruct (try_authentication_run E h) as (r & t & Hrun & Hwrites & _).
    unfold trace_of. by rewrite Hrun.
  - intros c Hexists Hload Hvalid. unfold trace_of.
    by rewrite (authenticate_cached_run E h c Hexists Hload Hvalid).
Qed.

Lemma token_file_only_write_witness :
  writes (trace_of (SetupWorkspace.authenticate
                      (Mock.world [] Mock.cached [] Mock.directory Mock.all_up)) [])
    = ["token.json"] /\
  writes (trace_of (SetupWorkspace.authenticate
                      (Mock.world ["token.json"] Mock.cached [] Mock.directory Mock.all_up)) [])
    = [].
Proof.
  split; [reflexivity|].
  eapply (token_file_only_write
            (Mock.world ["token.json"] Mock.cached [] Mock.directory Mock.all_up) []);
    reflexivity.
Defined.

(** ** [test_workspace_access] *)

Section AccessTest.
Context (E : env) (svc : service).

(** One domain is printed, unless its entry lacks a key. *)
Lemma print_domain_run (domain : entry) h :
  (exists line, QuickAuth.print_domain domain h = (inr tt, [Printed line])) \/
  (exists key, QuickAuth.print_domain domain h = (inl (KeyError key), [])).
Proof.
  unfold QuickAuth.print_domain, getitem.
  destruct (domain !! "domainName") as [name|]; [|right; by eexists].
  rewrite bind_ret.
  destruct (domain !! "verified") as [verified|]; [|right; by eexists].
  rewrite bind_ret. left. by eexists.
Qed.

(** Printing the domains issues no call; it stops at the first entry that
    lacks [domainName] or [verified]. *)
Lemma print_domains_run (domains : list entry) h :
  printed_only (trace_of (for_each domains QuickAuth.print_domain) h) /\
  (result_of (for_each domains QuickAuth.print_domain) h = inr tt \/
   exists key, result_of (for_each domains QuickAuth.print_domain) h = inl (KeyError key)).
Proof.
  unfold printed_only. revert h.
  induction domains as [|domain rest IH]; intros h.
  - split; [constructor|by left].
  - destruct (print_domain_run domain h) as [[line Hrun]|[key Hrun]].
    + assert (Htrace : trace_of (QuickAuth.print_domain domain) h = [Printed line])
        by (unfold trace_of; by rewrite Hrun).
      unfold result_of at 1 2, trace_of at 1.
      rewrite for_each_next by (unfold result_of; by rewrite Hrun).
      rewrite !Htrace. cbn [fst snd app].
      destruct (IH (h ++ [Printed line])) as [Hshown Hres].
      split; [constructor; eauto|done].
    + unfold result_of at 1 2, trace_of at 1.
      rewrite (for_each_raised _ _ _ _ (KeyError key))
        by (unfold result_of; by rewrite Hrun).
      unfold trace_of. rewrite Hrun. cbn.
      split; [constructor|]. right. by eexists.
Qed.

Lemma test_workspace_access_run h :
  exists passed t,
    QuickAuth.test_workspace_access E svc h = (inr passed, t) /\
    access_run svc passed t.
Proof.
  unfold QuickAuth.test_workspace_access, try_except, bind, perform, print,
    ret, QuickAuth.probe; cbn.
  destruct (domains_list E _ svc "my_customer") as [e|domains]; cbn.
  { eexists _, _. split; [reflexivity|]. apply access_domains_failed. }
  match goal with
  | |- context [for_each ?l ?body ?hist] =>
      destruct (print_domains_run l hist) as [Hshown Hres];
      rewrite (run_eta (for_each l body) hist)
  end.
  set (shown := trace_of (for_each _ _) _) in *. clearbody shown.
  destruct Hres as [->|[key ->]]; cbn.
  2:{ eexists _, _. split; [reflexivity|]. rewrite <- ?app_assoc. by apply access_domain_malformed. }
  destruct (users_list E _ svc "my_customer" 10) as [e|users]; cbn.
  { eexists _, _. split; [reflexivity|]. rewrite <- ?app_assoc. by apply access_users_failed. }
  destruct (groups_list E _ svc "my_customer" 10) as [e|groups]; cbn.
  { eexists _, _. split; [reflexivity|]. rewrite <- ?app_assoc. by apply access_groups_failed. }
  eexists _, _. split; [reflexivity|]. rewrite <- ?app_assoc. by apply access_granted.
Qed.
End AccessTest.

Lemma print_domain_complete (d : entry) h :
  domain_complete d ->
  QuickAuth.print_domain d h = (inr tt, [Printed (domain_line d)]).
Proof.
  intros [[name Hname] [verified Hverified]].
  unfold QuickAuth.print_domain, domain_line, getitem.
  by rewrite Hname, bind_ret, Hverified, bind_ret.
Qed.

Lemma print_domain_incomplete (d : entry) h :
  ~ domain_complete d ->
  QuickAuth.print_domain d h = (inl (KeyError (missing_key d)), []).
Proof.
  intros Hnot. unfold QuickAuth.print_domain, missing_key, getitem.
  destruct (d !! "domainName") as [name|] eqn:Hname; [|done].
  rewrite bind_ret.
  destruct (d !! "verified") as [verified|] eqn:Hverified; [|done].
  destruct Hnot. split; by eexists.
Qed.

Lemma print_domains_complete (good rest : list entry) h :
  Forall domain_complete good ->
  for_each (good ++ rest) QuickAuth.print_domain h =
    (result_of (for_each rest QuickAuth.print_domain)
       (h ++ map (fun d => Printed (domain_line d)) good),
     map (fun d => Printed (domain_line d)) good
       ++ trace_of (for_each rest QuickAuth.print_domain)
            (h ++ map (fun d => Printed (domain_line d)) good)).
Proof.
  intros Hgood. revert h. induction Hgood as [|d good Hd _ IH]; intros h.
  - cbn [map app]. rewrite app_nil_r. apply run_eta.
  - cbn [map app].
    rewrite for_each_next
      by (unfold result_of; by rewrite (print_domain_complete d h Hd)).
    unfold trace_of at 1 3 4. rewrite (print_domain_complete d h Hd). cbn [snd].
    unfold result_of at 1, trace_of at 1. rewrite IH. cbn [fst snd].
    rewrite <- !app_assoc. cbn [app].
    by rewrite (print_domain_complete d h Hd).
Qed.

Lemma print_domains_all (domains : list entry) h :
  Forall domain_complete domains ->
  for_each domains QuickAuth.print_domain h =
    (inr tt, map (fun d => Printed (domain_line d)) domains).
Proof.
  intros Hall. pose proof (print_domains_complete domains [] h Hall) as Hrun.
  rewrite app_nil_r in Hrun. rewrite Hrun. cbn. by rewrite app_nil_r.
Qed.

Lemma print_domains_stop (good : list entry) (bad : entry) (rest : list entry) h :
  Forall domain_complete good ->
  ~ domain_complete bad ->
  for_each (good ++ bad :: rest) QuickAuth.print_domain h =
    (inl (KeyError (missing_key bad)), map (fun d => Printed (domain_line d)) good).
Proof.
  intros Hgood Hbad. rewrite print_domains_complete by done.
  unfold result_of, trace_of.
  rewrite (for_each_raised _ _ _ _ (KeyError (missing_key bad)))
    by (unfold result_of; by rewrite print_domain_incomplete).
  cbn [fst snd]. unfold trace_of. rewrite print_domain_incomplete by done.
  cbn [snd]. by rewrite app_nil_r.
Qed.

(** ** The run of the diagnostic, from the answers of the environment *)

Section AccessAnswers.
Context (E : env) (svc : service) (h : list event).

Lemma access_domains_down e :
  domains_list E (h ++ [access_greeting]) svc "my_customer" = inl e ->
  QuickAuth.test_workspace_access E svc h =
    (inr false,
     [access_greeting; Called (DomainsList svc "my_customer") (inl e);
      Printed (access_failed_line e)]).
Proof.
  intros Hdomains.
  unfold QuickAuth.test_workspace_access, QuickAuth.probe, try_except, bind,
    perform, print, ret.
  cbn [app]. fold access_greeting. rewrite Hdomains. reflexivity.
Qed.

(** The run up to the users listing, when the domains are listed and all
    their entries are complete. *)
Lemma access_domains_up domains :
  domains_list E (h ++ [access_greeting]) svc "my_customer" = inr domains ->
  Forall domain_complete (QuickAuth.get_list domains "domains") ->
  QuickAuth.test_workspace_access E svc h =
    match users_list E (h ++ domains_report svc domains) svc "my_customer" 10 with
    | inl e =>
        (inr false,
         domains_report svc domains
           ++ [Called (UsersList svc "my_customer" 10) (inl e);
               Printed (access_failed_line e)])
    | inr users =>
        match groups_list E (h ++ domains_report svc domains ++ users_report svc users)
                svc "my_customer" 10 with
        | inl e =>
            (inr false,
             domains_report svc domains ++ users_report svc users
               ++ [Called (GroupsList svc "my_customer" 10) (inl e);
                   Printed (access_failed_line e)])
        | inr groups =>
            (inr true,
             domains_report svc domains ++ users_report svc users
               ++ groups_report svc groups)
        end
    end.
Proof.
  intros Hdomains Hcomplete.
  unfold QuickAuth.test_workspace_access, QuickAuth.probe, try_except, bind,
    perform, print, ret.
  cbn [app]. fold access_greeting. rewrite Hdomains. cbn [sum_map id].
  match goal with
  | |- context [for_each ?l ?body ?hist] =>
      rewrite (print_domains_all l hist) by done
  end.
  rewrite <- ?app_assoc. cbn [app]. fold (domains_line domains).
  fold (domains_report svc domains).
  destruct (users_list E (h ++ domains_report svc domains) svc "my_customer" 10)
    as [e|users]; cbn [sum_map id].
  { unfold access_failed_line. cbn [app]. by rewrite <- ?app_assoc. }
  fold (users_line users).
  unfold domains_report, users_report, groups_report.
  repeat (rewrite <- ?app_assoc; cbn [app]).
  destruct (groups_list E _ svc "my_customer" 10) as [e|groups]; cbn [sum_map id].
  - unfold access_failed_line. repeat (rewrite <- ?app_assoc; cbn [app]). reflexivity.
  - unfold groups_line. repeat (rewrite <- ?app_assoc; cbn [app]). reflexivity.
Qed.
End AccessAnswers.

Lemma called_not_shown (shown : list event) c result :
  printed_only shown -> Called c result ∉ shown.
Proof.
  unfold printed_only. rewrite Forall_forall. intros Hshown Hin.
  by destruct (Hshown _ Hin).
Qed.

Lemma printed_only_read_only (shown : list event) :
  printed_only shown -> Forall (fun ev => read_only ev = true) shown.
Proof.
  intros Hshown. eapply Forall_impl; [exact Hshown|]. by intros ev [line ->].
Qed.

(** Where an event of a run of the diagnostic can sit. *)
Ltac locate H :=
  repeat first [ apply elem_of_cons in H as [H|H]
               | apply elem_of_app in H as [H|H] ];
  try (by apply elem_of_nil in H);
  try discriminate H;
  try (by eapply called_not_shown in H).

Ltac present :=
  rewrite ?elem_of_cons, ?elem_of_app, ?elem_of_cons; auto 20.

(** C7: [test_workspace_access] always returns a boolean, its run has one
    of the five shapes of [access_run], every call in it carries the answer
    the environment gave, and all it does is list calls and console output.
    When the domains, the users and the groups are listed in turn and the
    three calls return, it returns [True] and has printed the three counts,
    each the length of the list found in the response of its call.  When a
    list call raises, the calls after it are not issued, the failure is
    printed and it returns [False]. *)
Theorem access_test_report (E : env) (svc : service) (h : list event) :
  exists passed,
    result_of (QuickAuth.test_workspace_access E svc) h = inr passed /\
    access_run svc passed (trace_of (QuickAuth.test_workspace_access E svc) h) /\
    answered E h (trace_of (QuickAuth.test_workspace_access E svc) h) /\
    Forall (fun ev => read_only ev = true)
      (trace_of (QuickAuth.test_workspace_access E svc) h) /\
    (forall domains users groups,
       Called (DomainsList svc "my_customer") (inr (VResponse domains))
         ∈ trace_of (QuickAuth.test_workspace_access E svc) h ->
       Called (UsersList svc "my_customer" 10) (inr (VResponse users))
         ∈ trace_of (QuickAuth.test_workspace_access E svc) h ->
       Called (GroupsList svc "my_customer" 10) (inr (VResponse groups))
         ∈ trace_of (QuickAuth.test_workspace_access E svc) h ->
       passed = true /\
       Printed ("✅ Found " +:+ pretty (length (QuickAuth.get_list domains "domains"))
                +:+ " domains:")
         ∈ trace_of (QuickAuth.test_workspace_access E svc) h /\
       Printed ("✅ Found " +:+ pretty (length (QuickAuth.get_list users "users"))
                +:+ " users (showing first 10)")
         ∈ trace_of (QuickAuth.test_workspace_access E svc) h /\
       Printed ("✅ Found " +:+ pretty (length (QuickAuth.get_list groups "groups"))
                +:+ " groups (showing first 10)")
         ∈ trace_of (QuickAuth.test_workspace_access E svc) h) /\
    (forall c e,
       Called c (inl e) ∈ trace_of (QuickAuth.test_workspace_access E svc) h ->
       passed = false /\
       Printed ("❌ Workspace access test failed: " +:+ exn_str e)
         ∈ trace_of (QuickAuth.test_workspace_access E svc) h) /\
    (forall domains users groups,
       domains_list E (h ++ [access_greeting]) svc "my_customer" = inr domains ->
       Forall domain_complete (QuickAuth.get_list domains "domains") ->
       users_list E (h ++ domains_report svc domains) svc "my_customer" 10 = inr users ->
       groups_list E (h ++ domains_report svc domains ++ users_report svc users)
         svc "my_customer" 10 = inr groups ->
       QuickAuth.test_workspace_access E svc h =
         (inr true,
          domains_report svc domains ++ users_report svc users
            ++ groups_report svc groups)) /\
    (forall e,
       domains_list E (h ++ [access_greeting]) svc "my_customer" = inl e ->
       QuickAuth.test_workspace_access E svc h =
         (inr false,
          [access_greeting; Called (DomainsList svc "my_customer") (inl e);
           Printed (access_failed_line e)])) /\
    (forall domains e,
       domains_list E (h ++ [access_greeting]) svc "my_customer" = inr domains ->
       Forall domain_complete (QuickAuth.get_list domains "domains") ->
       users_list E (h ++ domains_report svc domains) svc "my_customer" 10 = inl e ->
       QuickAuth.test_workspace_access E svc h =
         (inr false,
          domains_report svc domains
            ++ [Called (UsersList svc "my_customer" 10) (inl e);
                Printed (access_failed_line e)])) /\
    (forall domains users e,
       domains_list E (h ++ [access_greeting]) svc "my_customer" = inr domains ->
       Forall domain_complete (QuickAuth.get_list domains "domains") ->
       users_list E (h ++ domains_report svc domains) svc "my_customer" 10 = inr users ->
       groups_list E (h ++ domains_report svc domains ++ users_report svc users)
         svc "my_customer" 10 = inl e ->
       QuickAuth.test_workspace_access E svc h =
         (inr false,
          domains_report svc domains ++ users_report svc users
            ++ [Called (GroupsList svc "my_customer" 10) (inl e);
                Printed (access_failed_line e)])).
Proof.
  assert (Hup : forall domains,
            domains_list E (h ++ [access_greeting]) svc "my_customer" = inr domains ->
            Forall domain_complete (QuickAuth.get_list domains "domains") ->
            _) by exact (access_domains_up E svc h).
  pose proof (access_domains_down E svc h) as Hdown.
  pose proof (test_workspace_access_answered E svc h) as Hanswered.
  destruct (test_workspace_access_run E svc h) as (passed & t & Hrun & Hshape).
  unfold result_of, trace_of in *. rewrite Hrun in Hanswered |- *. cbn [fst snd].
  exists passed. split; [done|]. split; [done|]. split; [done|].
  assert (Henv :
    (forall domains users groups,
       domains_list E (h ++ [access_greeting]) svc "my_customer" = inr domains ->
       Forall domain_complete (QuickAuth.get_list domains "domains") ->
       users_list E (h ++ domains_report svc domains) svc "my_customer" 10 = inr users ->
       groups_list E (h ++ domains_report svc domains ++ users_report svc users)
         svc "my_customer" 10 = inr groups ->
       (inr passed : exn + bool, t) =
         (inr true,
          domains_report svc domains ++ users_report svc users
            ++ groups_report svc groups)) /\
    (forall e,
       domains_list E (h ++ [access_greeting]) svc "my_customer" = inl e ->
       (inr passed : exn + bool, t) =
         (inr false,
          [access_greeting; Called (DomainsList svc "my_customer") (inl e);
           Printed (access_failed_line e)])) /\
    (forall domains e,
       domains_list E (h ++ [access_greeting]) svc "my_customer" = inr domains ->
       Forall domain_complete (QuickAuth.get_list domains "domains") ->
       users_list E (h ++ domains_report svc domains) svc "my_customer" 10 = inl e ->
       (inr passed : exn + bool, t) =
         (inr false,
          domains_report svc domains
            ++ [Called (UsersList svc "my_customer" 10) (inl e);
                Printed (access_failed_line e)])) /\
    (forall domains users e,
       domains_list E (h ++ [access_greeting]) svc "my_customer" = inr domains ->
       Forall domain_complete (QuickAuth.get_list domains "domains") ->
       users_list E (h ++ domains_report svc domains) svc "my_customer" 10 = inr users ->
       groups_list E (h ++ domains_report svc domains ++ users_report svc users)
         svc "my_customer" 10 = inl e ->
       (inr passed : exn + bool, t) =
         (inr false,
          domains_report svc domains ++ users_report svc users
            ++ [Called (GroupsList svc "my_customer" 10) (inl e);
                Printed (access_failed_line e)]))).
  { rewrite <- Hrun. repeat split.
    - intros domains users groups Hd Hc Hu Hg.
      rewrite (Hup domains Hd Hc), Hu, Hg. done.
    - intros e Hd. by apply Hdown.
    - intros domains e Hd Hc Hu. rewrite (Hup domains Hd Hc), Hu. done.
    - intros domains users e Hd Hc Hu Hg.
      rewrite (Hup domains Hd Hc), Hu, Hg. done. }
  clear Hup Hdown.
  fold (domains_line) (users_line) (groups_line) (access_failed_line).
  destruct Hshape as [e|domains shown key Hshown|domains shown e Hshown
                     |domains shown users e Hshown|domains shown users groups Hshown].
  - split; [by repeat constructor|]. split; [|split; [|exact Henv]].
    + intros d u g Hd Hu Hg. locate Hg.
    + intros c e' Hin. locate Hin. injection Hin as <- <-. split; [done|present].
  - split.
    { repeat (apply Forall_cons; split; [done|]).
      apply Forall_app. split; [by apply printed_only_read_only|by repeat constructor]. }
    split; [|split; [|exact Henv]].
    + intros d u g Hd Hu Hg. locate Hg.
    + intros c e' Hin. locate Hin.
  - split.
    { repeat (apply Forall_cons; split; [done|]).
      apply Forall_app. split; [by apply printed_only_read_only|by repeat constructor]. }
    split; [|split; [|exact Henv]].
    + intros d u g Hd Hu Hg. locate Hg.
    + intros c e' Hin. locate Hin. injection Hin as <- <-. split; [done|present].
  - split.
    { repeat (apply Forall_cons; split; [done|]).
      apply Forall_app. split; [by apply printed_only_read_only|by repeat constructor]. }
    split; [|split; [|exact Henv]].
    + intros d u g Hd Hu Hg. locate Hg.
    + intros c e' Hin. locate Hin. injection Hin as <- <-. split; [done|present].
  - split.
    { repeat (apply Forall_cons; split; [done|]).
      apply Forall_app. split; [by apply printed_only_read_only|by repeat constructor]. }
    split; [|split; [|exact Henv]].
    + intros d u g Hd Hu Hg. locate Hd. locate Hu. locate Hg.
      injection Hd as <-. injection Hu as <-. injection Hg as <-.
      split; [done|]. repeat split; present.
    + intros c e' Hin. locate Hin.
Qed.

Lemma access_test_report_witness :
  result_of (QuickAuth.test_workspace_access
               (Mock.world [] Mock.cached [] Mock.directory Mock.all_up) Mock.admin) []
    = inr true /\
  Printed "✅ Found 2 users (showing first 10)"
    ∈ trace_of (QuickAuth.test_workspace_access
                  (Mock.world [] Mock.cached [] Mock.directory Mock.all_up) Mock.admin) [].
Proof.
  destruct (access_test_report
              (Mock.world [] Mock.cached [] Mock.directory Mock.all_up) Mock.admin [])
    as (passed & Hres & _ & _ & _ & Hcounts & _).
  destruct (Hcounts Mock.directory Mock.directory Mock.directory)
    as (-> & _ & Husers & _).
  - vm_compute. repeat first [apply list_elem_of_here | apply list_elem_of_further].
  - vm_compute. repeat first [apply list_elem_of_here | apply list_elem_of_further].
  - vm_compute. repeat first [apply list_elem_of_here | apply list_elem_of_further].
  - split; [exact Hres|exact Husers].
Defined.

(** ** Two runs worth recording *)

(** The diagnostic also returns [False] without any call having raised: a
    domain entry without the [verified] key stops it while the domains are
    printed, before the users are listed. *)
Example sparse_domain_entry_fails :
  result_of (QuickAuth.test_workspace_access
               (Mock.world [] Mock.cached [] Mock.sparse Mock.all_up) Mock.admin) []
    = inr false /\
  quiet (trace_of (QuickAuth.test_workspace_access
                     (Mock.world [] Mock.cached [] Mock.sparse Mock.all_up) Mock.admin) []).
Proof. split; [reflexivity|]. vm_compute. by repeat constructor. Qed.

(** A cached credential that is not expired but carries no access token is
    not valid: [authenticate] goes to the consent flow. *)
Example tokenless_credential_prompts :
  valid Mock.tokenless = false /\
  expired Mock.tokenless = false /\
  Exists (fun ev => interactive ev = true)
    (trace_of (SetupWorkspace.authenticate
                 (Mock.world ["token.json"] Mock.tokenless [] Mock.directory Mock.all_up))
       []).
Proof.
  split; [reflexivity|]. split; [reflexivity|].
  vm_compute. apply Exists_cons_tl, Exists_cons_tl, Exists_cons_hd. reflexivity.
Qed.

(** With the users listing down, the diagnostic returns [False]. *)
Example users_listing_down_fails :
  result_of (QuickAuth.test_workspace_access
               (Mock.world [] Mock.cached [] Mock.directory Mock.users_down) Mock.admin) []
    = inr false.
Proof. reflexivity. Qed.

(** With every probe rejected, each method is started once, in order, and
    the pair [(None, None)] comes back. *)
Example no_method_works :
  result_of (QuickAuth.try_authentication
               (Mock.world ["credentials.json"] Mock.cached [] Mock.directory
                  Mock.probes_down)) []
    = inr (None, None) /\
  attempts (trace_of (QuickAuth.try_authentication
                        (Mock.world ["credentials.json"] Mock.cached [] Mock.directory
                           Mock.probes_down)) [])
    = [ADC; ServiceAccountKey "service-account.json"; ServiceAccountKey "credentials.json";
       ServiceAccountKey "/home/admin/.config/gcloud/service-account.json"; GcloudLogin].
Proof. split; reflexivity. Qed.

(** ** More on [authenticate] *)

Lemma authenticate_result_some (E : env) (h : list event) (r : option credentials) :
  result_of (SetupWorkspace.authenticate E) h = inr r -> exists c, r = Some c.
Proof.
  unfold result_of. run_authenticate.
  unfold SetupWorkspace.needs_login, SetupWorkspace.can_refresh.
  repeat (branch; cbn); intros; simplify_eq/=; eauto.
Qed.

(** X1: when [authenticate] returns, it returns a credential, never [None]. *)
Theorem authenticate_returns_credential (E : env) (h : list event)
    (r : option credentials) :
  result_of (SetupWorkspace.authenticate E) h = inr r -> exists c, r = Some c.
Proof.
  apply authenticate_result_some.
Qed.

Lemma authenticate_returns_credential_witness :
  exists c, Some Mock.fresh = Some c.
Proof.
  apply (authenticate_returns_credential
           (Mock.world [] Mock.cached [] Mock.directory Mock.all_up) []).
  reflexivity.
Defined.

(** X2: when the token file exists and cannot be loaded, the exception of
    the loader escapes [authenticate] at once: the run is the look-up and the
    failed load, with no consent flow, no refresh and no write. *)
Theorem unreadable_token_escapes (E : env) (h : list event) (e : exn) :
  os_path_exists E h "token.json" = true ->
  from_authorized_user_file E
    (h ++ [Called (PathExists "token.json") (inr (VBool true))])
    "token.json" SetupWorkspace.SCOPES = inl e ->
  SetupWorkspace.authenticate E h =
    (inl e,
     [Called (PathExists "token.json") (inr (VBool true));
      Called (FromAuthorizedUserFile "token.json" SetupWorkspace.SCOPES) (inl e)]).
Proof.
  intros Hexists Hload. run_authenticate. rewrite Hexists. cbn.
  by rewrite Hload.
Qed.

Lemma unreadable_token_escapes_witness :
  SetupWorkspace.authenticate
    (Mock.world ["token.json"] Mock.cached [] Mock.directory Sample.load_down) [] =
    (inl Mock.unavailable,
     [Called (PathExists "token.json") (inr (VBool true));
      Called (FromAuthorizedUserFile "token.json" SetupWorkspace.SCOPES)
        (inl Mock.unavailable)]).
Proof.
  apply (unreadable_token_escapes
           (Mock.world ["token.json"] Mock.cached [] Mock.directory Sample.load_down)
           [] Mock.unavailable); reflexivity.
Defined.

(** X3: a refresh that raises ends the run: the exception escapes
    [authenticate], nothing is written, and no consent flow is started in
    its place. *)
Theorem refresh_failure_escapes (E : env) (h : list event)
    (pre post : list event) (c : credentials) (e : exn) :
  trace_of (SetupWorkspace.authenticate E) h
    = pre ++ Called (Refresh c) (inl e) :: post ->
  post = [] /\
  result_of (SetupWorkspace.authenticate E) h = inl e /\
  writes (trace_of (SetupWorkspace.authenticate E) h) = [] /\
  Forall (fun ev => interactive ev = false)
    (trace_of (SetupWorkspace.authenticate E) h).
Proof.
  unfold trace_of, result_of. run_authenticate.
  unfold SetupWorkspace.needs_login, SetupWorkspace.can_refresh.
  repeat (branch; cbn);
    intros Hseg;
    repeat (destruct pre as [|? pre]; simplify_eq/=);
    repeat split; by repeat constructor.
Qed.

Lemma refresh_failure_escapes_witness :
  result_of (SetupWorkspace.authenticate
               (Mock.world ["token.json"] Mock.stale [] Mock.directory Sample.refresh_down))
    [] = inl Mock.unavailable /\
  writes (trace_of (SetupWorkspace.authenticate
                      (Mock.world ["token.json"] Mock.stale [] Mock.directory
                         Sample.refresh_down)) []) = [].
Proof.
  destruct (refresh_failure_escapes
              (Mock.world ["token.json"] Mock.stale [] Mock.directory Sample.refresh_down)
              []
              [Called (PathExists "token.json") (inr (VBool true));
               Called (FromAuthorizedUserFile "token.json" SetupWorkspace.SCOPES)
                 (inr (VCreds Mock.stale))]
              [] Mock.stale Mock.unavailable)
    as (_ & Hres & Hwrites & _).
  - reflexivity.
  - split; [exact Hres|exact Hwrites].
Defined.

(** X4: a refresh that returns is followed by the write of the refreshed
    credential to [token.json] and by nothing else; when the write succeeds
    the refreshed credential is what [authenticate] returns. *)
Theorem refresh_written (E : env) (h : list event)
    (pre post : list event) (c c' : credentials) :
  trace_of (SetupWorkspace.authenticate E) h
    = pre ++ Called (Refresh c) (inr (VCreds c')) :: post ->
  exists result,
    post = [Called (WriteFile "token.json" (creds_to_json E c')) result] /\
    (result = inr VNone ->
     result_of (SetupWorkspace.authenticate E) h = inr (Some c')).
Proof.
  unfold trace_of, result_of. run_authenticate.
  unfold SetupWorkspace.needs_login, SetupWorkspace.can_refresh.
  repeat (branch; cbn);
    intros Hseg;
    repeat (destruct pre as [|? pre]; simplify_eq/=);
    eexists; (split; [reflexivity|]); intros; by simplify_eq/=.
Qed.

Lemma refresh_written_witness :
  exists result,
    [Called (WriteFile "token.json" "{ya29.fresh}") (inr VNone)]
      = [Called (WriteFile "token.json"
                   (creds_to_json
                      (Mock.world ["token.json"] Mock.stale [] Mock.directory Mock.all_up)
                      Mock.fresh)) result] /\
    (result = inr VNone ->
     result_of (SetupWorkspace.authenticate
                  (Mock.world ["token.json"] Mock.stale [] Mock.directory Mock.all_up))
       [] = inr (Some Mock.fresh)).
Proof.
  apply (refresh_written
           (Mock.world ["token.json"] Mock.stale [] Mock.directory Mock.all_up) []
           [Called (PathExists "token.json") (inr (VBool true));
            Called (FromAuthorizedUserFile "token.json" SetupWorkspace.SCOPES)
              (inr (VCreds Mock.stale))]
           [Called (WriteFile "token.json" "{ya29.fresh}") (inr VNone)]
           Mock.stale Mock.fresh).
  reflexivity.
Defined.

(** X5: without a token file, [authenticate] goes straight to the consent
    flow.  The run is the look-up followed by the client secret failing to
    load, or by the local server failing, or by a credential and its write
    to [token.json]; no cached credential is loaded or refreshed. *)
Theorem no_token_file_prompts (E : env) (h : list event) :
  os_path_exists E h "token.json" = false ->
  (exists e,
     SetupWorkspace.authenticate E h =
       (inl e,
        [Called (PathExists "token.json") (inr (VBool false));
         Called (FromClientSecretsFile "credentials.json" SetupWorkspace.SCOPES) (inl e)]))
  \/
  (exists e,
     SetupWorkspace.authenticate E h =
       (inl e,
        [Called (PathExists "token.json") (inr (VBool false));
         Called (FromClientSecretsFile "credentials.json" SetupWorkspace.SCOPES) (inr VNone);
         Called (RunLocalServer 0) (inl e)]))
  \/
  (exists c result,
     trace_of (SetupWorkspace.authenticate E) h =
       [Called (PathExists "token.json") (inr (VBool false));
        Called (FromClientSecretsFile "credentials.json" SetupWorkspace.SCOPES) (inr VNone);
        Called (RunLocalServer 0) (inr (VCreds c));
        Called (WriteFile "token.json" (creds_to_json E c)) result]).
Proof.
  intros Hexists. unfold trace_of. run_authenticate. rewrite Hexists. cbn.
  destruct (from_client_secrets_file E _ "credentials.json" _) as [e|[]]; cbn;
    [left; by exists e|].
  destruct (run_local_server E _ 0) as [e|c]; cbn;
    [right; left; by exists e|].
  right; right. exists c.
  destruct (write_file E _ "token.json" _) as [e|[]]; cbn; by eexists.
Qed.

Lemma no_token_file_prompts_witness :
  (exists e,
     SetupWorkspace.authenticate
       (Mock.world [] Mock.cached [] Mock.directory Mock.all_up) [] =
       (inl e,
        [Called (PathExists "token.json") (inr (VBool false));
         Called (FromClientSecretsFile "credentials.json" SetupWorkspace.SCOPES) (inl e)]))
  \/
  (exists e,
     SetupWorkspace.authenticate
       (Mock.world [] Mock.cached [] Mock.directory Mock.all_up) [] =
       (inl e,
        [Called (PathExists "token.json") (inr (VBool false));
         Called (FromClientSecretsFile "credentials.json" SetupWorkspace.SCOPES) (inr VNone);
         Called (RunLocalServer 0) (inl e)]))
  \/
  (exists c result,
     trace_of (SetupWorkspace.authenticate
                 (Mock.world [] Mock.cached [] Mock.directory Mock.all_up)) [] =
       [Called (PathExists "token.json") (inr (VBool false));
        Called (FromClientSecretsFile "credentials.json" SetupWorkspace.SCOPES) (inr VNone);
        Called (RunLocalServer 0) (inr (VCreds c));
        Called (WriteFile "token.json"
                  (creds_to_json (Mock.world [] Mock.cached [] Mock.directory Mock.all_up) c))
          result]).
Proof.
  apply (no_token_file_prompts
           (Mock.world [] Mock.cached [] Mock.directory Mock.all_up) []).
  reflexivity.
Defined.

(** X6: a cached credential that is neither valid nor refreshable (it is
    not expired, or its refresh token is absent or empty) is not refreshed:
    right after loading it, [authenticate] starts the consent flow. *)
Theorem unrefreshable_credential_prompts (E : env) (h : list event) (c : credentials) :
  os_path_exists E h "token.json" = true ->
  from_authorized_user_file E
    (h ++ [Called (PathExists "token.json") (inr (VBool true))])
    "token.json" SetupWorkspace.SCOPES = inr c ->
  valid c = false ->
  expired c = false \/ truthy (refresh_token c) = false ->
  (exists result post,
     trace_of (SetupWorkspace.authenticate E) h =
       [Called (PathExists "token.json") (inr (VBool true));
        Called (FromAuthorizedUserFile "token.json" SetupWorkspace.SCOPES) (inr (VCreds c));
        Called (FromClientSecretsFile "credentials.json" SetupWorkspace.SCOPES) result]
       ++ post) /\
  refreshes (trace_of (SetupWorkspace.authenticate E) h) = [].
Proof.
  intros Hexists Hload Hinvalid Hcannot.
  assert (Hno : expired c && truthy (refresh_token c) = false).
  { destruct Hcannot as [->| ->]; [done|apply andb_false_r]. }
  unfold trace_of. run_authenticate. rewrite Hexists. cbn. rewrite Hload. cbn.
  unfold SetupWorkspace.needs_login, SetupWorkspace.can_refresh.
  rewrite Hinvalid, Hno. cbn.
  destruct (from_client_secrets_file E _ "credentials.json" _) as [e|[]]; cbn;
    [split; [by eexists _, []|done]|].
  destruct (run_local_server E _ 0) as [e|c']; cbn;
    [split; [by eexists _, [_]|done]|].
  destruct (write_file E _ "token.json" _) as [e|[]]; cbn;
    (split; [by eexists _, [_; _]|done]).
Qed.

Lemma unrefreshable_credential_prompts_witness :
  refreshes (trace_of (SetupWorkspace.authenticate
                         (Mock.world ["token.json"] Mock.tokenless [] Mock.directory
                            Mock.all_up)) []) = [].
Proof.
  apply (unrefreshable_credential_prompts
           (Mock.world ["token.json"] Mock.tokenless [] Mock.directory Mock.all_up)
           [] Mock.tokenless); try reflexivity.
  left. reflexivity.
Defined.

(** X7: [authenticate] catches nothing.  A call that raises is the last
    event of the run and its exception is the result; and a run that ends
    with an exception ends with the call that raised it. *)
Theorem authenticate_catches_nothing (E : env) (h : list event) :
  (forall pre c e post,
     trace_of (SetupWorkspace.authenticate E) h = pre ++ Called c (inl e) :: post ->
     post = [] /\ result_of (SetupWorkspace.authenticate E) h = inl e) /\
  (forall e,
     result_of (SetupWorkspace.authenticate E) h = inl e ->
     exists pre c,
       trace_of (SetupWorkspace.authenticate E) h = pre ++ [Called c (inl e)]).
Proof.
  unfold trace_of, result_of. run_authenticate.
  unfold SetupWorkspace.needs_login, SetupWorkspace.can_refresh.
  repeat (branch; cbn); (split;
    [ intros pre c' e' post Hseg;
      repeat (destruct pre as [|? pre]; simplify_eq/=); done
    | intros e' He'; simplify_eq/=;
      first [ by eexists [], _ | by eexists [_], _ | by eexists [_; _], _
            | by eexists [_; _; _], _ | by eexists [_; _; _; _], _ ] ]).
Qed.

(** ** More on [create_groups] *)

Section MoreRows.
Context (E : env) (svc : service).

Lemma owners_run_listed r owners t res :
  owners_run svc r owners t res ->
  Forall (fun ev => exists owner result,
            owner ∈ owners /\ ev = member_event svc r owner result) t.
Proof.
  induction 1 as [|owner rest t res _ IH|owner rest e].
  - constructor.
  - constructor.
    + exists owner, (inr VNone). split; [apply list_elem_of_here|done].
    + eapply Forall_impl; [exact IH|].
      intros ev (o & result & Hin & ->). exists o, result.
      split; [by apply list_elem_of_further|done].
  - repeat constructor. exists owner, (inl e).
    split; [apply list_elem_of_here|done].
Qed.

Lemma owners_events rows r text t res :
  r ∈ rows -> r !! "Owners" = Some (Some text) ->
  owners_run svc r (split ";" text) t res ->
  Forall (create_groups_event svc rows) t.
Proof.
  intros Hin Ho Hrun. eapply Forall_impl; [by eapply owners_run_listed|].
  intros ev (owner & result & Howner & ->). cbn. split; [done|].
  exists r, owner. unfold listed_owners. by rewrite Ho.
Qed.

Lemma row_run_events rows r seg :
  r ∈ rows -> row_run svc r seg -> Forall (create_groups_event svc rows) seg.
Proof.
  intros Hin Hrun.
  assert (Hgroup : forall result, create_groups_event svc rows (group_event svc r result)).
  { intros result. cbn. eauto. }
  destruct Hrun as [e| | |text t Ho Hrun|text t e Ho Hrun].
  - constructor; [apply Hgroup|]. by repeat constructor.
  - constructor; [apply Hgroup|]. by repeat constructor.
  - constructor; [apply Hgroup|]. by repeat constructor.
  - constructor; [apply Hgroup|]. constructor; [exact I|].
    by eapply owners_events.
  - constructor; [apply Hgroup|]. constructor; [exact I|].
    apply Forall_app. split; [by eapply owners_events|]. by repeat constructor.
Qed.

Lemma loop_events rows part h :
  (forall r, r ∈ part -> r ∈ rows) ->
  Forall (create_groups_event svc rows)
    (trace_of (for_each part (SetupWorkspace.create_group E svc)) h).
Proof.
  revert h. induction part as [|r part IH]; intros h Hpart.
  - constructor.
  - assert (Hr : r ∈ rows) by apply Hpart, list_elem_of_here.
    assert (Hrest : forall r', r' ∈ part -> r' ∈ rows).
    { intros r' Hr'. by apply Hpart, list_elem_of_further. }
    destruct (create_group_cases E svc r) as [Hcols|(column & _ & _ & Hrun)].
    + unfold trace_of. rewrite create_groups_next by done. cbn [snd].
      apply Forall_app. split; [|by apply IH].
      eapply row_run_events; [done|]. by apply create_group_run.
    + unfold trace_of.
      rewrite (for_each_raised _ _ _ _ (KeyError column))
        by (unfold result_of; by rewrite Hrun).
      cbn [snd]. unfold trace_of. rewrite Hrun. constructor.
Qed.

(** The loop over rows that all get past line 51, followed by more rows. *)
Lemma create_groups_prefix good tail h :
  Forall body_columns good ->
  exists segs,
    Forall2 (row_run svc) good segs /\
    for_each (good ++ tail) (SetupWorkspace.create_group E svc) h =
      (result_of (for_each tail (SetupWorkspace.create_group E svc)) (h ++ concat segs),
       concat segs
         ++ trace_of (for_each tail (SetupWorkspace.create_group E svc)) (h ++ concat segs)).
Proof.
  intros Hgood. revert h.
  induction Hgood as [|r good Hr _ IH]; intros h.
  - exists []. split; [constructor|]. cbn [app concat]. rewrite app_nil_r.
    apply run_eta.
  - cbn [app]. rewrite create_groups_next by done.
    set (seg := trace_of (SetupWorkspace.create_group E svc r) h).
    destruct (IH (h ++ seg)) as (segs & Hsegs & Hrun).
    exists (seg :: segs).
    split; [constructor; [by apply create_group_run|done]|].
    rewrite (run_eta (for_each (good ++ tail) _) (h ++ seg)) in Hrun.
    inversion Hrun as [[Hres Htrace]]. rewrite Hres, Htrace.
    cbn [concat]. by rewrite <- !app_assoc.
Qed.

Lemma body_columns_present r column :
  body_columns r ->
  column ∈ ["Group Email"; "Group Name"; "Description"] ->
  r !! column = None -> False.
Proof.
  unfold body_columns. rewrite Forall_forall. intros Hcols Hin Hnone.
  destruct (Hcols _ Hin) as [field Hfield]. congruence.
Qed.

Lemma loop_result rows h :
  (result_of (for_each rows (SetupWorkspace.create_group E svc)) h = inr tt
   <-> Forall body_columns rows) /\
  (forall e,
     result_of (for_each rows (SetupWorkspace.create_group E svc)) h = inl e ->
     exists column,
       e = KeyError column /\
       column ∈ ["Group Email"; "Group Name"; "Description"] /\
       Exists (fun r => r !! column = None) rows).
Proof.
  revert h. induction rows as [|r rows IH]; intros h.
  - split; [split; [constructor|done]|]. intros e He. discriminate He.
  - destruct (create_group_cases E svc r) as [Hcols|(column & Hin & Hnone & Hrun)].
    + unfold result_of. rewrite create_groups_next by done. cbn [fst].
      destruct (IH (h ++ trace_of (SetupWorkspace.create_group E svc r) h))
        as [Hiff Hexn].
      split.
      * rewrite Forall_cons. rewrite Hiff. tauto.
      * intros e He. destruct (Hexn e He) as (column & -> & Hin & Hex).
        exists column. split; [done|]. split; [done|]. by apply Exists_cons_tl.
    + unfold result_of.
      rewrite (for_each_raised _ _ _ _ (KeyError column))
        by (unfold result_of; by rewrite Hrun).
      cbn [fst]. split.
      * split; [discriminate|]. rewrite Forall_cons. intros [Hcols _].
        destruct (body_columns_present r column Hcols Hin Hnone).
      * intros e He. inversion He; subst. exists column.
        split; [done|]. split; [done|]. by apply Exists_cons_hd.
Qed.

(** The result of the loop, then of the read that follows the rows. *)
Lemma create_groups_opened rows failure h :
  open_csv E h csv_path = inr (rows, failure) ->
  SetupWorkspace.create_groups E svc h =
    (match result_of (for_each rows (SetupWorkspace.create_group E svc))
             (h ++ [Called (OpenCsv csv_path) (inr (VRows rows))]) with
     | inl e => inl e
     | inr _ => match failure with Some e => inl e | None => inr tt end
     end,
     Called (OpenCsv csv_path) (inr (VRows rows))
       :: trace_of (for_each rows (SetupWorkspace.create_group E svc))
            (h ++ [Called (OpenCsv csv_path) (inr (VRows rows))])).
Proof.
  intros Hopen. unfold SetupWorkspace.create_groups, bind, perform.
  fold csv_path. rewrite Hopen. cbn [sum_map id fst snd].
  rewrite (run_eta (for_each rows _) _).
  destruct (result_of (for_each rows _) _) as [e|[]]; [done|].
  destruct failure; cbn; by rewrite app_nil_r.
Qed.

Lemma create_groups_not_opened h e :
  open_csv E h csv_path = inl e ->
  SetupWorkspace.create_groups E svc h = (inl e, [Called (OpenCsv csv_path) (inl e)]).
Proof.
  intros Hopen. unfold SetupWorkspace.create_groups, bind, perform.
  fold csv_path. by rewrite Hopen.
Qed.

Lemma create_groups_events_all rows failure h :
  open_csv E h csv_path = inr (rows, failure) ->
  Forall (create_groups_event svc rows) (trace_of (SetupWorkspace.create_groups E svc) h).
Proof.
  intros Hopen. unfold trace_of. rewrite (create_groups_opened rows failure) by done.
  cbn [snd]. constructor; [done|]. by apply loop_events.
Qed.
End MoreRows.

(** X8: the first row without one of the columns [Group Email],
    [Group Name], [Description] ends [create_groups] with [KeyError]: the
    rows before it have been processed, each with its group insert, and
    nothing is issued for the row itself or for any row after it. *)
Theorem create_groups_stops_at_first_bad_row (E : env) (svc : service)
    (h : list event) (good : list row) (bad : row) (rest : list row)
    (failure : option exn) :
  open_csv E h csv_path = inr (good ++ bad :: rest, failure) ->
  Forall body_columns good ->
  ~ body_columns bad ->
  exists column segs,
    column ∈ ["Group Email"; "Group Name"; "Description"] /\
    bad !! column = None /\
    SetupWorkspace.create_groups E svc h =
      (inl (KeyError column),
       Called (OpenCsv csv_path) (inr (VRows (good ++ bad :: rest))) :: concat segs) /\
    Forall2 row_served good segs /\
    group_inserts (concat segs) = map group_body_of good.
Proof.
  intros Hopen Hgood Hbad.
  destruct (create_group_cases E svc bad) as [Hcols|(column & Hin & Hnone & Hrun)];
    [done|].
  set (h0 := h ++ [Called (OpenCsv csv_path) (inr (VRows (good ++ bad :: rest)))]).
  destruct (create_groups_prefix E svc good (bad :: rest) h0 Hgood)
    as (segs & Hsegs & Hloop).
  assert (Hserved : Forall2 row_served good segs).
  { eapply Forall2_impl; [exact Hsegs|]. apply row_run_served. }
  exists column, segs. split; [done|]. split; [done|].
  split; [|split; [done|by apply served_group_inserts]].
  rewrite (create_groups_opened E svc (good ++ bad :: rest) failure) by done.
  fold h0. unfold result_of at 1, trace_of at 1. rewrite Hloop. cbn [fst snd].
  unfold result_of, trace_of.
  rewrite (for_each_raised _ _ _ _ (KeyError column))
    by (unfold result_of; by rewrite Hrun).
  cbn [fst snd]. unfold trace_of. rewrite Hrun. cbn [snd].
  by rewrite app_nil_r.
Qed.

Lemma create_groups_stops_at_first_bad_row_witness :
  exists column segs,
    column ∈ ["Group Email"; "Group Name"; "Description"] /\
    Mock.nameless !! column = None /\
    SetupWorkspace.create_groups
      (Mock.world [] Mock.cached Sample.broken_file Mock.directory Mock.all_up)
      Mock.admin [] =
      (inl (KeyError column),
       Called (OpenCsv csv_path) (inr (VRows Sample.broken_file)) :: concat segs) /\
    Forall2 row_served [Mock.legal] segs /\
    group_inserts (concat segs) = map group_body_of [Mock.legal].
Proof.
  apply (create_groups_stops_at_first_bad_row
           (Mock.world [] Mock.cached Sample.broken_file Mock.directory Mock.all_up)
           Mock.admin [] [Mock.legal] Mock.nameless [Mock.finance] None).
  - reflexivity.
  - repeat constructor; eexists; vm_compute; reflexivity.
  - unfold body_columns. rewrite !Forall_cons.
    intros (_ & [name Hname] & _). vm_compute in Hname. discriminate.
Defined.

(** X9: once the CSV file has been opened, [create_groups] returns
    normally exactly when every row read has the columns [Group Email],
    [Group Name] and [Description] and no read of the file raised.  The only
    exceptions that can escape it are the [KeyError] of such a column
    missing from a row and, once all the rows read have been processed, the
    exception of the read that failed; never the failure of an insert. *)
Theorem create_groups_escaping_exception (E : env) (svc : service)
    (h : list event) (rows : list row) (failure : option exn) :
  open_csv E h csv_path = inr (rows, failure) ->
  (result_of (SetupWorkspace.create_groups E svc) h = inr tt
   <-> Forall body_columns rows /\ failure = None) /\
  (forall e,
     result_of (SetupWorkspace.create_groups E svc) h = inl e ->
     (exists column,
        e = KeyError column /\
        column ∈ ["Group Email"; "Group Name"; "Description"] /\
        Exists (fun r => r !! column = None) rows) \/
     (Forall body_columns rows /\ failure = Some e)).
Proof.
  intros Hopen. unfold result_of.
  rewrite (create_groups_opened E svc rows failure) by done. cbn [fst].
  destruct (loop_result E svc rows (h ++ [Called (OpenCsv csv_path) (inr (VRows rows))]))
    as [Hiff Hexn].
  destruct (result_of (for_each rows _) _) as [e|[]].
  - split.
    + split; [discriminate|]. intros [Hcols _].
      apply Hiff in Hcols. discriminate Hcols.
    + intros e' [= <-]. left. by apply Hexn.
  - assert (Hcols : Forall body_columns rows) by (by apply Hiff).
    destruct failure as [e|].
    + split.
      * split; [discriminate|]. by intros [_ ?].
      * intros e' [= <-]. by right.
    + split; [done|]. discriminate.
Qed.

Lemma create_groups_escaping_exception_witness :
  (exists column,
     Mock.unavailable = KeyError column /\
     column ∈ ["Group Email"; "Group Name"; "Description"] /\
     Exists (fun r => r !! column = None) [Mock.legal; Mock.ownerless]) \/
  (Forall body_columns [Mock.legal; Mock.ownerless] /\
   Some Mock.unavailable = Some Mock.unavailable).
Proof.
  apply (create_groups_escaping_exception
           (Sample.torn [Mock.legal; Mock.ownerless] Mock.unavailable Mock.groups_down)
           Mock.admin [] [Mock.legal; Mock.ownerless] (Some Mock.unavailable)).
  - reflexivity.
  - reflexivity.
Defined.

(** X10: whatever the rows hold and whatever the calls answer,
    [create_groups] issues nothing but the opening of the CSV file, the
    insert of the group of a row, the insert of an owner listed in a row
    into that row's group with role [OWNER], and console output; every
    insert goes through the client it was given. *)
Theorem create_groups_issues_only_inserts (E : env) (svc : service)
    (h : list event) (rows : list row) (failure : option exn) :
  open_csv E h csv_path = inr (rows, failure) ->
  Forall (create_groups_event svc rows) (trace_of (SetupWorkspace.create_groups E svc) h).
Proof.
  apply create_groups_events_all.
Qed.

Lemma create_groups_issues_only_inserts_witness :
  Forall (create_groups_event Mock.admin Sample.broken_file)
    (trace_of (SetupWorkspace.create_groups
                 (Mock.world [] Mock.cached Sample.broken_file Mock.directory
                    Mock.members_down) Mock.admin) []).
Proof.
  apply (create_groups_issues_only_inserts
           (Mock.world [] Mock.cached Sample.broken_file Mock.directory Mock.members_down)
           Mock.admin [] Sample.broken_file None).
  reflexivity.
Defined.

(** ** The owners of a row *)

Lemma split_length (sep : ascii) (s : string) :
  length (split sep s) = S (count_char sep s).
Proof.
  induction s as [|c s IH]; [done|].
  cbn [split count_char]. destruct (Ascii.eqb c sep).
  - cbn. by rewrite IH.
  - destruct (split sep s) as [|piece pieces]; [discriminate IH|].
    cbn in *. done.
Qed.

(** X11: a row whose group insert and member inserts all return gets one
    member insert more than its [Owners] field has semicolons, so never
    none: an empty [Owners] field gives one insert, of the empty address. *)
Theorem owners_field_inserts (E : env) (svc : service) (h : list event)
    (r : row) (text : string) :
  body_columns r ->
  r !! "Owners" = Some (Some text) ->
  quiet (trace_of (SetupWorkspace.create_group E svc r) h) ->
  length (member_inserts (trace_of (SetupWorkspace.create_group E svc r) h))
    = S (count_char ";" text) /\
  (text = EmptyString ->
   member_inserts (trace_of (SetupWorkspace.create_group E svc r) h)
     = [(mjoin (r !! "Group Email"), MemberBody EmptyString "OWNER")]).
Proof.
  intros Hcols Ho Hq.
  destruct (create_group_run E svc r h Hcols) as [_ Hrun].
  rewrite (row_run_quiet_members svc r _ Hrun Hq).
  unfold owner_calls, listed_owners. rewrite Ho. split.
  - by rewrite length_map, split_length.
  - by intros ->.
Qed.

Lemma owners_field_inserts_witness :
  length (member_inserts
            (trace_of (SetupWorkspace.create_group
                         (Mock.world [] Mock.cached [] Mock.directory Mock.all_up)
                         Mock.admin Sample.unowned) []))
    = S (count_char ";" EmptyString) /\
  (EmptyString = EmptyString ->
   member_inserts
     (trace_of (SetupWorkspace.create_group
                  (Mock.world [] Mock.cached [] Mock.directory Mock.all_up)
                  Mock.admin Sample.unowned) [])
     = [(mjoin (Sample.unowned !! "Group Email"), MemberBody EmptyString "OWNER")]).
Proof.
  apply (owners_field_inserts
           (Mock.world [] Mock.cached [] Mock.directory Mock.all_up)
           Mock.admin [] Sample.unowned EmptyString).
  - repeat constructor; eexists; vm_compute; reflexivity.
  - vm_compute. reflexivity.
  - vm_compute. repeat constructor.
Defined.

(** ** [strip] *)

Section SkipSpaces.
Context (two : ascii -> ascii -> bool) (three : ascii -> ascii -> ascii -> bool).

Lemma skip_spaces_head_bounded (n : nat) (s : list ascii) :
  length s <= n -> head_space two three (skip_spaces two three s) = false.
Proof.
  revert s. induction n as [|n IH]; intros s Hlen.
  - destruct s; [done|cbn in Hlen; lia].
  - destruct s as [|c1 s1]; [done|]. cbn [skip_spaces].
    destruct (isspace c1) eqn:H1; [apply IH; cbn in Hlen; lia|].
    destruct s1 as [|c2 s2]; [cbn; by rewrite H1|].
    destruct (two c1 c2) eqn:H2; [apply IH; cbn in Hlen; lia|].
    destruct s2 as [|c3 s3]; [cbn; by rewrite H1, H2|].
    destruct (three c1 c2 c3) eqn:H3; [apply IH; cbn in Hlen; lia|].
    cbn. by rewrite H1, H2, H3.
Qed.

Lemma skip_spaces_head (s : list ascii) :
  head_space two three (skip_spaces two three s) = false.
Proof. by apply (skip_spaces_head_bounded (length s)). Qed.

Lemma skip_spaces_suffix_bounded (n : nat) (s : list ascii) :
  length s <= n -> exists dropped, s = dropped ++ skip_spaces two three s.
Proof.
  revert s. induction n as [|n IH]; intros s Hlen.
  - destruct s; [by exists []|cbn in Hlen; lia].
  - destruct s as [|c1 s1]; [by exists []|]. cbn [skip_spaces].
    destruct (isspace c1).
    { destruct (IH s1) as [d Hd]; [cbn in Hlen; lia|].
      exists (c1 :: d). cbn. by rewrite <- Hd. }
    destruct s1 as [|c2 s2]; [by exists []|].
    destruct (two c1 c2).
    { destruct (IH s2) as [d Hd]; [cbn in Hlen; lia|].
      exists (c1 :: c2 :: d). cbn. by rewrite <- Hd. }
    destruct s2 as [|c3 s3]; [by exists []|].
    destruct (three c1 c2 c3); [|by exists []].
    destruct (IH s3) as [d Hd]; [cbn in Hlen; lia|].
    exists (c1 :: c2 :: c3 :: d). cbn. by rewrite <- Hd.
Qed.

Lemma skip_spaces_suffix (s : list ascii) :
  exists dropped, s = dropped ++ skip_spaces two three s.
Proof. by apply (skip_spaces_suffix_bounded (length s)). Qed.

Lemma head_space_app (a b : list ascii) :
  head_space two three a = true -> head_space two three (a ++ b) = true.
Proof.
  destruct a as [|c1 [|c2 [|c3 a]]]; cbn; try done.
  - rewrite orb_false_r. by intros ->.
  - destruct (isspace c1); [done|]. cbn. rewrite orb_false_r. intros ->.
    by destruct b.
Qed.
End SkipSpaces.

Lemma strip_no_space_at_head (s : string) : starts_with_space (strip s) = false.
Proof.
  unfold starts_with_space, strip, lstrip.
  rewrite list_ascii_of_string_of_list_ascii. apply skip_spaces_head.
Qed.

Lemma strip_no_space_at_end (s : string) : ends_with_space (strip s) = false.
Proof.
  unfold ends_with_space, strip, lstrip, rstrip.
  rewrite !list_ascii_of_string_of_list_ascii.
  set (back := skip_spaces _ _ (rev (list_ascii_of_string s))).
  destruct (skip_spaces_suffix isspace2 isspace3 (rev back)) as [dropped Hd].
  set (kept := skip_spaces isspace2 isspace3 (rev back)) in *.
  destruct (head_space _ _ (rev kept)) eqn:Hend; [|done].
  apply (head_space_app _ _ _ (rev dropped)) in Hend.
  rewrite <- rev_app_distr, <- Hd, rev_involutive in Hend.
  unfold back in Hend. by rewrite skip_spaces_head in Hend.
Qed.

(** X12: every member insert [create_groups] issues carries the role
    [OWNER] and an address that neither begins nor ends with a white-space
    character, of one byte or more. *)
Theorem member_inserts_stripped (E : env) (svc : service) (h : list event)
    (key : option string) (body : member_body) :
  (key, body) ∈ member_inserts (trace_of (SetupWorkspace.create_groups E svc) h) ->
  mb_role body = "OWNER" /\
  starts_with_space (mb_email body) = false /\
  ends_with_space (mb_email body) = false.
Proof.
  unfold member_inserts. rewrite list_elem_of_omap.
  intros (ev & Hin & Hev).
  destruct (open_csv E h csv_path) as [e|[rows failure]] eqn:Hopen.
  - unfold trace_of in Hin. rewrite (create_groups_not_opened E svc h e) in Hin by done.
    cbn [snd] in Hin. apply list_elem_of_singleton in Hin as ->. discriminate Hev.
  - pose proof (create_groups_events_all E svc rows failure h Hopen) as Hall.
    rewrite Forall_forall in Hall. specialize (Hall ev Hin).
    destruct ev as [[]|]; try discriminate Hev.
    cbn in Hev, Hall. inversion Hev; subst.
    destruct Hall as (_ & r & owner & _ & _ & _ & ->). cbn.
    split; [done|].
    split; [apply strip_no_space_at_head|apply strip_no_space_at_end].
Qed.

Lemma member_inserts_stripped_witness :
  mb_role (MemberBody "bob@aribia.llc" "OWNER") = "OWNER" /\
  starts_with_space (mb_email (MemberBody "bob@aribia.llc" "OWNER")) = false /\
  ends_with_space (mb_email (MemberBody "bob@aribia.llc" "OWNER")) = false.
Proof.
  apply (member_inserts_stripped
           (Mock.world [] Mock.cached [Mock.legal] Mock.directory Mock.all_up)
           Mock.admin [] (Some "legal@aribia.llc")).
  vm_compute. apply list_elem_of_further, list_elem_of_here.
Defined.

(** ** What the authentication functions issue *)

Lemma authenticate_events (E : env) (h : list event) :
  Forall authenticate_event (trace_of (SetupWorkspace.authenticate E) h).
Proof.
  unfold trace_of. run_authenticate.
  unfold SetupWorkspace.needs_login, SetupWorkspace.can_refresh.
  repeat (branch; cbn); by repeat constructor.
Qed.

(** X13: [authenticate] prints nothing and calls nothing but the look-up
    and the load of [token.json], a refresh, the consent flow on
    [credentials.json] and the write of [token.json]. *)
Theorem authenticate_issues_only (E : env) (h : list event) :
  Forall authenticate_event (trace_of (SetupWorkspace.authenticate E) h).
Proof.
  apply authenticate_events.
Qed.

Ltac classify :=
  repeat first [ apply Forall_nil_2
               | apply Forall_cons_2; [cbn; auto|] ].

Section AttemptEvents.
Context (E : env) (paths : list string).

Lemma try_adc_events h :
  Forall (try_authentication_event paths) (trace_of (QuickAuth.try_adc E) h).
Proof.
  unfold trace_of, QuickAuth.try_adc. run_attempt; classify.
Qed.

Lemma try_service_account_events path h :
  path ∈ paths ->
  Forall (try_authentication_event paths)
    (trace_of (QuickAuth.try_service_account E path) h).
Proof.
  intros Hpath. unfold trace_of, QuickAuth.try_service_account.
  run_attempt; classify.
Qed.

Lemma try_gcloud_events h :
  Forall (try_authentication_event paths) (trace_of (QuickAuth.try_gcloud E) h).
Proof.
  unfold trace_of, QuickAuth.try_gcloud. run_attempt; classify.
Qed.

Lemma try_service_accounts_events part h :
  (forall p, p ∈ part -> p ∈ paths) ->
  Forall (try_authentication_event paths)
    (trace_of (QuickAuth.try_service_accounts E part) h).
Proof.
  revert h. induction part as [|path rest IH]; intros h Hpart.
  - constructor.
  - assert (Hpath : path ∈ paths) by apply Hpart, list_elem_of_here.
    assert (Hrest : forall p, p ∈ rest -> p ∈ paths).
    { intros p Hp. by apply Hpart, list_elem_of_further. }
    set (ev := Called (PathExists path) (inr (VBool (os_path_exists E h path)))).
    assert (Hev : try_authentication_event paths ev) by done.
    unfold trace_of. cbn [QuickAuth.try_service_accounts].
    unfold bind at 1, perform. cbn [sum_map id]. fold ev.
    destruct (os_path_exists E h path) eqn:Hexists.
    + pose proof (try_service_account_events path (h ++ [ev]) Hpath) as H1.
      destruct (try_service_account_run E path (h ++ [ev]))
        as (r1 & t1 & Hrun1 & _).
      unfold trace_of in H1. rewrite Hrun1 in H1. cbn [snd] in H1.
      unfold bind. rewrite Hrun1.
      destruct r1 as [working|].
      * cbn. constructor; [done|]. by rewrite app_nil_r.
      * pose proof (IH ((h ++ [ev]) ++ t1) Hrest) as H2.
        unfold trace_of in H2.
        destruct (QuickAuth.try_service_accounts E rest ((h ++ [ev]) ++ t1)) as [r2 t2].
        cbn in *. constructor; [done|]. by apply Forall_app.
    + pose proof (IH (h ++ [ev]) Hrest) as H2. unfold trace_of in H2.
      destruct (QuickAuth.try_service_accounts E rest (h ++ [ev])) as [r2 t2].
      cbn in *. by constructor.
Qed.
End AttemptEvents.

Lemma try_authentication_events (E : env) (h : list event) :
  Forall (try_authentication_event (QuickAuth.service_account_paths E))
    (trace_of (QuickAuth.try_authentication E) h).
Proof.
  set (greeting := Printed "🔐 Attempting Google Workspace authentication...").
  unfold trace_of, QuickAuth.try_authentication.
  pose proof (try_service_accounts_events E (QuickAuth.service_account_paths E)
                (QuickAuth.service_account_paths E)) as Hkeys.
  pose proof (try_adc_events E (QuickAuth.service_account_paths E)) as Hadc.
  pose proof (try_gcloud_events E (QuickAuth.service_account_paths E)) as Hgcloud.
  revert Hkeys Hadc Hgcloud.
  generalize (QuickAuth.service_account_paths E). intros paths Hkeys Hadc Hgcloud.
  unfold bind at 1, print. fold greeting.
  specialize (Hadc ([] ++ h ++ [greeting])). revert Hadc. cbn [app].
  destruct (try_adc_run E (h ++ [greeting])) as (r1 & t1 & Hrun1 & _).
  unfold trace_of. unfold bind at 1. rewrite Hrun1. cbn [snd]. intros Hadc.
  destruct r1 as [working|].
  { cbn. constructor; [done|]. by rewrite app_nil_r. }
  specialize (Hkeys ((h ++ [greeting]) ++ t1) (fun p Hp => Hp)).
  destruct (try_service_accounts_run E paths ((h ++ [greeting]) ++ t1))
    as (r2 & t2 & Hrun2 & _).
  unfold trace_of in Hkeys. rewrite Hrun2 in Hkeys. cbn [snd] in Hkeys.
  unfold bind at 1. rewrite Hrun2.
  destruct r2 as [working|].
  { cbn. constructor; [done|]. rewrite app_nil_r. by apply Forall_app. }
  specialize (Hgcloud (((h ++ [greeting]) ++ t1) ++ t2)).
  destruct (try_gcloud_run E (((h ++ [greeting]) ++ t1) ++ t2))
    as (r3 & t3 & Hrun3 & _).
  unfold trace_of in Hgcloud. rewrite Hrun3 in Hgcloud. cbn [snd] in Hgcloud.
  unfold bind. rewrite Hrun3.
  destruct r3 as [working|]; cbn; (constructor; [done|]);
    rewrite app_nil_r; repeat (apply Forall_app; split); done.
Qed.

(** X14: all [try_authentication] issues is console output, [default()]
    with the scopes of the script or without arguments, the look-up and the
    load of a listed key file, the build of the [admin] [directory_v1]
    client, the domains list on [my_customer] through such a client, and
    the [gcloud] login command; it issues no other call: no insert, no
    users or groups listing, no write of a file by the script itself. *)
Theorem try_authentication_issues_only (E : env) (h : list event) :
  Forall (try_authentication_event (QuickAuth.service_account_paths E))
    (trace_of (QuickAuth.try_authentication E) h).
Proof.
  apply try_authentication_events.
Qed.

(** ** The entry point of [setup_workspace.py] *)

Section SetupMain.
Context (E : env) (h : list event).

Lemma setup_main_run :
  match result_of (SetupWorkspace.authenticate E) (h ++ setup_banner) with
  | inl e =>
      SetupWorkspaceMain.main E h =
        (inl e, setup_banner ++ trace_of (SetupWorkspace.authenticate E) (h ++ setup_banner))
  | inr None => False
  | inr (Some c) =>
      match build E (h ++ setup_banner
                       ++ trace_of (SetupWorkspace.authenticate E) (h ++ setup_banner))
              "admin" "directory_v1" c with
      | inl e =>
          SetupWorkspaceMain.main E h =
            (inl e,
             setup_banner ++ trace_of (SetupWorkspace.authenticate E) (h ++ setup_banner)
               ++ [build_event c (inl e)])
      | inr _ =>
          SetupWorkspaceMain.main E h =
            (match result_of (SetupWorkspace.create_groups E (Service "admin" "directory_v1" c))
                     (h ++ setup_banner
                        ++ trace_of (SetupWorkspace.authenticate E) (h ++ setup_banner)
                        ++ [build_event c (inr VNone); creating_line]) with
             | inl e => inl e
             | inr _ => inr tt
             end,
             setup_banner ++ trace_of (SetupWorkspace.authenticate E) (h ++ setup_banner)
               ++ build_event c (inr VNone) :: creating_line
               :: trace_of (SetupWorkspace.create_groups E (Service "admin" "directory_v1" c))
                    (h ++ setup_banner
                       ++ trace_of (SetupWorkspace.authenticate E) (h ++ setup_banner)
                       ++ [build_event c (inr VNone); creating_line])
               ++ match result_of (SetupWorkspace.create_groups E
                                     (Service "admin" "directory_v1" c))
                          (h ++ setup_banner
                             ++ trace_of (SetupWorkspace.authenticate E) (h ++ setup_banner)
                             ++ [build_event c (inr VNone); creating_line]) with
                  | inl e => []
                  | inr _ => complete_line :: next_steps
                  end)
      end
  end.
Proof.
  destruct (result_of (SetupWorkspace.authenticate E) (h ++ setup_banner))
    as [e|[c|]] eqn:Hres.
  - unfold SetupWorkspaceMain.main, bind, print.
    rewrite <- ?app_assoc. cbn [app]. fold setup_banner.
    by rewrite (run_eta (SetupWorkspace.authenticate E) (h ++ setup_banner)), Hres.
  - destruct (build E _ "admin" "directory_v1" c) as [e|[]] eqn:Hbuild.
    + unfold SetupWorkspaceMain.main, SetupWorkspaceMain.build_service,
        QuickAuth.build_admin, bind, print, perform, ret.
      rewrite <- ?app_assoc. cbn [app]. fold setup_banner.
      rewrite (run_eta (SetupWorkspace.authenticate E) (h ++ setup_banner)), Hres.
      rewrite <- ?app_assoc. cbn [app]. rewrite Hbuild. cbn [sum_map id app].
      by rewrite ?app_nil_r.
    + unfold SetupWorkspaceMain.main, SetupWorkspaceMain.build_service,
        QuickAuth.build_admin, bind, print, perform, ret.
      rewrite <- ?app_assoc. cbn [app]. fold setup_banner.
      rewrite (run_eta (SetupWorkspace.authenticate E) (h ++ setup_banner)), Hres.
      rewrite <- ?app_assoc. cbn [app]. rewrite Hbuild. cbn [sum_map id].
      rewrite <- ?app_assoc. cbn [app].
      fold (build_event c (inr VNone)). fold creating_line.
      match goal with
      | |- context [SetupWorkspace.create_groups E ?s ?hist] =>
          rewrite (run_eta (SetupWorkspace.create_groups E s) hist)
      end.
      destruct (result_of (SetupWorkspace.create_groups _ _) _) as [e|[]]; cbn [app].
      * by rewrite ?app_nil_r.
      * done.
  - by destruct (authenticate_result_some E _ _ Hres).
Qed.
End SetupMain.

Lemma authenticate_event_quiet (ev : event) :
  authenticate_event ev ->
  is_insert ev = false /\ is_open ev = false /\ ev <> complete_line.
Proof.
  destruct ev as [[]|]; cbn; try done.
Qed.

Lemma authenticate_run_quiet (E : env) (h : list event) :
  Forall (fun ev => is_insert ev = false /\ is_open ev = false /\ ev <> complete_line)
    (trace_of (SetupWorkspace.authenticate E) h).
Proof.
  eapply Forall_impl; [apply authenticate_events|]. apply authenticate_event_quiet.
Qed.

(** X15: when [authenticate] or the build of the client raises, [main]
    ends with that exception: the CSV file is not opened, nothing is
    inserted and the completion line is not printed. *)
Theorem setup_main_stops_before_groups (E : env) (h : list event) (e : exn) :
  result_of (SetupWorkspace.authenticate E) (h ++ setup_banner) = inl e \/
  (exists c,
     result_of (SetupWorkspace.authenticate E) (h ++ setup_banner) = inr (Some c) /\
     build E (h ++ setup_banner
                ++ trace_of (SetupWorkspace.authenticate E) (h ++ setup_banner))
       "admin" "directory_v1" c = inl e) ->
  result_of (SetupWorkspaceMain.main E) h = inl e /\
  Forall (fun ev => is_insert ev = false /\ is_open ev = false /\ ev <> complete_line)
    (trace_of (SetupWorkspaceMain.main E) h).
Proof.
  pose proof (setup_main_run E h) as Hrun.
  pose proof (authenticate_run_quiet E (h ++ setup_banner)) as Hquiet.
  intros [Hres|(c & Hres & Hbuild)]; rewrite Hres in Hrun.
  - unfold result_of, trace_of. rewrite Hrun. cbn [fst snd]. split; [done|].
    apply Forall_app. split; [by repeat constructor|done].
  - rewrite Hbuild in Hrun.
    unfold result_of, trace_of. rewrite Hrun. cbn [fst snd]. split; [done|].
    apply Forall_app. split; [by repeat constructor|].
    apply Forall_app. split; [done|by repeat constructor].
Qed.

Lemma setup_main_stops_before_groups_witness :
  result_of (SetupWorkspaceMain.main
               (Mock.world ["token.json"] Mock.stale [Mock.legal] Mock.directory
                  Sample.refresh_down)) [] = inl Mock.unavailable /\
  Forall (fun ev => is_insert ev = false /\ is_open ev = false /\ ev <> complete_line)
    (trace_of (SetupWorkspaceMain.main
                 (Mock.world ["token.json"] Mock.stale [Mock.legal] Mock.directory
                    Sample.refresh_down)) []).
Proof.
  apply (setup_main_stops_before_groups
           (Mock.world ["token.json"] Mock.stale [Mock.legal] Mock.directory
              Sample.refresh_down) [] Mock.unavailable).
  left. reflexivity.
Defined.

Lemma create_groups_client (E : env) (svc : service) (h : list event) :
  Forall (fun ev => forall s, insert_client ev = Some s -> s = svc)
    (trace_of (SetupWorkspace.create_groups E svc) h).
Proof.
  destruct (open_csv E h csv_path) as [e|[rows failure]] eqn:Hopen.
  - unfold trace_of. rewrite (create_groups_not_opened E svc h e) by done.
    cbn [snd]. by repeat constructor.
  - eapply Forall_impl; [by apply (create_groups_events_all E svc rows failure)|].
    intros [[]|]; cbn; try done.
    + by intros [-> _] s [= <-].
    + by intros [-> _] s [= <-].
Qed.

(** X16: every insert issued by [main] goes through the [admin]
    [directory_v1] client built, successfully, from the credential
    [authenticate] returned. *)
Theorem setup_main_inserts_client (E : env) (h : list event) (ev : event) (s : service) :
  ev ∈ trace_of (SetupWorkspaceMain.main E) h ->
  insert_client ev = Some s ->
  exists c,
    result_of (SetupWorkspace.authenticate E) (h ++ setup_banner) = inr (Some c) /\
    s = Service "admin" "directory_v1" c /\
    build_event c (inr VNone) ∈ trace_of (SetupWorkspaceMain.main E) h.
Proof.
  pose proof (setup_main_run E h) as Hrun.
  pose proof (authenticate_run_quiet E (h ++ setup_banner)) as Hquiet.
  rewrite Forall_forall in Hquiet.
  assert (Hno : forall ev', is_insert ev' = false -> insert_client ev' = Some s -> False).
  { intros [[]|]; cbn; congruence. }
  destruct (result_of (SetupWorkspace.authenticate E) (h ++ setup_banner))
    as [e|[c|]] eqn:Hres; [| |done].
  { unfold trace_of. rewrite Hrun. cbn [snd]. intros Hin Hclient.
    apply elem_of_app in Hin as [Hin|Hin].
    - unfold setup_banner in Hin. locate Hin; subst; discriminate Hclient.
    - destruct (Hquiet _ Hin) as (Hins & _). destruct (Hno _ Hins Hclient). }
  destruct (build E _ "admin" "directory_v1" c) as [e|[]] eqn:Hbuild.
  { unfold trace_of. rewrite Hrun. cbn [snd]. intros Hin Hclient.
    apply elem_of_app in Hin as [Hin|Hin].
    - unfold setup_banner in Hin. locate Hin; subst; discriminate Hclient.
    - apply elem_of_app in Hin as [Hin|Hin].
      + destruct (Hquiet _ Hin) as (Hins & _). destruct (Hno _ Hins Hclient).
      + locate Hin; subst; discriminate Hclient. }
  unfold trace_of. rewrite Hrun. cbn [snd]. intros Hin Hclient.
  exists c. split; [done|]. split.
  2:{ rewrite elem_of_app, elem_of_app, elem_of_cons. auto. }
  pose proof (create_groups_client E (Service "admin" "directory_v1" c)
                (h ++ setup_banner
                   ++ trace_of (SetupWorkspace.authenticate E) (h ++ setup_banner)
                   ++ [build_event c (inr VNone); creating_line])) as Hgroups.
  rewrite Forall_forall in Hgroups.
  apply elem_of_app in Hin as [Hin|Hin].
  { unfold setup_banner in Hin. locate Hin; subst; discriminate Hclient. }
  apply elem_of_app in Hin as [Hin|Hin].
  { destruct (Hquiet _ Hin) as (Hins & _). destruct (Hno _ Hins Hclient). }
  apply elem_of_cons in Hin as [->|Hin]; [discriminate Hclient|].
  apply elem_of_cons in Hin as [->|Hin]; [discriminate Hclient|].
  apply elem_of_app in Hin as [Hin|Hin]; [by apply (Hgroups ev)|].
  destruct (result_of (SetupWorkspace.create_groups _ _) _) as [e'|[]].
  - by apply elem_of_nil in Hin.
  - unfold next_steps in Hin. locate Hin; subst; discriminate Hclient.
Qed.

Lemma setup_main_inserts_client_witness :
  exists c,
    result_of (SetupWorkspace.authenticate
                 (Mock.world ["token.json"] Mock.stale [Mock.finance] Mock.directory
                    Mock.all_up)) ([] ++ setup_banner) = inr (Some c) /\
    Mock.admin = Service "admin" "directory_v1" c /\
    build_event c (inr VNone)
      ∈ trace_of (SetupWorkspaceMain.main
                    (Mock.world ["token.json"] Mock.stale [Mock.finance] Mock.directory
                       Mock.all_up)) [].
Proof.
  apply (setup_main_inserts_client
           (Mock.world ["token.json"] Mock.stale [Mock.finance] Mock.directory Mock.all_up)
           [] (Called (GroupsInsert Mock.admin (group_body_of Mock.finance)) (inr VNone))).
  - vm_compute. repeat first [apply list_elem_of_here | apply list_elem_of_further].
  - reflexivity.
Defined.

Lemma no_insert_no_group (t : list event) :
  Forall (fun ev => is_insert ev = false) t ->
  group_inserts t = [] /\ member_inserts t = [].
Proof.
  induction 1 as [|ev t Hev _ [IHg IHm]]; [done|].
  destruct ev as [[]|]; try discriminate Hev; done.
Qed.

(** X17: once [authenticate] has returned a credential, the client has
    been built and the CSV file has been opened, [main] returns normally
    exactly when every row read has the columns [Group Email], [Group Name]
    and [Description] and no read of the file raised, whatever the inserts
    answer; it then ends with the completion line and the next steps, after
    one group insert per row.  When it raises, the run ends inside
    [create_groups]. *)
Theorem setup_main_completes (E : env) (h : list event) (c : credentials)
    (rows : list row) (failure : option exn) :
  result_of (SetupWorkspace.authenticate E) (h ++ setup_banner) = inr (Some c) ->
  build E (h ++ setup_banner
             ++ trace_of (SetupWorkspace.authenticate E) (h ++ setup_banner))
    "admin" "directory_v1" c = inr tt ->
  open_csv E (h ++ setup_banner
                ++ trace_of (SetupWorkspace.authenticate E) (h ++ setup_banner)
                ++ [build_event c (inr VNone); creating_line]) csv_path
    = inr (rows, failure) ->
  (result_of (SetupWorkspaceMain.main E) h = inr tt
   <-> Forall body_columns rows /\ failure = None) /\
  (result_of (SetupWorkspaceMain.main E) h = inr tt ->
   exists pre,
     trace_of (SetupWorkspaceMain.main E) h = pre ++ complete_line :: next_steps /\
     group_inserts pre = map group_body_of rows) /\
  (forall e,
     result_of (SetupWorkspaceMain.main E) h = inl e ->
     trace_of (SetupWorkspaceMain.main E) h =
       setup_banner ++ trace_of (SetupWorkspace.authenticate E) (h ++ setup_banner)
         ++ build_event c (inr VNone) :: creating_line
         :: trace_of (SetupWorkspace.create_groups E (Service "admin" "directory_v1" c))
              (h ++ setup_banner
                 ++ trace_of (SetupWorkspace.authenticate E) (h ++ setup_banner)
                 ++ [build_event c (inr VNone); creating_line])).
Proof.
  intros Hres Hbuild Hopen.
  pose proof (setup_main_run E h) as Hrun. rewrite Hres, Hbuild in Hrun.
  set (svc := Service "admin" "directory_v1" c) in *.
  set (ta := trace_of (SetupWorkspace.authenticate E) (h ++ setup_banner)) in *.
  set (h3 := h ++ setup_banner ++ ta ++ [build_event c (inr VNone); creating_line]) in *.
  pose proof (create_groups_opened E svc rows failure h3 Hopen) as Hgroups.
  destruct (loop_result E svc rows (h3 ++ [Called (OpenCsv csv_path) (inr (VRows rows))]))
    as [Hiff _].
  assert (Hsame : result_of (SetupWorkspace.create_groups E svc) h3
                  = match result_of (for_each rows (SetupWorkspace.create_group E svc))
                            (h3 ++ [Called (OpenCsv csv_path) (inr (VRows rows))]) with
                    | inl e => inl e
                    | inr _ => match failure with Some e => inl e | None => inr tt end
                    end).
  { unfold result_of at 1. by rewrite Hgroups. }
  unfold result_of at 1 2 3, trace_of at 1 2. rewrite Hrun. cbn [fst snd].
  rewrite Hsame.
  destruct (result_of (for_each rows _) _) as [e|[]] eqn:Hloop.
  { split.
    - split; [discriminate|]. intros [Hcols _]. apply Hiff in Hcols. discriminate Hcols.
    - split; [discriminate|]. intros e' _. by rewrite app_nil_r. }
  assert (Hcols : Forall body_columns rows) by (by apply Hiff).
  destruct failure as [e|].
  { split.
    - split; [discriminate|]. by intros [_ ?].
    - split; [discriminate|]. intros e' _. by rewrite app_nil_r. }
  split; [done|]. split; [|discriminate].
  intros _.
  exists (setup_banner ++ ta ++ build_event c (inr VNone) :: creating_line
            :: trace_of (SetupWorkspace.create_groups E svc) h3).
  split; [by rewrite <- !app_assoc|].
  destruct (create_groups_segments E svc rows
              (h3 ++ [Called (OpenCsv csv_path) (inr (VRows rows))]) Hcols)
    as (segs & Hsegs & Hshape).
  assert (Htg : trace_of (SetupWorkspace.create_groups E svc) h3
                = Called (OpenCsv csv_path) (inr (VRows rows)) :: concat segs).
  { unfold trace_of at 1. rewrite Hgroups. cbn [snd]. unfold trace_of.
    by rewrite Hsegs. }
  rewrite Htg.
  destruct (no_insert_no_group ta) as [Hta _].
  { eapply Forall_impl; [apply authenticate_run_quiet|]. by intros ev (? & _). }
  unfold group_inserts in *. rewrite !omap_app, Hta. cbn.
  apply (served_group_inserts rows segs).
  eapply Forall2_impl; [exact Hshape|]. apply row_run_served.
Qed.

Lemma setup_main_completes_witness :
  result_of (SetupWorkspaceMain.main
               (Mock.world ["token.json"] Mock.cached [Mock.legal; Mock.finance]
                  Mock.directory Sample.inserts_down)) [] = inr tt
  <-> Forall body_columns [Mock.legal; Mock.finance] /\ @None exn = None.
Proof.
  apply (setup_main_completes
           (Mock.world ["token.json"] Mock.cached [Mock.legal; Mock.finance]
              Mock.directory Sample.inserts_down) [] Mock.cached
           [Mock.legal; Mock.finance] None); reflexivity.
Defined.

(** X18: when the CSV file cannot be opened, [main] ends with the
    exception of the [open], right after the line announcing the groups:
    nothing is inserted and the completion line is not printed. *)
Theorem setup_main_csv_unreadable (E : env) (h : list event) (c : credentials)
    (e : exn) :
  result_of (SetupWorkspace.authenticate E) (h ++ setup_banner) = inr (Some c) ->
  build E (h ++ setup_banner
             ++ trace_of (SetupWorkspace.authenticate E) (h ++ setup_banner))
    "admin" "directory_v1" c = inr tt ->
  open_csv E (h ++ setup_banner
                ++ trace_of (SetupWorkspace.authenticate E) (h ++ setup_banner)
                ++ [build_event c (inr VNone); creating_line]) csv_path = inl e ->
  SetupWorkspaceMain.main E h =
    (inl e,
     setup_banner ++ trace_of (SetupWorkspace.authenticate E) (h ++ setup_banner)
       ++ [build_event c (inr VNone); creating_line;
           Called (OpenCsv csv_path) (inl e)]).
Proof.
  intros Hres Hbuild Hopen.
  pose proof (setup_main_run E h) as Hrun. rewrite Hres, Hbuild in Hrun.
  rewrite Hrun. unfold result_of, trace_of.
  by rewrite (create_groups_not_opened E _ _ e Hopen).
Qed.

Lemma setup_main_csv_unreadable_witness :
  SetupWorkspaceMain.main
    (Mock.world ["token.json"] Mock.cached [] Mock.directory Sample.csv_down) [] =
    (inl Mock.unavailable,
     setup_banner
       ++ trace_of (SetupWorkspace.authenticate
                      (Mock.world ["token.json"] Mock.cached [] Mock.directory
                         Sample.csv_down)) ([] ++ setup_banner)
       ++ [build_event Mock.cached (inr VNone); creating_line;
           Called (OpenCsv csv_path) (inl Mock.unavailable)]).
Proof.
  apply (setup_main_csv_unreadable
           (Mock.world ["token.json"] Mock.cached [] Mock.directory Sample.csv_down)
           [] Mock.cached Mock.unavailable); reflexivity.
Defined.

(** ** The entry point of [quick_auth_setup.py] *)

Section QuickMain.
Context (E : env) (h : list event).

Lemma quick_main_run :
  exists r t1,
    QuickAuth.try_authentication E (h ++ quick_banner)
      = (inr (match r with
              | Some working => QuickAuth.returned working
              | None => (None, None)
              end), t1) /\
    found t1 r /\
    match r with
    | None => QuickAuthMain.main E h = (inr tt, quick_banner ++ t1 ++ manual_lines)
    | Some (c, svc) =>
        exists passed t2,
          QuickAuth.test_workspace_access E svc (h ++ quick_banner ++ t1)
            = (inr passed, t2) /\
          access_run svc passed t2 /\
          if passed then
            exists answer : exn + unit,
              QuickAuthMain.main E h =
                (answer,
                 quick_banner ++ t1 ++ t2 ++ success_lines
                   ++ [marker_write (sum_map id (fun _ => VNone) answer)])
          else
            QuickAuthMain.main E h =
              (inr tt, quick_banner ++ t1 ++ t2 ++ [insufficient_line])
    end.
Proof.
  destruct (try_authentication_run E (h ++ quick_banner))
    as (r & t1 & Hrun1 & _ & Hfound & _).
  exists r, t1. split; [done|]. split; [done|].
  unfold QuickAuthMain.main, bind, print.
  rewrite <- ?app_assoc. cbn [app]. fold quick_banner.
  rewrite Hrun1.
  destruct r as [[c svc]|].
  - cbn [QuickAuth.returned fst snd].
    destruct (test_workspace_access_run E svc (h ++ quick_banner ++ t1))
      as (passed & t2 & Hrun2 & Hshape).
    exists passed, t2. split; [done|]. split; [done|].
    rewrite <- ?app_assoc. cbn [app]. rewrite Hrun2.
    destruct passed.
    + unfold perform. rewrite <- ?app_assoc. cbn [app].
      by exists (write_file E (h ++ quick_banner ++ t1 ++ t2 ++ success_lines)
                  "auth_working.json" QuickAuthMain.marker).
    + rewrite <- ?app_assoc. cbn [app]. reflexivity.
  - unfold QuickAuthMain.manual_steps, bind, print.
    rewrite <- ?app_assoc. cbn [app]. reflexivity.
Qed.
End QuickMain.

Lemma access_run_read_only svc passed t :
  access_run svc passed t -> Forall (fun ev => read_only ev = true) t.
Proof.
  destruct 1 as [e|domains shown key Hshown|domains shown e Hshown
                |domains shown users e Hshown|domains shown users groups Hshown];
    [by repeat constructor|..];
    repeat (apply Forall_cons; split; [done|]);
    (apply Forall_app; split; [by apply printed_only_read_only|by repeat constructor]).
Qed.

(** The diagnostic passes exactly when its groups listing returned. *)
Lemma access_run_passed svc passed t :
  access_run svc passed t ->
  passed = true <->
  exists s groups, Called (GroupsList s "my_customer" 10) (inr (VResponse groups)) ∈ t.
Proof.
  destruct 1 as [e|domains shown key Hshown|domains shown e Hshown
                |domains shown users e Hshown|domains shown users groups Hshown].
  1-4: split; [discriminate|]; intros (s & g & Hin); locate Hin.
  split; [|done]. intros _. exists svc, groups. present.
Qed.

Lemma access_run_client svc passed t s customer n result :
  access_run svc passed t ->
  Called (UsersList s customer n) result ∈ t \/
  Called (GroupsList s customer n) result ∈ t ->
  s = svc.
Proof.
  destruct 1 as [e|domains shown key Hshown|domains shown e Hshown
                |domains shown users e Hshown|domains shown users groups Hshown];
    intros [Hin|Hin]; locate Hin; by injection Hin.
Qed.

Lemma try_authentication_event_probe paths ev :
  try_authentication_event paths ev ->
  write_of ev = None /\
  (forall s customer n result, ev <> Called (UsersList s customer n) result) /\
  (forall s customer n result, ev <> Called (GroupsList s customer n) result).
Proof.
  destruct ev as [[]|]; cbn; try done.
Qed.

(** The three ways [main] can go. *)
Lemma quick_main_cases (E : env) (h : list event) :
  Forall (try_authentication_event (QuickAuth.service_account_paths E))
    (trace_of (QuickAuth.try_authentication E) (h ++ quick_banner)) /\
  ((result_of (QuickAuth.try_authentication E) (h ++ quick_banner) = inr (None, None) /\
    QuickAuthMain.main E h =
      (inr tt,
       quick_banner ++ trace_of (QuickAuth.try_authentication E) (h ++ quick_banner)
         ++ manual_lines))
   \/
   exists c passed t2,
     result_of (QuickAuth.try_authentication E) (h ++ quick_banner)
       = inr (Some c, Some (Service "admin" "directory_v1" c)) /\
     QuickAuth.test_workspace_access E (Service "admin" "directory_v1" c)
       (h ++ quick_banner ++ trace_of (QuickAuth.try_authentication E) (h ++ quick_banner))
       = (inr passed, t2) /\
     access_run (Service "admin" "directory_v1" c) passed t2 /\
     if passed then
       exists answer : exn + unit,
         QuickAuthMain.main E h =
           (answer,
            quick_banner ++ trace_of (QuickAuth.try_authentication E) (h ++ quick_banner)
              ++ t2 ++ success_lines
              ++ [marker_write (sum_map id (fun _ => VNone) answer)])
     else
       QuickAuthMain.main E h =
         (inr tt,
          quick_banner ++ trace_of (QuickAuth.try_authentication E) (h ++ quick_banner)
            ++ t2 ++ [insufficient_line])).
Proof.
  split; [apply try_authentication_events|].
  destruct (quick_main_run E h) as (r & t1 & Hrun1 & Hfound & Hmain).
  unfold result_of, trace_of. rewrite Hrun1. cbn [fst snd].
  inversion Hfound as [Hnone Hr|c pre listing line Ht Hpre Hr]; subst r.
  - left. done.
  - right. destruct Hmain as (passed & t2 & Hrun2 & Hshape & Hmain).
    exists c, passed, t2. done.
Qed.

(** X19: the only file [main] writes is [auth_working.json], with the
    status marker as content, and it writes it exactly when the groups
    listing of the access test returned. *)
Theorem quick_main_marker (E : env) (h : list event) :
  (forall path content result,
     Called (WriteFile path content) result ∈ trace_of (QuickAuthMain.main E) h ->
     path = "auth_working.json" /\ content = QuickAuthMain.marker) /\
  ((exists result, marker_write result ∈ trace_of (QuickAuthMain.main E) h) <->
   (exists svc groups,
      Called (GroupsList svc "my_customer" 10) (inr (VResponse groups))
        ∈ trace_of (QuickAuthMain.main E) h)).
Proof.
  destruct (quick_main_cases E h) as [Hevents Hcases].
  set (t1 := trace_of (QuickAuth.try_authentication E) (h ++ quick_banner)) in *.
  assert (Ht1 : forall ev, ev ∈ t1 ->
            write_of ev = None /\
            (forall s customer n result, ev <> Called (UsersList s customer n) result) /\
            (forall s customer n result, ev <> Called (GroupsList s customer n) result)).
  { rewrite Forall_forall in Hevents. intros ev Hin.
    eapply try_authentication_event_probe. by apply Hevents. }
  destruct Hcases as [[_ Hmain]|(c & passed & t2 & _ & _ & Hshape & Hmain)].
  - unfold trace_of. rewrite Hmain. cbn [snd]. split.
    + intros path content result Hin.
      apply elem_of_app in Hin as [Hin|Hin];
        [unfold quick_banner in Hin; locate Hin|].
      apply elem_of_app in Hin as [Hin|Hin];
        [by destruct (Ht1 _ Hin) as [? _]|unfold manual_lines in Hin; locate Hin].
    + split.
      * intros (result & Hin).
        apply elem_of_app in Hin as [Hin|Hin];
          [unfold quick_banner in Hin; locate Hin|].
        apply elem_of_app in Hin as [Hin|Hin];
          [by destruct (Ht1 _ Hin) as [? _]|unfold manual_lines in Hin; locate Hin].
      * intros (s & groups & Hin).
        apply elem_of_app in Hin as [Hin|Hin];
          [unfold quick_banner in Hin; locate Hin|].
        apply elem_of_app in Hin as [Hin|Hin];
          [by destruct (Ht1 _ Hin) as (_ & _ & Hno); destruct (Hno _ _ _ _ eq_refl)
          |unfold manual_lines in Hin; locate Hin].
  - pose proof (access_run_read_only _ _ _ Hshape) as Hread.
    rewrite Forall_forall in Hread.
    pose proof (access_run_passed _ _ _ Hshape) as Hpassed.
    destruct passed.
    + destruct Hmain as (answer & Hmain).
      unfold trace_of. rewrite Hmain. cbn [snd]. split.
      * intros path content result Hin.
        apply elem_of_app in Hin as [Hin|Hin];
          [unfold quick_banner in Hin; locate Hin|].
        apply elem_of_app in Hin as [Hin|Hin];
          [by destruct (Ht1 _ Hin) as [? _]|].
        apply elem_of_app in Hin as [Hin|Hin];
          [by pose proof (Hread _ Hin)|].
        unfold success_lines, marker_write in Hin. locate Hin.
        by injection Hin as -> -> _.
      * split.
        -- intros _. destruct Hpassed as [(s & groups & Hin) _]; [done|].
           exists s, groups. rewrite !elem_of_app. auto.
        -- intros _. exists (sum_map id (fun _ => VNone) answer).
           rewrite !elem_of_app, list_elem_of_singleton. auto.
    + unfold trace_of. rewrite Hmain. cbn [snd]. split.
      * intros path content result Hin.
        apply elem_of_app in Hin as [Hin|Hin];
          [unfold quick_banner in Hin; locate Hin|].
        apply elem_of_app in Hin as [Hin|Hin];
          [by destruct (Ht1 _ Hin) as [? _]|].
        apply elem_of_app in Hin as [Hin|Hin];
          [by pose proof (Hread _ Hin)|].
        unfold insufficient_line in Hin. locate Hin.
      * split.
        -- intros (result & Hin).
           apply elem_of_app in Hin as [Hin|Hin];
             [unfold quick_banner in Hin; locate Hin|].
           apply elem_of_app in Hin as [Hin|Hin];
             [by destruct (Ht1 _ Hin) as [? _]|].
           apply elem_of_app in Hin as [Hin|Hin];
             [by pose proof (Hread _ Hin)|].
           unfold insufficient_line in Hin. locate Hin.
        -- intros (s & groups & Hin).
           apply elem_of_app in Hin as [Hin|Hin];
             [unfold quick_banner in Hin; locate Hin|].
           apply elem_of_app in Hin as [Hin|Hin];
             [by destruct (Ht1 _ Hin) as (_ & _ & Hno); destruct (Hno _ _ _ _ eq_refl)|].
           apply elem_of_app in Hin as [Hin|Hin].
           ++ destruct Hpassed as [_ Hyes]. discriminate Hyes. by exists s, groups.
           ++ unfold insufficient_line in Hin. locate Hin.
Qed.

(** X20: [main] catches nothing itself, yet it can raise in one place
    only: it ends with an exception exactly when the write of the marker
    file raised it, as the last event of the run. *)
Theorem quick_main_raises_only_on_marker (E : env) (h : list event) (e : exn) :
  result_of (QuickAuthMain.main E) h = inl e <->
  last (trace_of (QuickAuthMain.main E) h) = Some (marker_write (inl e)).
Proof.
  destruct (quick_main_cases E h) as [_ Hcases].
  set (t1 := trace_of (QuickAuth.try_authentication E) (h ++ quick_banner)) in *.
  destruct Hcases as [[_ Hmain]|(c & passed & t2 & _ & _ & _ & Hmain)].
  - unfold result_of, trace_of. rewrite Hmain. cbn [fst snd].
    unfold manual_lines.
    rewrite !app_assoc.
    rewrite (last_app_cons _ _ _). cbn. split; discriminate.
  - destruct passed.
    + destruct Hmain as (answer & Hmain).
      unfold result_of, trace_of. rewrite Hmain. cbn [fst snd].
      rewrite !app_assoc, last_snoc.
      destruct answer as [e'|[]]; cbn; split; intros [= ->]; done.
    + unfold result_of, trace_of. rewrite Hmain. cbn [fst snd].
      rewrite !app_assoc, last_snoc. split; discriminate.
Qed.

(** X21: the users and the groups are listed only through the client
    [try_authentication] returned, which is the one built from the
    credential it returned; when it returned no client, they are never
    listed. *)
Theorem quick_main_access_client (E : env) (h : list event)
    (svc : service) (customer : string) (n : Z) (result : exn + value) :
  Called (UsersList svc customer n) result ∈ trace_of (QuickAuthMain.main E) h \/
  Called (GroupsList svc customer n) result ∈ trace_of (QuickAuthMain.main E) h ->
  exists c,
    result_of (QuickAuth.try_authentication E) (h ++ quick_banner)
      = inr (Some c, Some svc) /\
    svc = Service "admin" "directory_v1" c.
Proof.
  destruct (quick_main_cases E h) as [Hevents Hcases].
  set (t1 := trace_of (QuickAuth.try_authentication E) (h ++ quick_banner)) in *.
  assert (Ht1 : forall ev, ev ∈ t1 ->
            (forall s customer n result, ev <> Called (UsersList s customer n) result) /\
            (forall s customer n result, ev <> Called (GroupsList s customer n) result)).
  { rewrite Forall_forall in Hevents. intros ev Hin.
    eapply try_authentication_event_probe. by apply Hevents. }
  assert (Hnot1 : Called (UsersList svc customer n) result ∈ t1 \/
                  Called (GroupsList svc customer n) result ∈ t1 -> False).
  { intros [Hin|Hin]; destruct (Ht1 _ Hin) as [Hu Hg];
      [destruct (Hu _ _ _ _ eq_refl)|destruct (Hg _ _ _ _ eq_refl)]. }
  destruct Hcases as [[_ Hmain]|(c & passed & t2 & Hres & _ & Hshape & Hmain)].
  - unfold trace_of. rewrite Hmain. cbn [snd]. intros Hin. exfalso.
    rewrite !elem_of_app in Hin.
    destruct Hin as [[Hin|[Hin|Hin]]|[Hin|[Hin|Hin]]]; try (apply Hnot1; by auto);
      unfold quick_banner, manual_lines in Hin; locate Hin.
  - assert (Hclient : Called (UsersList svc customer n) result ∈ t2 \/
                      Called (GroupsList svc customer n) result ∈ t2 ->
                      exists c0,
                        result_of (QuickAuth.try_authentication E) (h ++ quick_banner)
                          = inr (Some c0, Some svc) /\
                        svc = Service "admin" "directory_v1" c0).
    { intros Hin. pose proof (access_run_client _ _ _ _ _ _ _ Hshape Hin) as ->.
      by exists c. }
    destruct passed.
    + destruct Hmain as (answer & Hmain).
      unfold trace_of. rewrite Hmain. cbn [snd]. intros Hin.
      rewrite !elem_of_app in Hin.
      destruct Hin as [[Hin|[Hin|[Hin|[Hin|Hin]]]]|[Hin|[Hin|[Hin|[Hin|Hin]]]]];
        try (exfalso; apply Hnot1; by auto);
        try (apply Hclient; by auto);
        exfalso; unfold quick_banner, success_lines, marker_write in Hin; locate Hin.
    + unfold trace_of. rewrite Hmain. cbn [snd]. intros Hin.
      rewrite !elem_of_app in Hin.
      destruct Hin as [[Hin|[Hin|[Hin|Hin]]]|[Hin|[Hin|[Hin|Hin]]]];
        try (exfalso; apply Hnot1; by auto);
        try (apply Hclient; by auto);
        exfalso; unfold quick_banner, insufficient_line in Hin; locate Hin.
Qed.

Lemma quick_main_access_client_witness :
  exists c,
    result_of (QuickAuth.try_authentication
                 (Mock.world [] Mock.cached [] Mock.directory Mock.all_up))
      ([] ++ quick_banner) = inr (Some c, Some Mock.admin) /\
    Mock.admin = Service "admin" "directory_v1" c.
Proof.
  apply (quick_main_access_client
           (Mock.world [] Mock.cached [] Mock.directory Mock.all_up) []
           Mock.admin "my_customer" 10 (inr (VResponse Mock.directory))).
  left. vm_compute. repeat first [apply list_elem_of_here | apply list_elem_of_further].
Defined.

(** X22: when no method yields a credential, [main] prints the manual
    steps after the attempts and returns normally: it runs no access test
    and writes no marker. *)
Theorem quick_main_without_credentials (E : env) (h : list event) :
  result_of (QuickAuth.try_authentication E) (h ++ quick_banner) = inr (None, None) ->
  QuickAuthMain.main E h =
    (inr tt,
     quick_banner ++ trace_of (QuickAuth.try_authentication E) (h ++ quick_banner)
       ++ manual_lines).
Proof.
  intros Hres.
  destruct (quick_main_cases E h) as [_ [[_ Hmain]|(c & passed & t2 & Hres' & _)]];
    [done|congruence].
Qed.

Lemma quick_main_without_credentials_witness :
  QuickAuthMain.main
    (Mock.world [] Mock.cached [] Mock.directory Mock.probes_down) [] =
    (inr tt,
     quick_banner
       ++ trace_of (QuickAuth.try_authentication
                      (Mock.world [] Mock.cached [] Mock.directory Mock.probes_down))
            ([] ++ quick_banner)
       ++ manual_lines).
Proof.
  apply (quick_main_without_credentials
           (Mock.world [] Mock.cached [] Mock.directory Mock.probes_down) []).
  reflexivity.
Defined.

(** ** More on [test_workspace_access] *)

(** X23: when the domains listing returns entries that all carry
    [domainName] and [verified], the count is printed, then one line per
    entry in the order of the response, and only then are the users
    listed; a response without a [domains] key counts as no domain. *)
Theorem domains_listed (E : env) (svc : service) (h : list event)
    (listing : response) :
  domains_list E (h ++ [access_greeting]) svc "my_customer" = inr listing ->
  Forall domain_complete (QuickAuth.get_list listing "domains") ->
  (exists result post,
     trace_of (QuickAuth.test_workspace_access E svc) h =
       access_greeting
         :: Called (DomainsList svc "my_customer") (inr (VResponse listing))
         :: Printed (domains_line listing)
         :: map (fun d => Printed (domain_line d)) (QuickAuth.get_list listing "domains")
         ++ Called (UsersList svc "my_customer" 10) result :: post) /\
  (listing !! "domains" = None ->
   domains_line listing = "✅ Found 0 domains:" /\
   QuickAuth.get_list listing "domains" = []).
Proof.
  intros Hlist Hcomplete. split.
  2:{ intros Hnone. unfold domains_line, QuickAuth.get_list. by rewrite Hnone. }
  unfold access_greeting in *. cbn in Hlist.
  unfold trace_of, QuickAuth.test_workspace_access, try_except, bind, perform,
    print, ret, QuickAuth.probe; cbn.
  rewrite Hlist. cbn.
  match goal with
  | |- context [for_each ?l ?body ?hist] =>
      rewrite (print_domains_all l hist) by done
  end.
  cbn.
  destruct (users_list E _ svc "my_customer" 10) as [e|users]; cbn.
  { eexists _, _. rewrite <- ?app_assoc. reflexivity. }
  destruct (groups_list E _ svc "my_customer" 10) as [e|groups]; cbn;
    eexists _, _; rewrite <- ?app_assoc; reflexivity.
Qed.

Lemma domains_listed_witness :
  exists result post,
    trace_of (QuickAuth.test_workspace_access
                (Mock.world [] Mock.cached [] Mock.directory Mock.users_down)
                Mock.admin) [] =
      access_greeting
        :: Called (DomainsList Mock.admin "my_customer") (inr (VResponse Mock.directory))
        :: Printed (domains_line Mock.directory)
        :: map (fun d => Printed (domain_line d))
             (QuickAuth.get_list Mock.directory "domains")
        ++ Called (UsersList Mock.admin "my_customer" 10) result :: post.
Proof.
  apply (domains_listed
           (Mock.world [] Mock.cached [] Mock.directory Mock.users_down)
           Mock.admin [] Mock.directory).
  - reflexivity.
  - repeat constructor; eexists; vm_compute; reflexivity.
Defined.

(** X24: the first domain entry that lacks [domainName] or [verified]
    ends the diagnostic: the entries before it have been printed, the
    failure names the missing key ([domainName] when both are missing),
    neither users nor groups are listed and the result is [False]. *)
Theorem incomplete_domain_stops (E : env) (svc : service) (h : list event)
    (listing : response) (good : list entry) (bad : entry) (rest : list entry) :
  domains_list E (h ++ [access_greeting]) svc "my_customer" = inr listing ->
  QuickAuth.get_list listing "domains" = good ++ bad :: rest ->
  Forall domain_complete good ->
  ~ domain_complete bad ->
  QuickAuth.test_workspace_access E svc h =
    (inr false,
     access_greeting
       :: Called (DomainsList svc "my_customer") (inr (VResponse listing))
       :: Printed (domains_line listing)
       :: map (fun d => Printed (domain_line d)) good
       ++ [Printed (access_failed_line (KeyError (missing_key bad)))]).
Proof.
  intros Hlist Hdomains Hgood Hbad.
  unfold access_greeting in *. cbn in Hlist.
  unfold domains_line.
  unfold QuickAuth.test_workspace_access, try_except, bind, perform,
    print, ret, QuickAuth.probe; cbn.
  rewrite Hlist. cbn. rewrite Hdomains.
  rewrite (print_domains_stop good bad rest) by done.
  cbn. rewrite <- ?app_assoc. reflexivity.
Qed.

Lemma incomplete_domain_stops_witness :
  QuickAuth.test_workspace_access
    (Mock.world [] Mock.cached [] Sample.patchy Mock.all_up) Mock.admin [] =
    (inr false,
     access_greeting
       :: Called (DomainsList Mock.admin "my_customer") (inr (VResponse Sample.patchy))
       :: Printed (domains_line Sample.patchy)
       :: map (fun d => Printed (domain_line d)) [Mock.domain "aribia.llc"]
       ++ [Printed (access_failed_line (KeyError (missing_key Sample.unnamed)))]).
Proof.
  apply (incomplete_domain_stops
           (Mock.world [] Mock.cached [] Sample.patchy Mock.all_up) Mock.admin []
           Sample.patchy [Mock.domain "aribia.llc"] Sample.unnamed
           [Mock.domain "chitty.cc"]).
  - reflexivity.
  - reflexivity.
  - repeat constructor; eexists; vm_compute; reflexivity.
  - intros [[name Hname] _]. vm_compute in Hname. discriminate.
Defined.

Lemma printed_only_silent (shown : list event) :
  printed_only shown -> listings shown = [] /\ quiet shown.
Proof.
  unfold printed_only, quiet.
  induction 1 as [|ev shown [line ->] _ [IHl IHq]]; [done|].
  split; [done|by constructor].
Qed.

(** X25: the diagnostic lists the domains first, the users only after the
    domains have been listed and printed, the groups only after the users,
    each at most once; it returns [True] only when all three were listed
    and no call raised; and after a call that raised nothing more is
    listed. *)
Theorem listing_order (E : env) (svc : service) (h : list event) :
  listings (trace_of (QuickAuth.test_workspace_access E svc) h)
    `prefix_of` ["domains"; "users"; "groups"] /\
  listings (trace_of (QuickAuth.test_workspace_access E svc) h) <> [] /\
  (result_of (QuickAuth.test_workspace_access E svc) h = inr true ->
   listings (trace_of (QuickAuth.test_workspace_access E svc) h)
     = ["domains"; "users"; "groups"] /\
   quiet (trace_of (QuickAuth.test_workspace_access E svc) h)) /\
  (forall pre c e post,
     trace_of (QuickAuth.test_workspace_access E svc) h = pre ++ Called c (inl e) :: post ->
     listings post = []).
Proof.
  destruct (test_workspace_access_run E svc h) as (passed & t & Hrun & Hshape).
  unfold result_of, trace_of. rewrite Hrun. cbn [fst snd].
  assert (Hlistings : forall shown tail,
            printed_only shown -> listings (shown ++ tail) = listings tail).
  { intros shown tail Hshown. unfold listings. rewrite omap_app.
    destruct (printed_only_silent shown Hshown) as [Hnone _].
    unfold listings in Hnone. by rewrite Hnone. }
  assert (Hafter : forall before failed e line pre c e' post,
            quiet before ->
            before ++ [Called failed (inl e); Printed line]
              = pre ++ Called c (inl e') :: post ->
            listings post = []).
  { intros before failed e line pre c e' post Hq Heq. symmetry in Heq.
    destruct (sole_raised_unique pre (Called c (inl e')) post before
                (Called failed (inl e)) [Printed line])
      as (_ & _ & ->); try done. by repeat constructor. }
  destruct Hshape as [e|domains shown key Hshown|domains shown e Hshown
                     |domains shown users e Hshown|domains shown users groups Hshown].
  - split; [by exists ["users"; "groups"]|]. split; [done|]. split; [discriminate|].
    intros pre c e' post Heq.
    destruct pre as [|x1 [|x2 [|x3 pre]]]; simplify_eq/=; try done.
    by destruct pre.
  - cbn. rewrite Hlistings by done.
    split; [by exists ["users"; "groups"]|]. split; [done|]. split; [discriminate|].
    intros pre c e' post Heq. exfalso.
    assert (Hq : quiet (access_greeting
                          :: Called (DomainsList svc "my_customer") (inr (VResponse domains))
                          :: Printed (domains_line domains)
                          :: shown ++ [Printed (access_failed_line (KeyError key))])).
    { unfold quiet. repeat (apply Forall_cons; split; [done|]).
      apply Forall_app. split; [by apply printed_only_silent|by repeat constructor]. }
    pose proof (quiet_no_raised _ _ _ _ Hq Heq). discriminate.
  - cbn. rewrite Hlistings by done.
    split; [by exists ["groups"]|]. split; [done|]. split; [discriminate|].
    intros pre c e' post Heq.
    apply (Hafter (access_greeting
                     :: Called (DomainsList svc "my_customer") (inr (VResponse domains))
                     :: Printed (domains_line domains) :: shown)
             _ _ _ _ _ _ _) in Heq; [done|].
    unfold quiet. repeat (apply Forall_cons; split; [done|]).
    by apply printed_only_silent.
  - cbn. rewrite Hlistings by done.
    split; [done|]. split; [done|]. split; [discriminate|].
    intros pre c e' post Heq.
    change (shown ++ [Called (UsersList svc "my_customer" 10) (inr (VResponse users));
                      Printed (users_line users);
                      Called (GroupsList svc "my_customer" 10) (inl e);
                      Printed (access_failed_line e)])
      with (shown ++ [Called (UsersList svc "my_customer" 10) (inr (VResponse users));
                      Printed (users_line users)]
                  ++ [Called (GroupsList svc "my_customer" 10) (inl e);
                      Printed (access_failed_line e)]) in Heq.
    rewrite app_assoc in Heq.
    apply (Hafter (access_greeting
                     :: Called (DomainsList svc "my_customer") (inr (VResponse domains))
                     :: Printed (domains_line domains)
                     :: shown ++ [Called (UsersList svc "my_customer" 10)
                                    (inr (VResponse users));
                                  Printed (users_line users)])
             _ _ _ _ _ _ _) in Heq; [done|].
    unfold quiet. repeat (apply Forall_cons; split; [done|]).
    apply Forall_app. split; [by apply printed_only_silent|by repeat constructor].
  - cbn. rewrite Hlistings by done.
    split; [done|]. split; [done|]. split.
    + intros _. split; [done|].
      unfold quiet. repeat (apply Forall_cons; split; [done|]).
      apply Forall_app. split; [by apply printed_only_silent|by repeat constructor].
    + intros pre c e' post Heq. exfalso.
      assert (Hq : quiet (access_greeting
                            :: Called (DomainsList svc "my_customer") (inr (VResponse domains))
                            :: Printed (domains_line domains)
                            :: shown ++ [Called (UsersList svc "my_customer" 10) (inr (VResponse users));
                                         Printed (users_line users);
                                         Called (GroupsList svc "my_customer" 10) (inr (VResponse groups));
                                         Printed (groups_line groups)])).
      { unfold quiet. repeat (apply Forall_cons; split; [done|]).
        apply Forall_app. split; [by apply printed_only_silent|by repeat constructor]. }
      pose proof (quiet_no_raised _ _ _ _ Hq Heq). discriminate.
Qed.

(** ** More on [try_authentication] *)

Lemma key_load_guarded_app (t1 t2 : list event) :
  key_load_guarded t1 -> key_load_guarded t2 -> key_load_guarded (t1 ++ t2).
Proof.
  intros H1 H2 pre path scopes result post Heq.
  apply app_eq_inv in Heq as [(k & -> & Hk)|(k & -> & Hk)].
  - destruct k as [|x k].
    + cbn in Hk. symmetry in Hk.
      destruct (H2 [] _ _ _ _ Hk) as (-> & pre' & Hpre). by destruct pre'.
    + cbn in Hk. injection Hk as <- ->.
      destruct (H1 pre path scopes result k eq_refl) as (-> & pre' & ->).
      split; [done|]. by exists pre'.
  - destruct (H2 k path scopes result post Hk) as (-> & pre' & ->).
    split; [done|]. exists (t1 ++ pre'). by rewrite app_assoc.
Qed.

Lemma key_load_guarded_none (t : list event) :
  Forall (fun ev => key_load_of ev = None) t -> key_load_guarded t.
Proof.
  intros Hnone pre path scopes result post ->.
  rewrite Forall_app, Forall_cons in Hnone.
  destruct Hnone as (_ & Hbad & _). discriminate Hbad.
Qed.

Section Guarded.
Context (E : env).

Lemma try_adc_no_load h :
  Forall (fun ev => key_load_of ev = None) (trace_of (QuickAuth.try_adc E) h).
Proof.
  unfold trace_of, QuickAuth.try_adc. run_attempt; by repeat constructor.
Qed.

Lemma try_gcloud_no_load h :
  Forall (fun ev => key_load_of ev = None) (trace_of (QuickAuth.try_gcloud E) h).
Proof.
  unfold trace_of, QuickAuth.try_gcloud. run_attempt; by repeat constructor.
Qed.

Lemma key_attempt_guarded path h :
  key_load_guarded
    (Called (PathExists path) (inr (VBool true))
       :: trace_of (QuickAuth.try_service_account E path) h).
Proof.
  unfold trace_of, QuickAuth.try_service_account, key_load_guarded, key_line.
  run_attempt;
    intros pre p scopes result post Heq;
    repeat (destruct pre as [|? pre]; simplify_eq/=);
    (split; [done|]); by exists [].
Qed.

Lemma try_service_accounts_guarded paths h :
  key_load_guarded (trace_of (QuickAuth.try_service_accounts E paths) h).
Proof.
  revert h. induction paths as [|path rest IH]; intros h.
  - by apply key_load_guarded_none.
  - set (ev := Called (PathExists path) (inr (VBool (os_path_exists E h path)))).
    unfold trace_of. cbn [QuickAuth.try_service_accounts].
    unfold bind at 1, perform. cbn [sum_map id]. fold ev.
    destruct (os_path_exists E h path) eqn:Hexists.
    + pose proof (key_attempt_guarded path (h ++ [ev])) as H1.
      destruct (try_service_account_run E path (h ++ [ev]))
        as (r1 & t1 & Hrun1 & _).
      unfold trace_of in H1. rewrite Hrun1 in H1. cbn [snd] in H1.
      unfold bind. rewrite Hrun1.
      destruct r1 as [working|].
      * cbn. by rewrite app_nil_r.
      * pose proof (IH ((h ++ [ev]) ++ t1)) as H2. unfold trace_of in H2.
        destruct (QuickAuth.try_service_accounts E rest ((h ++ [ev]) ++ t1)) as [r2 t2].
        cbn in *. by apply (key_load_guarded_app (ev :: t1) t2).
    + pose proof (IH (h ++ [ev])) as H2. unfold trace_of in H2.
      destruct (QuickAuth.try_service_accounts E rest (h ++ [ev])) as [r2 t2].
      cbn in *. apply (key_load_guarded_app [ev] t2); [|done].
      apply key_load_guarded_none. by repeat constructor.
Qed.

Lemma try_authentication_guarded h :
  key_load_guarded (trace_of (QuickAuth.try_authentication E) h).
Proof.
  set (greeting := Printed "🔐 Attempting Google Workspace authentication...").
  unfold trace_of, QuickAuth.try_authentication.
  generalize (QuickAuth.service_account_paths E). intros paths.
  unfold bind at 1, print. fold greeting.
  pose proof (try_adc_no_load (h ++ [greeting])) as Hadc.
  destruct (try_adc_run E (h ++ [greeting])) as (r1 & t1 & Hrun1 & _).
  unfold trace_of in Hadc. rewrite Hrun1 in Hadc. cbn [snd] in Hadc.
  unfold bind at 1. rewrite Hrun1.
  assert (Hhead : key_load_guarded (greeting :: t1)).
  { apply key_load_guarded_none. by constructor. }
  destruct r1 as [working|].
  { cbn. by rewrite app_nil_r. }
  pose proof (try_service_accounts_guarded paths ((h ++ [greeting]) ++ t1)) as Hkeys.
  destruct (try_service_accounts_run E paths ((h ++ [greeting]) ++ t1))
    as (r2 & t2 & Hrun2 & _).
  unfold trace_of in Hkeys. rewrite Hrun2 in Hkeys. cbn [snd] in Hkeys.
  unfold bind at 1. rewrite Hrun2.
  destruct r2 as [working|].
  { cbn. rewrite app_nil_r. by apply (key_load_guarded_app (greeting :: t1) t2). }
  pose proof (try_gcloud_no_load (((h ++ [greeting]) ++ t1) ++ t2)) as Hgcloud.
  destruct (try_gcloud_run E (((h ++ [greeting]) ++ t1) ++ t2))
    as (r3 & t3 & Hrun3 & _).
  unfold trace_of in Hgcloud. rewrite Hrun3 in Hgcloud. cbn [snd] in Hgcloud.
  unfold bind. rewrite Hrun3.
  destruct r3 as [working|]; cbn; rewrite app_nil_r;
    apply (key_load_guarded_app (greeting :: t1) (t2 ++ t3)); try done;
    (apply key_load_guarded_app; [done|by apply key_load_guarded_none]).
Qed.
End Guarded.

(** X26: [try_authentication] loads a key file only right after
    [os.path.exists] has returned [True] for that very path and the attempt
    has been announced, and always with the scopes of the script: a key
    file that is not found is never loaded. *)
Theorem key_file_loaded_after_lookup (E : env) (h : list event)
    (pre : list event) (path : string) (scopes : list string)
    (result : exn + value) (post : list event) :
  trace_of (QuickAuth.try_authentication E) h
    = pre ++ Called (FromServiceAccountFile path scopes) result :: post ->
  scopes = QuickAuth.SCOPES /\
  exists pre',
    pre = pre' ++ [Called (PathExists path) (inr (VBool true)); key_line path].
Proof.
  apply try_authentication_guarded.
Qed.

Lemma key_file_loaded_after_lookup_witness :
  QuickAuth.SCOPES = QuickAuth.SCOPES /\
  exists pre',
    take 7 (trace_of (QuickAuth.try_authentication
                        (Mock.world ["credentials.json"] Mock.cached [] Mock.directory
                           Sample.adc_down)) [])
      = pre' ++ [Called (PathExists "credentials.json") (inr (VBool true));
                 key_line "credentials.json"].
Proof.
  apply (key_file_loaded_after_lookup
           (Mock.world ["credentials.json"] Mock.cached [] Mock.directory Sample.adc_down)
           [] _ "credentials.json" QuickAuth.SCOPES (inr (VCreds Mock.fresh))
           (drop 8 (trace_of (QuickAuth.try_authentication
                                (Mock.world ["credentials.json"] Mock.cached []
                                   Mock.directory Sample.adc_down)) []))).
  vm_compute. reflexivity.
Defined.

(** ** The [gcloud] login comes last *)

Lemma sole_unique (p : event -> bool) pre ev post pre' ev' post' :
  Forall (fun x => p x = false) pre' ->
  Forall (fun x => p x = false) post' ->
  p ev = true ->
  pre ++ ev :: post = pre' ++ ev' :: post' ->
  pre = pre' /\ ev = ev' /\ post = post'.
Proof.
  revert pre.
  induction pre' as [|x' pre' IH]; intros [|x pre] Hq' Hpost Hev Heq; cbn in Heq.
  - by inversion Heq.
  - inversion Heq; subst. rewrite Forall_app, Forall_cons in Hpost.
    destruct Hpost as (_ & Hbad & _). congruence.
  - inversion Heq; subst. inversion Hq'; subst. congruence.
  - inversion Heq; subst. inversion Hq'; subst.
    destruct (IH pre) as (-> & -> & ->); auto.
Qed.

Lemma no_gcloud_no_system (t : list event) :
  GcloudLogin ∉ attempts t -> Forall (fun ev => is_system ev = false) t.
Proof.
  induction t as [|ev t IH]; [constructor|].
  intros Hnot. constructor.
  - destruct ev as [[]|]; try done. destruct Hnot. cbn. apply list_elem_of_here.
  - apply IH. intros Hin. apply Hnot. unfold attempts in *. cbn.
    destruct (method_started ev); [by apply list_elem_of_further|done].
Qed.

Lemma no_system_no_gcloud (t : list event) :
  Forall (fun ev => is_system ev = false) t -> GcloudLogin ∉ attempts t.
Proof.
  induction 1 as [|ev t Hev _ IH]; [by intros ?%elem_of_nil|].
  unfold attempts in *. cbn.
  destruct ev as [[]|]; try done; cbn;
    try (destruct scopes; cbn; try done);
    intros [?|?]%elem_of_cons; done.
Qed.

Section GcloudLast.
Context (E : env).

(** The third method always runs the command, ignores its exit status and
    asks for the default credentials. *)
Lemma try_gcloud_shape h :
  exists r intro status answer rest,
    QuickAuth.try_gcloud E h =
      (inr r,
       Printed intro :: Called (System QuickAuth.gcloud_login) (inr (VInt status))
         :: Called (AuthDefault None) answer :: rest) /\
    Forall (fun ev => is_system ev = false) rest.
Proof.
  unfold QuickAuth.try_gcloud. run_attempt;
    eexists _, _, _, _, _; (split; [reflexivity|]); by repeat constructor.
Qed.

Lemma try_authentication_gcloud h t :
  trace_of (QuickAuth.try_authentication E) h = t ->
  Forall (fun ev => is_system ev = false) t \/
  exists before status answer rest,
    t = before ++ Called (System QuickAuth.gcloud_login) (inr (VInt status))
          :: Called (AuthDefault None) answer :: rest /\
    attempts before = ADC :: map ServiceAccountKey (QuickAuth.service_account_paths E) /\
    probes_passed before = [] /\
    Forall (fun ev => is_system ev = false) before /\
    Forall (fun ev => is_system ev = false) rest.
Proof.
  set (greeting := Printed "🔐 Attempting Google Workspace authentication...").
  assert (Hkeys : forall paths, GcloudLogin ∉ map ServiceAccountKey paths).
  { intros paths. rewrite list_elem_of_fmap. by intros (? & ? & _). }
  unfold trace_of, QuickAuth.try_authentication.
  generalize (QuickAuth.service_account_paths E). intros paths.
  unfold bind at 1, print. fold greeting.
  destruct (try_adc_run E (h ++ [greeting]))
    as (r1 & t1 & Hrun1 & Hattempts1 & _ & Hfound1).
  unfold bind at 1. rewrite Hrun1.
  assert (Hsys1 : Forall (fun ev => is_system ev = false) t1).
  { apply no_gcloud_no_system. rewrite Hattempts1.
    intros [?|?%elem_of_nil]%elem_of_cons; done. }
  destruct r1 as [working|].
  { cbn. rewrite app_nil_r. intros <-. left. by constructor. }
  destruct (try_service_accounts_run E paths ((h ++ [greeting]) ++ t1))
    as (r2 & t2 & Hrun2 & _ & Hfound2 & Hprefix2 & Hall2).
  unfold bind at 1. rewrite Hrun2.
  assert (Hsys2 : Forall (fun ev => is_system ev = false) t2).
  { apply no_gcloud_no_system. intros Hin. apply (Hkeys paths).
    destruct Hprefix2 as [more ->]. apply elem_of_app. by left. }
  destruct r2 as [working|].
  { cbn. rewrite app_nil_r. intros <-. left. constructor; [done|]. by apply Forall_app. }
  destruct (try_gcloud_shape (((h ++ [greeting]) ++ t1) ++ t2))
    as (r3 & intro & status & answer & rest & Hrun3 & Hsys3).
  unfold bind. rewrite Hrun3. intros Ht.
  right. exists (greeting :: t1 ++ t2 ++ [Printed intro]), status, answer, rest.
  split.
  { rewrite <- Ht. destruct r3; cbn; rewrite ?app_nil_r, <- ?app_assoc; reflexivity. }
  apply found_nothing_inv in Hfound1, Hfound2.
  unfold attempts, probes_passed in *.
  split.
  { cbn. rewrite !omap_app, Hattempts1, Hall2 by done. cbn. by rewrite app_nil_r. }
  split.
  { cbn. rewrite !omap_app, Hfound1, Hfound2. done. }
  split; [|done].
  constructor; [done|]. repeat (apply Forall_app; split); try done.
  by repeat constructor.
Qed.
End GcloudLast.

(** X27: the only shell command [try_authentication] runs is the
    [gcloud] login, at most once, and only as a last resort: before it,
    Application Default Credentials and every listed key path have been
    tried, in that order, and no probe has passed.  Its exit status is not
    looked at: whatever it is, the default credentials are asked for
    next. *)
Theorem gcloud_login_last (E : env) (h : list event)
    (pre : list event) (cmd : string) (result : exn + value) (post : list event) :
  trace_of (QuickAuth.try_authentication E) h = pre ++ Called (System cmd) result :: post ->
  cmd = QuickAuth.gcloud_login /\
  attempts pre = ADC :: map ServiceAccountKey (QuickAuth.service_account_paths E) /\
  probes_passed pre = [] /\
  Forall (fun ev => is_system ev = false) (pre ++ post) /\
  exists status answer rest,
    result = inr (VInt status) /\
    post = Called (AuthDefault None) answer :: rest.
Proof.
  intros Heq.
  destruct (try_authentication_gcloud E h _ Heq)
    as [Hnone|(before & status & answer & rest & Ht & Hattempts & Hprobes & Hb & Hr)].
  - rewrite Forall_app, Forall_cons in Hnone.
    destruct Hnone as (_ & Hbad & _). discriminate Hbad.
  -
    destruct (sole_unique is_system pre (Called (System cmd) result) post
                before (Called (System QuickAuth.gcloud_login) (inr (VInt status)))
                (Called (AuthDefault None) answer :: rest))
      as (-> & Hev & ->); try done.
    { by constructor. }
    injection Hev as -> ->.
    split; [done|]. split; [done|]. split; [done|].
    split; [apply Forall_app; split; [done|by constructor]|].
    by exists status, answer, rest.
Qed.

Lemma gcloud_login_last_witness :
  QuickAuth.gcloud_login = QuickAuth.gcloud_login /\
  attempts (take 10 (trace_of (QuickAuth.try_authentication
                                 (Mock.world [] Mock.cached [] Mock.directory
                                    Mock.probes_down)) []))
    = ADC :: map ServiceAccountKey
               (QuickAuth.service_account_paths
                  (Mock.world [] Mock.cached [] Mock.directory Mock.probes_down)).
Proof.
  pose proof (gcloud_login_last
                (Mock.world [] Mock.cached [] Mock.directory Mock.probes_down) []
                (take 10 (trace_of (QuickAuth.try_authentication
                                      (Mock.world [] Mock.cached [] Mock.directory
                                         Mock.probes_down)) []))
                QuickAuth.gcloud_login (inr (VInt 0))
                (drop 11 (trace_of (QuickAuth.try_authentication
                                      (Mock.world [] Mock.cached [] Mock.directory
                                         Mock.probes_down)) []))) as H.
  destruct H as (Hcmd & Hattempts & _).
  - vm_compute. reflexivity.
  - split; [exact Hcmd|exact Hattempts].
Defined.
